(** * ML-Research-RAG-Assistant: the deterministic core, embedded and verified

    A shallow embedding of the chunker ([src/chunking.py]), the citation
    codec ([src/citations.py]), the retriever's abstention rule
    ([src/retrieval.py]), the router ([src/router.py]), the configuration
    loader ([src/config.py]), the answer orchestrator
    ([src/pipeline.py]), the PDF ingestion ([src/ingest_pdf.py]) and the
    display of an answer ([app.py]).

    Conventions.
    - A Python [str] is a [string]: a sequence of characters with code
      points 0..255.  The character classes of [re] and of [str.strip]
      ([\s], [\d], [\w], case folding under [re.I]) are Python's, restricted
      to that range.
    - A Python [int] is a [Z]; a Python [float] is a [spec_float]
      (IEEE 754 binary64 without NaN payloads).
    - A [dict] used as a map is a [gmap], a [set] is a [gset]; iterating a
      set goes through [elements], whose order is left unspecified, as
      Python's is.
    - External collaborators (tokenizer, SHA-1, vector store, language
      model) are parameters. *)

From Stdlib Require Import ZArith List Bool Ascii String Lia.
From Stdlib Require Import DecimalString DecimalPos DecimalZ.
From Stdlib Require Import Floats.SpecFloat.
From stdpp Require Import base option list gmap strings.

Import ListNotations.
Local Open Scope Z_scope.
Local Open Scope string_scope.

(** ** Python strings *)

Module PyStr.

Definition code (c : ascii) : N := N_of_ascii c.

Definition in_range (lo hi : N) (c : ascii) : bool :=
  ((lo <=? code c) && (code c <=? hi))%N.

Definition is_code (n : N) (c : ascii) : bool := (code c =? n)%N.

(** [str.isspace], which is also [\s] of [re] on [str] patterns:
    TAB..CR, FS..US, SPACE, NEL and NBSP. *)
Definition is_space (c : ascii) : bool :=
  in_range 9 13 c || in_range 28 32 c || is_code 133 c || is_code 160 c.

(** [\d]: the decimal digits. *)
Definition is_digit (c : ascii) : bool := in_range 48 57 c.

(** The character class [[0-9a-f]]. *)
Definition is_hex_lower (c : ascii) : bool := in_range 48 57 c || in_range 97 102 c.

(** [\w]: alphanumerics ([str.isalnum]) and the underscore. *)
Definition is_word (c : ascii) : bool :=
  in_range 48 57 c || in_range 65 90 c || in_range 97 122 c || is_code 95 c
  || is_code 170 c || is_code 181 c || is_code 186 c
  || in_range 178 179 c || is_code 185 c || in_range 188 190 c
  || in_range 192 214 c || in_range 216 246 c || in_range 248 255 c.

(** Lower-casing of one character, as [re.I] applies it to the text. *)
Definition lower (c : ascii) : ascii :=
  if in_range 65 90 c || (in_range 192 222 c && negb (is_code 215 c))
  then ascii_of_N (code c + 32) else c.

Fixpoint lstrip (s : string) : string :=
  match s with
  | String c s' => if is_space c then lstrip s' else s
  | EmptyString => EmptyString
  end.

Fixpoint rstrip (s : string) : string :=
  match s with
  | EmptyString => EmptyString
  | String c s' =>
      match rstrip s' with
      | EmptyString => if is_space c then EmptyString else String c EmptyString
      | r => String c r
      end
  end.

(** [s.strip()]. *)
Definition strip (s : string) : string := rstrip (lstrip s).

(** Truthiness of a string: [if text:]. *)
Definition truthy (s : string) : bool :=
  match s with EmptyString => false | _ => true end.

(** Nothing is left of [s] once stripped: [not s.strip()]. *)
Definition is_blank (s : string) : bool := negb (truthy (strip s)).

(** The longest prefix whose characters are all in the class [p], and the
    rest: what a greedy [p+] or [p*] consumes. *)
Fixpoint span (p : ascii -> bool) (s : string) : string * string :=
  match s with
  | String c s' =>
      if p c then let (a, b) := span p s' in (String c a, b) else (EmptyString, s)
  | EmptyString => (EmptyString, EmptyString)
  end.

(** Exactly [n] characters of the class [p]: what [p{n}] consumes. *)
Fixpoint take_class (p : ascii -> bool) (n : nat) (s : string) : option (string * string) :=
  match n with
  | O => Some (EmptyString, s)
  | S n' =>
      match s with
      | String c s' =>
          if p c then
            match take_class p n' s' with
            | Some (a, b) => Some (String c a, b)
            | None => None
            end
          else None
      | EmptyString => None
      end
  end.

(** One literal character of a pattern. *)
Definition expect (c : ascii) (s : string) : option string :=
  match s with
  | String c' s' => if Ascii.eqb c' c then Some s' else None
  | EmptyString => None
  end.

Fixpoint all_chars (p : ascii -> bool) (s : string) : bool :=
  match s with
  | String c s' => p c && all_chars p s'
  | EmptyString => true
  end.

(** [str(n)] for an int. *)
Definition str_of_int (n : Z) : string := NilZero.string_of_int (Z.to_int n).

(** [int(s)] for a string of decimal digits ([None] is [ValueError]). *)
Definition int_of_digits (s : string) : option Z :=
  match s with
  | EmptyString => None
  | _ => option_map Z.of_uint (NilEmpty.uint_of_string s)
  end.

End PyStr.

(** ** Citation codec (src/citations.py) *)

Module Citations.
Import PyStr.

Record CitedChunk := mkCitedChunk {
  chunk_id : string;
  page_number : Z
}.

(** One attempt of [CIT_RE] at the head of [s]:
    [\[(?P<chunk_id>[0-9a-f]{12})\s+p\.(?P<page>\d+)\]].
    The answer holds the two groups and the length of the match.  The
    greedy [\s+] and [\d+] take the longest run: what follows each of them
    in the pattern ([p], [\]]) lies outside its class, so giving characters
    back can never help. *)
Definition CIT_RE_match (s : string) : option (string * string * nat) :=
  match expect "[" s with
  | None => None
  | Some s1 =>
  match take_class is_hex_lower 12 s1 with
  | None => None
  | Some (cid, s2) =>
  let (ws, s3) := span is_space s2 in
  if negb (truthy ws) then None else
  match expect "p" s3 with
  | None => None
  | Some s3' =>
  match expect "." s3' with
  | None => None
  | Some s4 =>
  let (ds, s5) := span is_digit s4 in
  if negb (truthy ds) then None else
  match expect "]" s5 with
  | None => None
  | Some _ =>
      Some (cid, ds, (1 + 12 + String.length ws + 2 + String.length ds + 1)%nat)
  end end end end end.

(** [CIT_RE.finditer(text)] followed by the loop body of
    [extract_citations]: scan left to right; after a match the scan resumes
    behind it ([skip] counts the characters of the match still to pass). *)
Fixpoint finditer_from (skip : nat) (s : string) : list CitedChunk :=
  match s with
  | EmptyString => []
  | String _ s' =>
      match skip with
      | S k => finditer_from k s'
      | O =>
          match CIT_RE_match s with
          | Some (cid, ds, len) =>
              match int_of_digits ds with
              | Some n => mkCitedChunk cid n :: finditer_from (len - 1) s'
              | None => finditer_from (len - 1) s'
              end
          | None => finditer_from 0 s'
          end
      end
  end.

Definition extract_citations (text : string) : list CitedChunk :=
  finditer_from 0 text.

(** [f"[{chunk_id} p.{page_number}]"]. *)
Definition format_citation (chunk_id : string) (page_number : Z) : string :=
  "[" +:+ chunk_id +:+ " p." +:+ str_of_int page_number +:+ "]".

(** [{c.chunk_id for c in citations}]. *)
Definition citation_ids (citations : list CitedChunk) : gset string :=
  list_to_set (map chunk_id citations).

(** A chunk id as the chunker produces it: 12 lowercase hexadecimal digits. *)
Definition is_chunk_id (s : string) : bool :=
  (String.length s =? 12)%nat && all_chars is_hex_lower s.

End Citations.

(** ** Router (src/router.py) *)

Module Router.
Import PyStr.

Record Route := mkRoute { mode : string }.

Definition head (s : string) : option ascii :=
  match s with String c _ => Some c | EmptyString => None end.

(** The last character of [s], or [prev] when [s] is empty: the character
    just before the position reached after reading [s]. *)
Fixpoint last_or (prev : option ascii) (s : string) : option ascii :=
  match s with
  | EmptyString => prev
  | String c s' => last_or (Some c) s'
  end.

Definition word_opt (c : option ascii) : bool :=
  match c with Some c => is_word c | None => false end.

(** [\b]: exactly one of the two neighbours of the position is a word
    character; the ends of the text count as non-word. *)
Definition at_boundary (prev next : option ascii) : bool :=
  xorb (word_opt prev) (word_opt next).

Fixpoint lower_str (s : string) : string :=
  match s with
  | EmptyString => EmptyString
  | String c s' => String (lower c) (lower_str s')
  end.

(** A literal of the pattern (given in lower case) read under [re.I] at the
    head of [s]; the answer is the last character read and the rest. *)
Fixpoint match_literal (lit : string) (prev : option ascii) (s : string)
  : option (option ascii * string) :=
  match lit with
  | EmptyString => Some (prev, s)
  | String p lit' =>
      match s with
      | String c s' =>
          if Ascii.eqb (lower c) p then match_literal lit' (Some c) s' else None
      | EmptyString => None
      end
  end.

(** One alternative of [\b(...)\b], the leading [\b] already checked. *)
Definition match_alt (prev : option ascii) (s : string) (alt : string) : bool :=
  match match_literal alt prev s with
  | Some (lc, rest) => at_boundary lc (head rest)
  | None => false
  end.

(** [pattern.search(s)] for a pattern [\b(alt1|alt2|...)\b] compiled with
    [re.I], as a truth value: some position, some alternative. *)
Fixpoint search_from (alts : list string) (prev : option ascii) (s : string) : bool :=
  (at_boundary prev (head s) && existsb (match_alt prev s) alts)
  || match s with
     | String c s' => search_from alts (Some c) s'
     | EmptyString => false
     end.

Definition re_search (alts : list string) (s : string) : bool :=
  search_from alts None s.

(** The alternatives of the three patterns, in the order the engine tries
    them; [vs\.?] is greedy: first with the dot, then without. *)
Definition _COMPARE_PAT : list string :=
  ["compare"; "vs."; "vs"; "versus"; "difference"; "differences"; "similarities"].
Definition _METHOD_PAT : list string :=
  ["method card"; "summarize method"; "architecture"; "pipeline"; "training objective"].
Definition _VERIFY_PAT : list string :=
  ["verify"; "is it true"; "does the paper claim"; "evidence for";
   "support the claim"; "refute"].

Definition route_query (question : string) : Route :=
  let q := strip question in
  if re_search _VERIFY_PAT q then mkRoute "claim_verify"
  else if re_search _COMPARE_PAT q then mkRoute "compare"
  else if re_search _METHOD_PAT q then mkRoute "method_card"
  else mkRoute "qa".

(** *** The router as the specification words it *)

(** The keyword lists of the specification. *)
Definition claim_verify_keywords : list string :=
  ["verify"; "is it true"; "does the paper claim"; "evidence for";
   "support the claim"; "refute"].
Definition compare_keywords : list string :=
  ["compare"; "vs"; "versus"; "difference"; "differences"; "similarities"].
Definition method_card_keywords : list string :=
  ["method card"; "summarize method"; "architecture"; "pipeline"; "training objective"].

(** The question contains the keyword as a whole word or phrase, in any
    letter case: it splits as [pre ++ w ++ post] where [w] is the keyword up
    to case and both ends of [w] are word boundaries. *)
Definition occurs_from (prev : option ascii) (kw q : string) : Prop :=
  exists pre w post,
    q = pre +:+ w +:+ post /\ lower_str w = kw /\
    at_boundary (last_or prev pre) (head (w +:+ post)) = true /\
    at_boundary (last_or (last_or prev pre) w) (head post) = true.

Definition contains_keyword (kw q : string) : Prop := occurs_from None kw q.

Definition contains_any (kws : list string) (q : string) : Prop :=
  exists kw, In kw kws /\ contains_keyword kw q.

End Router.

(** ** Documents of the vector store (langchain [Document]) *)

(** [metadata] is a dict read only through [md.get(key)], which answers
    [None] for a missing key: each key the core reads is an [option]. *)
Record Metadata := mkMetadata {
  md_chunk_id : option string;
  md_source_file : option string;
  md_page_number : option Z;
  md_section_name : option string
}.

Record Document := mkDocument {
  page_content : string;
  metadata : Metadata
}.

(** ** Retrieval: the abstention rule (src/retrieval.py) *)

Module Retrieval.

Record Retrieved := mkRetrieved {
  doc : Document;
  score : spec_float
}.

(** Python's [a < b] and [a > b] on floats. *)
Definition float_lt (a b : spec_float) : bool := SFltb a b.
Definition float_gt (a b : spec_float) : bool := SFltb b a.
Definition float_le (a b : spec_float) : bool := SFleb a b.

Definition is_nan (a : spec_float) : bool :=
  match a with S754_nan => true | _ => false end.

(** The builtin [max] over a non-empty iterable: keep the first item, and
    replace it by a later one only when that one compares [>] to it. *)
Definition py_max (first : spec_float) (rest : list spec_float) : spec_float :=
  fold_left (fun m x => if float_gt x m then x else m) rest first.

(** [should_abstain(retrieved, min_similarity)]. *)
Definition should_abstain (retrieved : list Retrieved) (min_similarity : spec_float) : bool :=
  match retrieved with
  | [] => true
  | r :: rs => float_lt (py_max (score r) (map score rs)) min_similarity
  end.

(** [m] is a maximum of the scores of [retrieved]: it is one of them and
    none is strictly above it. *)
Definition is_max_score (m : spec_float) (retrieved : list Retrieved) : Prop :=
  In m (map score retrieved) /\
  forall r, In r retrieved -> float_lt m (score r) = false.

Definition no_nan_scores (retrieved : list Retrieved) : Prop :=
  Forall (fun r => is_nan (score r) = false) retrieved.

End Retrieval.

(** ** Configuration (src/config.py) *)

Module Config.
Import PyStr.

(** The parsed YAML file, with the keys the core reads. *)
Record ModelConfig := mkModelConfig {
  provider : string;
  model : string
}.

Record ChunkingConfig := mkChunkingConfig {
  chunk_tokens : Z;
  chunk_overlap_tokens : Z;
  min_chunk_tokens : Z
}.

Record RawConfig := mkRawConfig {
  embeddings : ModelConfig;
  llm : ModelConfig;
  chunking : ChunkingConfig;
  min_similarity : spec_float;
  max_context_chunks : Z
}.

Record AppConfig := mkAppConfig { raw : RawConfig }.

Inductive LoadResult :=
  | Loaded (cfg : AppConfig)
  | RuntimeError (msg : string).

(** [os.getenv(name)] is [None] or a string; [not os.getenv(name)] holds for
    [None] and for the empty string. *)
Definition env_missing (v : option string) : bool :=
  match v with
  | None => true
  | Some s => negb (truthy s)
  end.

(** [load_config], from the parsed file and the value of [OPENAI_API_KEY]. *)
Definition load_config (raw : RawConfig) (OPENAI_API_KEY : option string) : LoadResult :=
  if String.eqb (provider (embeddings raw)) "openai"
     || String.eqb (provider (llm raw)) "openai"
  then
    if env_missing OPENAI_API_KEY
    then RuntimeError "Missing OPENAI_API_KEY in environment (.env)."
    else Loaded (mkAppConfig raw)
  else Loaded (mkAppConfig raw).

End Config.

(** ** Chunker (src/chunking.py, with [PageText] of src/ingest_pdf.py) *)

Module Chunking.
Import PyStr.
#[local] Open Scope Z_scope.

Record PageText := mkPageText {
  file_path : string;
  page_number : Z;
  text : string;
  detected_headings : list string
}.

Record ChunkMetadata := mkChunkMetadata {
  source_file : string;
  source_path : string;
  md_page : Z;
  section_name : string;
  chunk_index : Z
}.

Record Chunk := mkChunk {
  chunk_id : string;
  chunk_text : string;
  chunk_metadata : ChunkMetadata
}.

(** *** Python list slicing, [l[start:stop]] with integer bounds *)

Definition norm_index (len i : Z) : Z :=
  if i <? 0 then Z.max 0 (i + len) else Z.min i len.

Definition slice {A} (l : list A) (start stop : Z) : list A :=
  let len := Z.of_nat (length l) in
  let s := norm_index len start in
  let e := norm_index len stop in
  firstn (Z.to_nat (e - s)) (skipn (Z.to_nat s) l).

Definition len {A} (l : list A) : Z := Z.of_nat (length l).

(** *** UTF-8 of a string whose code points are below 256 *)

Definition utf8_char (c : ascii) : list ascii :=
  if (code c <? 128)%N then [c]
  else [ascii_of_N (192 + code c / 64); ascii_of_N (128 + code c mod 64)].

Fixpoint utf8 (s : string) : list ascii :=
  match s with
  | EmptyString => []
  | String c s' => utf8_char c ++ utf8 s'
  end.

Fixpoint str_take (n : nat) (s : string) : string :=
  match n, s with
  | S n', String c s' => String c (str_take n' s')
  | _, _ => EmptyString
  end.

(** *** Headings *)

(** [file_path.split("/")[-1]]: what follows the last slash. *)
Fixpoint last_segment (acc s : string) : string :=
  match s with
  | EmptyString => acc
  | String c s' =>
      if Ascii.eqb c "/" then last_segment EmptyString s'
      else last_segment (acc +:+ String c EmptyString) s'
  end.

Definition _pick_section_name (prev_section : string) (headings : list string) : string :=
  match headings with
  | [] => prev_section
  | h :: _ => h
  end.

Definition is_newline (c : ascii) : bool := Ascii.eqb c "010".

(** Zero or more groups [\.\d+], greedily. *)
Fixpoint dotted_groups (fuel : nat) (s : string) : string :=
  match fuel with
  | O => s
  | S fuel' =>
      match s with
      | String "." s1 =>
          match span is_digit s1 with
          | (EmptyString, _) => s
          | (_, s2) => dotted_groups fuel' s2
          end
      | _ => s
      end
  end.

(** [_heading_numbered.match(s)], group 3.  The pattern reads: start of
    text, optional whitespace, an outline number (digits, then any number of
    dot-digits groups), whitespace, and a last group [.+] up to the end.
    Every repetition is followed by something
    outside its class, so the greedy choice is the only one; [.+$] asks
    that no newline be left before the end. *)
Definition _heading_numbered_group3 (s : string) : option string :=
  let s0 := snd (span is_space s) in
  match span is_digit s0 with
  | (EmptyString, _) => None
  | (_, s1) =>
      let s2 := dotted_groups (String.length s1) s1 in
      match span is_space s2 with
      | (EmptyString, _) => None
      | (_, s3) =>
          if truthy s3 && negb (existsb is_newline (list_ascii_of_string s3))
          then Some s3 else None
      end
  end.

Definition _clean_heading (h : string) : string :=
  match _heading_numbered_group3 (strip h) with
  | Some g => strip g
  | None => strip h
  end.

Section Chunker.

(** The tokenizer [tiktoken.get_encoding("cl100k_base")] and SHA-1. *)
Context {token : Type}.
Variable encode : string -> list token.
Variable decode : list token -> string.
Variable sha1_hexdigest : list ascii -> string.

Definition _stable_chunk_id (file_path : string) (page_number : Z)
    (section_name : string) (idx : Z) (text : string) : string :=
  str_take 12
    (sha1_hexdigest
       (utf8 file_path ++ utf8 (str_of_int page_number) ++ utf8 section_name
        ++ utf8 (str_of_int idx) ++ utf8 text)).

Variable chunk_tokens chunk_overlap_tokens min_chunk_tokens : Z.

(** What the [while] loop carries: the list [chunks] and [global_idx]. *)
Record LoopState := mkLoopState {
  chunks : list Chunk;
  global_idx : Z
}.

(** The bounds of the window taken at [start]: [end] after the optional
    extension to [min_chunk_tokens]. *)
Definition window_end (tokens : list token) (start : Z) : Z :=
  let end_ := Z.min (start + chunk_tokens) (len tokens) in
  let window := slice tokens start end_ in
  if (len window <? min_chunk_tokens) && negb (end_ =? len tokens)
  then Z.min (start + min_chunk_tokens) (len tokens)
  else end_.

Definition emit (page : PageText) (section : string) (text : string) (st : LoopState)
  : LoopState :=
  let idx := global_idx st in
  let cid := _stable_chunk_id (file_path page) (page_number page) section idx text in
  mkLoopState
    (chunks st ++
     [mkChunk cid text
        (mkChunkMetadata (last_segment EmptyString (file_path page)) (file_path page)
           (page_number page) section idx)])
    (idx + 1).

(** One pass through the body of the [while] loop; [None] for the next
    start is [break]. *)
Definition window_step (page : PageText) (section : string) (tokens : list token)
    (start : Z) (st : LoopState) : LoopState * option Z :=
  let end_ := window_end tokens start in
  let window := slice tokens start end_ in
  let text := strip (decode window) in
  let st' := if truthy text then emit page section text st else st in
  if end_ =? len tokens then (st', None)
  else (st', Some (Z.max 0 (end_ - chunk_overlap_tokens))).

(** The [while start < len(tokens)] loop; [None] when [fuel] passes were
    not enough. *)
Fixpoint while_loop (fuel : nat) (page : PageText) (section : string)
    (tokens : list token) (start : Z) (st : LoopState) : option LoopState :=
  if start <? len tokens then
    match fuel with
    | O => None
    | S fuel' =>
        match window_step page section tokens start st with
        | (st', None) => Some st'
        | (st', Some start') => while_loop fuel' page section tokens start' st'
        end
    end
  else Some st.

(** The body of [for page in pages], on [current_section] and the loop
    state. *)
Definition chunk_page (fuel : nat) (acc : string * LoopState) (page : PageText)
  : option (string * LoopState) :=
  let current_section := _pick_section_name (fst acc) (detected_headings page) in
  let section := _clean_heading current_section in
  let tokens := encode (text page) in
  match tokens with
  | [] => Some (current_section, snd acc)
  | _ =>
      match while_loop fuel page section tokens 0 (snd acc) with
      | Some st => Some (current_section, st)
      | None => None
      end
  end.

Fixpoint chunk_pages_from (fuel : nat) (acc : string * LoopState) (pages : list PageText)
  : option (string * LoopState) :=
  match pages with
  | [] => Some acc
  | page :: rest =>
      match chunk_page fuel acc page with
      | Some acc' => chunk_pages_from fuel acc' rest
      | None => None
      end
  end.

(** [chunk_pages(pages, chunk_tokens, chunk_overlap_tokens, min_chunk_tokens)];
    [fuel] bounds the passes of each [while] loop. *)
Definition chunk_pages (fuel : nat) (pages : list PageText) : option (list Chunk) :=
  match chunk_pages_from fuel ("Unknown", mkLoopState [] 0) pages with
  | Some (_, st) => Some (chunks st)
  | None => None
  end.

(** *** Properties of the result, for the proofs *)

(** The indices handed out so far are [0, 1, ..., n-1] and the counter
    stands at [n]. *)
Definition indices_consecutive (st : LoopState) : Prop :=
  map (fun c => chunk_index (chunk_metadata c)) (chunks st)
  = map Z.of_nat (seq 0 (length (chunks st)))
  /\ global_idx st = len (chunks st).

(** Each chunk's id is the digest of that chunk's own fields. *)
Definition id_of_own_fields (c : Chunk) : Prop :=
  chunk_id c
  = _stable_chunk_id
      (source_path (chunk_metadata c)) (md_page (chunk_metadata c))
      (section_name (chunk_metadata c)) (chunk_index (chunk_metadata c))
      (chunk_text c).

End Chunker.

(** *** A small tokenizer to run the chunker on: one token per character *)

Definition char_encode (s : string) : list ascii := list_ascii_of_string s.
Definition char_decode (l : list ascii) : string := string_of_list_ascii l.

(** A stand-in digest: ten zeros and the length of the input plus ten. *)
Definition length_digest (bytes : list ascii) : string :=
  "0000000000" +:+ str_of_int (Z.of_nat (length bytes) + 10).

End Chunking.

(** ** The chunker and a tokenizer that refuses a text (src/chunking.py) *)

Module ChunkingChecked.
Import PyStr Chunking.

(** What a call comes to: the value it returns, the [ValueError] that
    [enc.encode] raises on a text holding a special token (it is called
    with the library's defaults, and nothing catches the exception), or no
    return within the passes allowed. *)
Inductive Outcome (A : Type) : Type :=
  | Returned (a : A)
  | ValueError
  | OutOfFuel.

Arguments Returned {A} a.
Arguments ValueError {A}.
Arguments OutOfFuel {A}.

Section Chunker.

Context {token : Type}.

(** [enc.encode]; [None] is the exception. *)
Variable try_encode : string -> option (list token).
Variable decode : list token -> string.
Variable sha1_hexdigest : list ascii -> string.
Variable chunk_tokens chunk_overlap_tokens min_chunk_tokens : Z.

(** The body of [for page in pages]. *)
Definition chunk_page (fuel : nat) (acc : string * LoopState) (page : PageText)
  : Outcome (string * LoopState) :=
  let current_section := _pick_section_name (fst acc) (detected_headings page) in
  let section := _clean_heading current_section in
  match try_encode (text page) with
  | None => ValueError
  | Some [] => Returned (current_section, snd acc)
  | Some tokens =>
      match while_loop decode sha1_hexdigest chunk_tokens chunk_overlap_tokens
              min_chunk_tokens fuel page section tokens 0 (snd acc) with
      | Some st => Returned (current_section, st)
      | None => OutOfFuel
      end
  end.

Fixpoint chunk_pages_from (fuel : nat) (acc : string * LoopState) (pages : list PageText)
  : Outcome (string * LoopState) :=
  match pages with
  | [] => Returned acc
  | page :: rest =>
      match chunk_page fuel acc page with
      | Returned acc' => chunk_pages_from fuel acc' rest
      | ValueError => ValueError
      | OutOfFuel => OutOfFuel
      end
  end.

Definition chunk_pages (fuel : nat) (pages : list PageText) : Outcome (list Chunk) :=
  match chunk_pages_from fuel ("Unknown", mkLoopState [] 0) pages with
  | Returned (_, st) => Returned (chunks st)
  | ValueError => ValueError
  | OutOfFuel => OutOfFuel
  end.

End Chunker.

(** A tokenizer to run this chunker on: it refuses a text that holds the
    special token, as [enc.encode] does, and splits any other text into
    its characters. *)
Definition special_token : string := "<|endoftext|>".

Fixpoint occurs_in (needle s : string) : bool :=
  String.prefix needle s
  || match s with
     | EmptyString => false
     | String _ s' => occurs_in needle s'
     end.

Definition refusing_encode (s : string) : option (list ascii) :=
  if occurs_in special_token s then None else Some (char_encode s).

End ChunkingChecked.

(** ** Answer orchestrator (src/pipeline.py) *)

Module Pipeline.
Import PyStr Citations Router Retrieval Config.

Record RetrievedPayload := mkRetrievedPayload {
  r_chunk_id : option string;
  r_source_file : option string;
  r_page_number : option Z;
  r_section_name : option string;
  r_score : spec_float;
  r_text : string
}.

Record CitedPayload := mkCitedPayload {
  c_chunk_id : string;
  c_source_file : option string;
  c_page_number : option Z;
  c_section_name : option string;
  c_text : string
}.

Record AnswerResult := mkAnswerResult {
  ar_mode : string;
  answer : string;
  abstained : bool;
  retrieved : list RetrievedPayload;
  cited_chunks : list CitedPayload
}.

(** The four templates of [build_prompts()], each already applied to
    [.format(context=..., question=...)]. *)
Record PromptPack := mkPromptPack {
  qa : string -> string -> string;
  compare : string -> string -> string;
  method_card : string -> string -> string;
  claim_verify : string -> string -> string
}.

Definition ABSTAIN_SENTENCE : string :=
  "I cannot find evidence in the provided papers to answer that.".

Definition _doc_to_payload (r : Retrieved) : RetrievedPayload :=
  let md := metadata (doc r) in
  mkRetrievedPayload (md_chunk_id md) (md_source_file md) (md_page_number md)
    (md_section_name md) (score r) (page_content (doc r)).

(** An optional value inside an f-string. *)
Definition fmt_str (v : option string) : string :=
  match v with Some s => s | None => "None" end.
Definition fmt_int (v : option Z) : string :=
  match v with Some n => str_of_int n | None => "None" end.

Fixpoint join (sep : string) (parts : list string) : string :=
  match parts with
  | [] => EmptyString
  | [x] => x
  | x :: rest => x +:+ sep +:+ join sep rest
  end.

Definition newline : string := String "010" EmptyString.

Definition _build_context (retrieved : list Retrieved) (max_chunks : Z) : string :=
  join (newline +:+ "---" +:+ newline)
    (map (fun r =>
            let md := metadata (doc r) in
            "CHUNK " +:+ fmt_str (md_chunk_id md)
            +:+ " | file=" +:+ fmt_str (md_source_file md)
            +:+ " | page=" +:+ fmt_int (md_page_number md)
            +:+ " | section=" +:+ fmt_str (md_section_name md) +:+ newline
            +:+ page_content (doc r) +:+ newline)
         (Chunking.slice retrieved 0 max_chunks)).

(** [{r.doc.metadata.get("chunk_id"): r.doc for r in retrieved}]: a later
    item replaces an earlier one under the same key. *)
Definition retrieved_map (retrieved : list Retrieved) : gmap (option string) Document :=
  fold_left (fun m r => <[md_chunk_id (metadata (doc r)) := doc r]> m) retrieved ∅.

(** The loop over [cited_ids]: ids unknown to [retrieved_map] are skipped. *)
Definition cited_payload (retrieved : list Retrieved) (cited_ids : gset string)
  : list CitedPayload :=
  omap (fun cid =>
          match retrieved_map retrieved !! Some cid with
          | Some d =>
              Some (mkCitedPayload cid (md_source_file (metadata d))
                      (md_page_number (metadata d)) (md_section_name (metadata d))
                      (page_content d))
          | None => None
          end)
       (elements cited_ids).

Section Orchestrator.

(** The loaded configuration, the prompt templates, the retriever with its
    configured parameters (a function of the query) and the language model
    (prompt to response text). *)
Variable cfg : RawConfig.
Variable prompts : PromptPack.
Variable retrieve : string -> list Retrieved.
Variable llm : string -> string.

Definition select_template (mode : string) : string -> string -> string :=
  if String.eqb mode "compare" then compare prompts
  else if String.eqb mode "method_card" then method_card prompts
  else if String.eqb mode "claim_verify" then claim_verify prompts
  else qa prompts.

Definition answer_question (question : string) : AnswerResult :=
  let route := route_query question in
  let retrieved := retrieve question in
  if should_abstain retrieved (min_similarity cfg) then
    mkAnswerResult (mode route) ABSTAIN_SENTENCE true
      (map _doc_to_payload retrieved) []
  else
    let context := _build_context retrieved (max_context_chunks cfg) in
    let template := select_template (mode route) in
    let response := llm (template context question) in
    let cits := extract_citations response in
    let cited_ids := citation_ids cits in
    let payload := cited_payload retrieved cited_ids in
    if negb (String.eqb (strip response) ABSTAIN_SENTENCE)
       && (length payload =? 0)%nat
    then
      mkAnswerResult (mode route) ABSTAIN_SENTENCE true
        (map _doc_to_payload retrieved) []
    else
      mkAnswerResult (mode route) response false
        (map _doc_to_payload retrieved) payload.

End Orchestrator.

End Pipeline.

(** ** Retriever (src/retrieval.py): similarity and [retrieve] *)

Module Retriever.
Import Retrieval.

Definition float_zero : spec_float := S754_zero false.
Definition float_one : spec_float := S754_finite false 4503599627370496 (-52).

(** The builtin [max(a, b)] of two floats: [b] when [b > a], else [a]. *)
Definition py_max2 (a b : spec_float) : spec_float :=
  if float_gt b a then b else a.

(** [1.0 / (1.0 + max(0.0, float(distance)))] in binary64 arithmetic. *)
Definition _distance_to_similarity (distance : spec_float) : spec_float :=
  SFdiv 53 1024 float_one (SFadd 53 1024 float_one (py_max2 float_zero distance)).

(** The two queries of the vector store that [retrieve] issues. *)
Record VectorStore := mkVectorStore {
  similarity_search_with_score : string -> Z -> list (Document * spec_float);
  max_marginal_relevance_search : string -> Z -> Z -> spec_float -> list Document
}.

Definition doc_chunk_id (d : Document) : option string := md_chunk_id (metadata d).

(** [{d.metadata.get("chunk_id"): _distance_to_similarity(s) for d, s in
    candidates}]: a later candidate replaces an earlier one. *)
Definition cand_map (candidates : list (Document * spec_float))
  : gmap (option string) spec_float :=
  fold_left (fun m ds => <[doc_chunk_id (fst ds) := _distance_to_similarity (snd ds)]> m)
    candidates ∅.

Definition retrieve (vs : VectorStore) (query : string) (k : Z) (use_mmr : bool)
    (mmr_fetch_k : Z) (mmr_lambda_mult : spec_float) : list Retrieved :=
  if use_mmr then
    let candidates := similarity_search_with_score vs query mmr_fetch_k in
    let mmr_docs :=
      max_marginal_relevance_search vs query k mmr_fetch_k mmr_lambda_mult in
    map (fun d =>
           mkRetrieved d
             (match cand_map candidates !! doc_chunk_id d with
              | Some sim => sim
              | None => float_zero
              end))
        mmr_docs
  else
    map (fun ds => mkRetrieved (fst ds) (_distance_to_similarity (snd ds)))
        (similarity_search_with_score vs query k).

End Retriever.

(** ** Words for the properties of the chunker *)

Module ChunkingWords.
Import PyStr Chunking.

(** [current_section] once the pages have been gone through. *)
Definition section_after (pages : list PageText) : string :=
  fold_left (fun sec page => _pick_section_name sec (detected_headings page))
    pages "Unknown".

(** The chunk was cut from [page] under the section label [section]. *)
Definition cut_from (page : PageText) (section : string) (c : Chunk) : Prop :=
  source_path (chunk_metadata c) = file_path page
  /\ source_file (chunk_metadata c) = last_segment EmptyString (file_path page)
  /\ md_page (chunk_metadata c) = page_number page
  /\ section_name (chunk_metadata c) = section.

(** The text is not empty and has no whitespace at either end. *)
Definition stripped_text (c : Chunk) : Prop :=
  truthy (chunk_text c) = true /\ strip (chunk_text c) = chunk_text c.

(** The groups [.d1.d2...] of an outline number, written out. *)
Fixpoint dotted (groups : list string) : string :=
  match groups with
  | [] => EmptyString
  | g :: rest => "." +:+ g +:+ dotted rest
  end.

(** A non-empty run of decimal digits. *)
Definition is_number (s : string) : bool := truthy s && all_chars is_digit s.

(** The chunk holds the stripped text of one token window of [page]: it
    carries the page's path and number, and its text is what the loop
    decodes from the window that begins at some valid [start]. *)
Definition window_of {token : Type} (encode : string -> list token)
    (decode : list token -> string) (chunk_tokens min_chunk_tokens : Z)
    (page : PageText) (c : Chunk) : Prop :=
  source_path (chunk_metadata c) = file_path page
  /\ md_page (chunk_metadata c) = page_number page
  /\ exists start,
       0 <= start < len (encode (text page))
       /\ chunk_text c
          = strip (decode (slice (encode (text page)) start
                             (window_end chunk_tokens min_chunk_tokens
                                (encode (text page)) start))).

End ChunkingWords.

(** ** PDF ingestion (src/ingest_pdf.py) *)

Module Ingest.
Import PyStr Retrieval Chunking.
#[local] Open Scope Z_scope.

(** The heading section of the configuration; [require_no_period] may be
    absent. *)
Record HeadingConfig := mkHeadingConfig {
  min_len : Z;
  max_len : Z;
  max_words : Z;
  require_no_period : option bool
}.

Definition is_cr (c : ascii) : bool := Ascii.eqb c "013".

(** [str.isupper] of one character. *)
Definition is_upper (c : ascii) : bool :=
  in_range 65 90 c || (in_range 192 222 c && negb (is_code 215 c)).

(** [s.split()]: the maximal runs of characters that are not whitespace. *)
Fixpoint split_words (acc : string) (s : string) : list string :=
  match s with
  | EmptyString => if truthy acc then [acc] else []
  | String c s' =>
      if is_space c
      then if truthy acc then acc :: split_words EmptyString s' else split_words EmptyString s'
      else split_words (acc +:+ String c EmptyString) s'
  end.

Definition split (s : string) : list string := split_words EmptyString s.

(** [text.split("\n")]. *)
Fixpoint split_lines_from (acc : string) (s : string) : list string :=
  match s with
  | EmptyString => [acc]
  | String c s' =>
      if is_newline c then acc :: split_lines_from EmptyString s'
      else split_lines_from (acc +:+ String c EmptyString) s'
  end.

Definition split_lines (s : string) : list string := split_lines_from EmptyString s.

(** [s.endswith(".")]. *)
Fixpoint ends_with_period (s : string) : bool :=
  match s with
  | EmptyString => false
  | String c EmptyString => Ascii.eqb c "."
  | String _ s' => ends_with_period s'
  end.

(** [_heading_allcaps]: six or more characters, each a capital letter, a
    digit, a space, a hyphen, a comma or a colon. *)
Definition is_allcaps_char (c : ascii) : bool :=
  in_range 65 90 c || in_range 48 57 c || is_code 32 c || is_code 45 c
  || is_code 44 c || is_code 58 c.

Definition _heading_allcaps_match (s : string) : bool :=
  (6 <=? String.length s)%nat && all_chars is_allcaps_char s.

(** [ch in "[](){};"]. *)
Definition is_bracket_or_semicolon (c : ascii) : bool :=
  existsb (Ascii.eqb c) (list_ascii_of_string "[](){};").

Definition count_chars (p : ascii -> bool) (s : string) : Z :=
  len (List.filter p (list_ascii_of_string s)).

Definition first_isupper (w : string) : bool :=
  match w with
  | String c _ => is_upper c
  | EmptyString => false
  end.

(** A count as a float, and the literal [0.6]. *)
Definition float_of_count (n : Z) : spec_float := binary_normalize 53 1024 n 0 false.
Definition float_0_6 : spec_float := S754_finite false 5404319552844595 (-53).

Definition _is_heading_candidate (line : string) (cfg : HeadingConfig) : bool :=
  let s := strip line in
  let n := Z.of_nat (String.length s) in
  if (n <? min_len cfg) || (max_len cfg <? n) then false
  else if match require_no_period cfg with Some b => b | None => true end
          && ends_with_period s then false
  else
    let words := split s in
    if max_words cfg <? len words then false
    else
      match _heading_numbered_group3 s with
      | Some _ => true
      | None =>
          if _heading_allcaps_match s then true
          else
            let upper_starts := len (List.filter first_isupper words) in
            let ratio := SFdiv 53 1024 (float_of_count upper_starts)
                           (float_of_count (Z.max 1 (len words))) in
            let punct := count_chars is_bracket_or_semicolon s in
            float_le float_0_6 ratio && (punct =? 0)
      end.

(** [text.replace("\r\n", "\n")] and [text.replace("\r", "\n")]. *)
Fixpoint replace_crlf (s : string) : string :=
  match s with
  | EmptyString => EmptyString
  | String c s' =>
      if is_cr c then
        match s' with
        | String d s'' =>
            if is_newline d then String d (replace_crlf s'')
            else String c (replace_crlf s')
        | EmptyString => String c EmptyString
        end
      else String c (replace_crlf s')
  end.

Fixpoint replace_cr (s : string) : string :=
  match s with
  | EmptyString => EmptyString
  | String c s' => String (if is_cr c then "010"%char else c) (replace_cr s')
  end.

Definition normalize_text (raw : string) : string :=
  strip (replace_cr (replace_crlf raw)).

Definition detect_headings (text : string) (cfg : HeadingConfig) : list string :=
  map strip (List.filter (fun line => _is_heading_candidate line cfg) (split_lines text)).

(** The loop of [extract_pdf_pages] from page index [i] on; the document
    is the list of the texts that PyMuPDF returns for its pages. *)
Fixpoint extract_pages_from (i : Z) (pdf_path : string) (doc : list string)
    (heading_cfg : HeadingConfig) : list PageText :=
  match doc with
  | [] => []
  | raw :: rest =>
      let text := normalize_text raw in
      mkPageText pdf_path (i + 1) text (detect_headings text heading_cfg)
      :: extract_pages_from (i + 1) pdf_path rest heading_cfg
  end.

Definition extract_pdf_pages (pdf_path : string) (doc : list string)
    (heading_cfg : HeadingConfig) : list PageText :=
  extract_pages_from 0 pdf_path doc heading_cfg.

End Ingest.

(** ** Display of an answer (app.py) *)

Module Display.
Import PyStr Citations Pipeline.

(** [chunk_to_num], filled by the loop over [enumerate(cited_chunks, 1)]:
    a later chunk with the same id takes the place of an earlier one. *)
Fixpoint chunk_to_num_from (i : Z) (cited_chunks : list CitedPayload)
    (m : gmap string Z) : gmap string Z :=
  match cited_chunks with
  | [] => m
  | ch :: rest => chunk_to_num_from (i + 1) rest (<[c_chunk_id ch := i]> m)
  end.

Definition chunk_to_num (cited_chunks : list CitedPayload) : gmap string Z :=
  chunk_to_num_from 1 cited_chunks ∅.

(** [num = chunk_to_num.get(chunk_id, "?")], as the f-string prints it. *)
Definition citation_label (m : gmap string Z) (chunk_id : string) : string :=
  match m !! chunk_id with
  | Some i => str_of_int i
  | None => "?"
  end.

(** [replace_citation(match)], from group 1 of the match. *)
Definition replace_citation (m : gmap string Z) (chunk_id : string) : string :=
  "**[" +:+ citation_label m chunk_id +:+ "]**".

(** [re.sub(pattern, replace_citation, answer)]: the pattern is that of
    [CIT_RE] with unnamed groups; the text between the matches is copied,
    each match is replaced, and the scan resumes behind a match. *)
Fixpoint sub_from (m : gmap string Z) (skip : nat) (s : string) : string :=
  match s with
  | EmptyString => EmptyString
  | String c s' =>
      match skip with
      | S k => sub_from m k s'
      | O =>
          match CIT_RE_match s with
          | Some (cid, _, len) => replace_citation m cid +:+ sub_from m (len - 1) s'
          | None => String c (sub_from m 0 s')
          end
      end
  end.

Definition format_answer_for_display (answer : string)
    (cited_chunks : list CitedPayload) : string :=
  sub_from (chunk_to_num cited_chunks) 0 answer.

End Display.

(** ** Sample data for the examples *)

Module Samples.
Import Config Chunking Retrieval Pipeline.
#[local] Open Scope Z_scope.

(** A positive finite float [m * 2^e]. *)
Definition sf_of (m : positive) (e : Z) : spec_float := S754_finite false m e.

Definition sample_doc (cid : string) : Document :=
  mkDocument "text" (mkMetadata (Some cid) (Some "a.pdf") (Some 1) (Some "Intro")).

Definition openai_models : ModelConfig * ModelConfig :=
  (mkModelConfig "openai" "text-embedding-3-small", mkModelConfig "openai" "gpt-4o-mini").

(** A configuration whose overlap is not below the window. *)
Definition malformed_raw : RawConfig :=
  mkRawConfig (fst openai_models) (snd openai_models)
    (mkChunkingConfig 100 100 50) (sf_of 4503599627370496 (-53)) 6.

(** An empty page, a whitespace page and a page with text. *)
Definition sample_pages : list PageText :=
  [mkPageText "/path/to/MyPaper.pdf" 1 "" ["1 Introduction"];
   mkPageText "/path/to/MyPaper.pdf" 2 "   " [];
   mkPageText "/path/to/MyPaper.pdf" 3 "hello world, this is" ["2.1 Methods"]].

(** The chunker on the one-character tokenizer: a stand-in to run the
    examples on.  The theorems are stated for every tokenizer. *)
Definition char_chunk_pages (chunk_tokens chunk_overlap_tokens min_chunk_tokens : Z)
    (fuel : nat) (pages : list PageText) : option (list Chunk) :=
  chunk_pages char_encode char_decode length_digest
    chunk_tokens chunk_overlap_tokens min_chunk_tokens fuel pages.

(** A run of the orchestrator: threshold 0.25, one retrieved chunk of
    similarity 0.5, and three language models. *)
Definition sample_cfg : RawConfig :=
  mkRawConfig (fst openai_models) (snd openai_models)
    (mkChunkingConfig 350 60 120) (sf_of 4503599627370496 (-54)) 6.

Definition sample_prompts : PromptPack :=
  mkPromptPack
    (fun context question => "QA: " +:+ context +:+ question)
    (fun context question => "COMPARE: " +:+ context +:+ question)
    (fun context question => "METHOD CARD: " +:+ context +:+ question)
    (fun context question => "VERIFY: " +:+ context +:+ question).

Definition sample_retrieve (query : string) : list Retrieved :=
  [mkRetrieved (sample_doc "abc123def456") (sf_of 4503599627370496 (-53))].

Definition llm_abstains (prompt : string) : string := ABSTAIN_SENTENCE.

Definition llm_abstains_padded (prompt : string) : string :=
  " " +:+ ABSTAIN_SENTENCE +:+ newline.

Definition llm_cites (prompt : string) : string :=
  "Adam adapts learning rates [abc123def456 p.1], see also [ffffffffffff p.2].".

(** A digest of the shape of a SHA-1 hex digest: forty lowercase
    hexadecimal digits, here the decimal length of the input after zeros. *)
Definition padded_digest (bytes : list ascii) : string :=
  str_take 40
    (PyStr.str_of_int (Z.of_nat (length bytes))
     +:+ "0000000000000000000000000000000000000000").

(** The heading limits that the unit tests use. *)
Definition default_heading_cfg : Ingest.HeadingConfig :=
  Ingest.mkHeadingConfig 3 80 12 (Some true).

End Samples.

(** * Proofs *)

Module CitationsTests.
Import PyStr Citations.

Example extract_single :
  extract_citations "The Adam optimizer uses adaptive learning rates [abc123def456 p.5]."
  = [mkCitedChunk "abc123def456" 5].
Proof. reflexivity. Qed.

Example extract_malformed :
  extract_citations
    "Valid citation [abc123def456 p.5]. Invalid [abc p.5]. Also invalid [abc123def456]. Another invalid [abc123def456 page 5]. "
  = [mkCitedChunk "abc123def456" 5].
Proof. reflexivity. Qed.

Example extract_duplicates :
  extract_citations "First [abc123def456 p.5]. Repeated [abc123def456  p.05]."
  = [mkCitedChunk "abc123def456" 5; mkCitedChunk "abc123def456" 5].
Proof. reflexivity. Qed.

Example format_basic : format_citation "abc123def456" 100 = "[abc123def456 p.100]".
Proof. reflexivity. Qed.

End CitationsTests.

Module RouterTests.
Import Router.

Example route_qa : map (fun q => mode (route_query q))
  ["What is machine learning?"; "Explain the algorithm"; "How does it work?"]
  = ["qa"; "qa"; "qa"].
Proof. reflexivity. Qed.

Example route_compare : map (fun q => mode (route_query q))
  ["Compare Adam vs SGD"; "What are the differences between method A and B?";
   "Similarities between the approaches"; "Paper A versus Paper B"; "A vs. B"]
  = ["compare"; "compare"; "compare"; "compare"; "compare"].
Proof. reflexivity. Qed.

Example route_method_card : map (fun q => mode (route_query q))
  ["Summarize the method card"; "Describe the architecture";
   "What is the training objective?"; "Explain the pipeline"; "SUMMARIZE METHOD"]
  = ["method_card"; "method_card"; "method_card"; "method_card"; "method_card"].
Proof. reflexivity. Qed.

Example route_claim_verify : map (fun q => mode (route_query q))
  ["Is it true that Adam converges faster?"; "Verify: the model uses attention";
   "Does the paper claim X?"; "Evidence for the hypothesis";
   "Can you refute this claim?"; "Is It True that..."]
  = ["claim_verify"; "claim_verify"; "claim_verify"; "claim_verify";
     "claim_verify"; "claim_verify"].
Proof. reflexivity. Qed.

(** Keywords are whole words: a longer word that merely embeds one does not
    trigger its route. *)
Example route_embedded_keyword : map (fun q => mode (route_query q))
  ["Are they verifying the pipelines?"; "What are EVs?"]
  = ["qa"; "qa"].
Proof. reflexivity. Qed.

End RouterTests.

Module RetrievalFacts.
Import Retrieval Samples.

Ltac cmp_cases :=
  repeat match goal with
  | |- context [Z.compare ?a ?b] => destruct (Z.compare_spec a b)
  | H : context [Z.compare ?a ?b] |- _ => destruct (Z.compare_spec a b)
  | |- context [Pos.compare_cont Eq ?a ?b] =>
      change (Pos.compare_cont Eq a b) with (Pos.compare a b);
      destruct (Pos.compare_spec a b)
  | H : context [Pos.compare_cont Eq ?a ?b] |- _ =>
      change (Pos.compare_cont Eq a b) with (Pos.compare a b) in H;
      destruct (Pos.compare_spec a b)
  end.

Ltac float_cases :=
  unfold float_lt, float_le, float_gt, SFltb, SFleb, SFcompare, is_nan in *;
  repeat match goal with
  | x : spec_float |- _ => destruct x as [[]|[]| |[] ? ?]
  end;
  simpl in *; try congruence; try reflexivity;
  cmp_cases; simpl in *; subst; try congruence; try reflexivity; try lia.

Lemma float_lt_trans a b c :
  float_lt a b = true -> float_lt b c = true -> float_lt a c = true.
Proof. intros; float_cases. Qed.

Lemma float_lt_le_trans a b c :
  float_lt a b = true -> float_le b c = true -> float_lt a c = true.
Proof. intros; float_cases. Qed.

Lemma float_le_lt_trans a b c :
  float_le a b = true -> float_lt b c = true -> float_lt a c = true.
Proof. intros; float_cases. Qed.

Lemma float_not_lt_le a b :
  is_nan a = false -> is_nan b = false ->
  float_lt a b = false -> float_le b a = true.
Proof. intros; float_cases. Qed.

Lemma float_le_refl a : is_nan a = false -> float_le a a = true.
Proof. intros; float_cases. Qed.

Lemma float_le_not_lt a b : float_le a b = true -> float_lt b a = false.
Proof. intros; float_cases. Qed.

Lemma float_lt_not_nan_l a b : float_lt a b = true -> is_nan a = false.
Proof. intros; float_cases. Qed.

Lemma float_le_trans a b c :
  float_le a b = true -> float_le b c = true -> float_le a c = true.
Proof. intros; float_cases. Qed.

Lemma float_lt_le a b : float_lt a b = true -> float_le a b = true.
Proof. intros; float_cases. Qed.

Lemma py_max_in first rest : In (py_max first rest) (first :: rest).
Proof.
  unfold py_max. revert first.
  induction rest as [|x rest IH]; intros first; simpl; [now left|].
  destruct (IH (if float_gt x first then x else first)) as [E|E].
  - destruct (float_gt x first); rewrite <- E; auto.
  - auto.
Qed.

Lemma py_max_ge_first first rest :
  is_nan first = false -> Forall (fun x => is_nan x = false) rest ->
  float_le first (py_max first rest) = true.
Proof.
  unfold py_max. revert first.
  induction rest as [|x rest IH]; intros first Hf Hr; simpl.
  - now apply float_le_refl.
  - inversion Hr as [|? ? Hx Hr']; subst.
    destruct (float_gt x first) eqn:E.
    + apply float_le_trans with x; [now apply float_lt_le | now apply IH].
    + now apply IH.
Qed.

Lemma py_max_upper first rest x :
  is_nan first = false -> Forall (fun x => is_nan x = false) rest ->
  In x (first :: rest) -> float_le x (py_max first rest) = true.
Proof.
  revert first.
  induction rest as [|y rest IH]; intros first Hf Hr Hin.
  - destruct Hin as [<-|[]]. now apply float_le_refl.
  - inversion Hr as [|? ? Hy Hr']; subst.
    change (py_max first (y :: rest))
      with (py_max (if float_gt y first then y else first) rest).
    destruct (float_gt y first) eqn:E.
    + destruct Hin as [<-|Hin].
      * apply float_le_trans with y; [now apply float_lt_le|].
        now apply py_max_ge_first.
      * now apply IH.
    + destruct Hin as [<-|[<-|Hin]].
      * now apply py_max_ge_first.
      * apply float_le_trans with first;
          [now apply float_not_lt_le | now apply py_max_ge_first].
      * apply IH; auto. now right.
Qed.

Lemma no_nan_scores_map retrieved :
  no_nan_scores retrieved -> Forall (fun x => is_nan x = false) (map score retrieved).
Proof. unfold no_nan_scores. intros H. induction H; simpl; constructor; auto. Qed.

(** C3. [should_abstain] answers true exactly when nothing was retrieved or
    the maximum similarity is strictly below the threshold; the empty list
    abstains whatever the threshold; and raising the threshold never turns
    an abstention into an answer.  Scores are similarities, hence not NaN. *)
Theorem should_abstain_spec (retrieved : list Retrieved) (min_similarity : spec_float) :
  no_nan_scores retrieved ->
  (should_abstain retrieved min_similarity = true <->
     retrieved = [] \/
     exists m, is_max_score m retrieved /\ float_lt m min_similarity = true)
  /\ (forall t, should_abstain [] t = true)
  /\ (forall higher, float_le min_similarity higher = true ->
        should_abstain retrieved min_similarity = true ->
        should_abstain retrieved higher = true).
Proof.
  intros Hnan. split; [|split].
  - destruct retrieved as [|r rs]; simpl.
    { split; auto. }
    pose proof (no_nan_scores_map _ Hnan) as Hm. simpl in Hm.
    inversion Hm as [|? ? Hr Hrs]; subst.
    split.
    + intros Hlt. right. exists (py_max (score r) (map score rs)).
      split; [|exact Hlt]. split.
      * apply (py_max_in (score r) (map score rs)).
      * intros r' Hin. apply float_le_not_lt.
        apply py_max_upper; auto.
        change (In (score r') (map score (r :: rs))). now apply in_map.
    + intros [Habs|[m [[Hin Hub] Hlt]]]; [discriminate|].
      apply float_le_lt_trans with m; [|exact Hlt].
      destruct (py_max_in (score r) (map score rs)) as [E|E].
      * rewrite <- E. apply float_not_lt_le; auto.
        -- now apply float_lt_not_nan_l with min_similarity.
        -- apply Hub. now left.
      * apply in_map_iff in E. destruct E as [r' [E Hr']].
        rewrite <- E. apply float_not_lt_le.
        -- now apply float_lt_not_nan_l with min_similarity.
        -- apply (proj1 (List.Forall_forall _ _) Hrs). now apply in_map.
        -- apply Hub. now right.
  - reflexivity.
  - intros higher Hle. destruct retrieved as [|r rs]; simpl; auto.
    intros Hlt. now apply float_lt_le_trans with min_similarity.
Qed.

(** Scores 0.5 and 0.25 against the thresholds 0.75 and 1.0. *)
Lemma should_abstain_spec_witness :
  let rs := [mkRetrieved (sample_doc "aaaaaaaaaaaa") (sf_of 4503599627370496 (-53));
             mkRetrieved (sample_doc "bbbbbbbbbbbb") (sf_of 4503599627370496 (-54))] in
  should_abstain rs (sf_of 6755399441055744 (-53)) = true /\
  should_abstain rs (sf_of 4503599627370496 (-52)) = true.
Proof.
  intros rs.
  assert (Hn : no_nan_scores rs) by (repeat constructor).
  destruct (should_abstain_spec rs (sf_of 6755399441055744 (-53)) Hn) as [_ [_ Hmono]].
  split; [reflexivity|].
  apply Hmono; reflexivity.
Defined.

End RetrievalFacts.

Module PyStrFacts.
Import PyStr.

#[local] Arguments String.append !s1 s2 : simpl nomatch.

Lemma append_assoc (a b c : string) : (a +:+ b) +:+ c = a +:+ (b +:+ c).
Proof. induction a as [|x a IH]; simpl; [reflexivity | now rewrite IH]. Qed.

Lemma append_nil_r (a : string) : a +:+ "" = a.
Proof. induction a as [|x a IH]; simpl; [reflexivity | now rewrite IH]. Qed.

Lemma length_append (a b : string) :
  String.length (a +:+ b) = (String.length a + String.length b)%nat.
Proof. induction a as [|x a IH]; simpl; [reflexivity | now rewrite IH]. Qed.

(** A literal, a counted class and a greedy run each behave the same when
    the text is extended by a character they all refuse. *)
Lemma expect_app_stop c d x z :
  c <> d ->
  expect c (x +:+ String d z) = option_map (fun r => r +:+ String d z) (expect c x).
Proof.
  intros Hcd. destruct x as [|c' x]; simpl.
  - destruct (Ascii.eqb_spec d c); [congruence | reflexivity].
  - destruct (Ascii.eqb c' c); reflexivity.
Qed.

Lemma take_class_app_stop p n d x z :
  p d = false ->
  take_class p n (x +:+ String d z)
  = option_map (fun '(r, x') => (r, x' +:+ String d z)) (take_class p n x).
Proof.
  intros Hd. revert x.
  induction n as [|n IH]; intros x; simpl; [reflexivity|].
  destruct x as [|c x]; simpl.
  - now rewrite Hd.
  - destruct (p c); [|reflexivity].
    rewrite IH. destruct (take_class p n x) as [[a b]|]; reflexivity.
Qed.

Lemma span_app_stop p d x z :
  p d = false ->
  span p (x +:+ String d z) = (fst (span p x), snd (span p x) +:+ String d z).
Proof.
  intros Hd. induction x as [|c x IH]; simpl.
  - now rewrite Hd.
  - destruct (p c); [|reflexivity].
    rewrite IH. destruct (span p x); reflexivity.
Qed.

Lemma span_all_stop p a d z :
  all_chars p a = true -> p d = false ->
  span p (a +:+ String d z) = (a, String d z).
Proof.
  intros Ha Hd. induction a as [|c a IH]; simpl in *.
  - now rewrite Hd.
  - apply andb_prop in Ha as [Hc Ha]. rewrite Hc, (IH Ha). reflexivity.
Qed.

Lemma take_class_all p a z :
  all_chars p a = true ->
  take_class p (String.length a) (a +:+ z) = Some (a, z).
Proof.
  intros Ha. induction a as [|c a IH]; simpl in *; [reflexivity|].
  apply andb_prop in Ha as [Hc Ha]. rewrite Hc, (IH Ha). reflexivity.
Qed.

Lemma span_all_chars p s : all_chars p (fst (span p s)) = true.
Proof.
  induction s as [|c s IH]; simpl; [reflexivity|].
  destruct (p c) eqn:E; [|reflexivity].
  destruct (span p s); simpl in *. now rewrite E.
Qed.

(** Decimal digits, printed and read back. *)
Lemma all_digits_string_of_uint d :
  all_chars is_digit (NilEmpty.string_of_uint d) = true.
Proof. induction d; simpl; auto. Qed.

Lemma str_of_int_digits n :
  0 <= n -> all_chars is_digit (str_of_int n) = true /\ truthy (str_of_int n) = true.
Proof.
  intros Hn. unfold str_of_int. destruct n as [|p|p]; [now split| |lia].
  simpl. unfold NilZero.string_of_uint.
  pose proof (Unsigned.to_uint_nonnil p) as Hnil.
  destruct (Pos.to_uint p) eqn:E; try congruence;
    (split; [apply (all_digits_string_of_uint (_ u)) | reflexivity]).
Qed.

Lemma int_of_digits_str_of_int n : 0 <= n -> int_of_digits (str_of_int n) = Some n.
Proof.
  intros Hn. destruct (str_of_int_digits n Hn) as [_ Ht].
  unfold int_of_digits. destruct (str_of_int n) eqn:E; [discriminate|].
  rewrite <- E. unfold str_of_int.
  destruct n as [|p|p]; [reflexivity| |lia].
  simpl. unfold NilZero.string_of_uint.
  pose proof (Unsigned.to_uint_nonnil p) as Hnil.
  assert (Hs : (match Pos.to_uint p with
                | Decimal.Nil => "0"
                | _ => NilEmpty.string_of_uint (Pos.to_uint p)
                end) = NilEmpty.string_of_uint (Pos.to_uint p)).
  { destruct (Pos.to_uint p); congruence. }
  rewrite Hs, NilEmpty.usu. simpl. unfold Z.of_uint.
  now rewrite DecimalPos.Unsigned.of_to.
Qed.

Lemma int_of_digits_total ds :
  all_chars is_digit ds = true -> truthy ds = true -> exists n, int_of_digits ds = Some n.
Proof.
  intros Hd Ht.
  assert (H : exists u, NilEmpty.uint_of_string ds = Some u).
  { clear Ht. induction ds as [|c ds IH]; simpl in *; [eauto|].
    apply andb_prop in Hd as [Hc Hd]. destruct (IH Hd) as [u ->].
    destruct c as [[] [] [] [] [] [] [] []]; try discriminate Hc; simpl; eauto. }
  destruct H as [u Hu]. unfold int_of_digits.
  destruct ds; [discriminate|]. rewrite Hu. simpl. eauto.
Qed.

(** Digits and whitespace are disjoint classes. *)
Lemma digit_not_space c : is_digit c = true -> is_space c = false.
Proof. destruct c as [[] [] [] [] [] [] [] []]; try discriminate; reflexivity. Qed.

Lemma space_not_digit c : is_space c = true -> is_digit c = false.
Proof. destruct c as [[] [] [] [] [] [] [] []]; try discriminate; reflexivity. Qed.

Lemma all_chars_app p a b :
  all_chars p (a +:+ b) = all_chars p a && all_chars p b.
Proof.
  induction a as [|c a IH]; [reflexivity|].
  change (String c a +:+ b) with (String c (a +:+ b)).
  cbn [all_chars]. now rewrite IH, andb_assoc.
Qed.

End PyStrFacts.

Module CitationsFacts.
Import PyStr Citations PyStrFacts.

#[local] Arguments String.append !s1 s2 : simpl nomatch.

(** No attempt of the pattern reads past an opening bracket that is not its
    first character: an attempt on [a] followed by a bracket is the attempt
    on [a] alone. *)
Lemma CIT_RE_match_before_bracket a z :
  a <> "" -> CIT_RE_match (a +:+ String "[" z) = CIT_RE_match a.
Proof.
  intros Ha. destruct a as [|c a]; [congruence|]. clear Ha.
  unfold CIT_RE_match. cbn [String.append expect].
  destruct (Ascii.eqb c "["); [|reflexivity].
  rewrite take_class_app_stop by reflexivity.
  destruct (take_class is_hex_lower 12 a) as [[cid s2]|]; cbn [option_map];
    [|reflexivity].
  rewrite span_app_stop by reflexivity.
  destruct (span is_space s2) as [ws s3]; cbn [fst snd].
  destruct (truthy ws); cbn [negb]; [|reflexivity].
  rewrite expect_app_stop by discriminate.
  destruct (expect "p" s3) as [s3'|]; cbn [option_map]; [|reflexivity].
  rewrite expect_app_stop by discriminate.
  destruct (expect "." s3') as [s4|]; cbn [option_map]; [|reflexivity].
  rewrite span_app_stop by reflexivity.
  destruct (span is_digit s4) as [ds s5]; cbn [fst snd].
  destruct (truthy ds); cbn [negb]; [|reflexivity].
  rewrite expect_app_stop by discriminate.
  destruct (expect "]" s5); reflexivity.
Qed.

Lemma CIT_RE_match_digits s cid ds len :
  CIT_RE_match s = Some (cid, ds, len) ->
  all_chars is_digit ds = true /\ truthy ds = true.
Proof.
  unfold CIT_RE_match.
  destruct (expect "[" s) as [s1|]; [|discriminate].
  destruct (take_class is_hex_lower 12 s1) as [[cid' s2]|]; [|discriminate].
  destruct (span is_space s2) as [ws s3].
  destruct (truthy ws); simpl; [|discriminate].
  destruct (expect "p" s3) as [s3'|]; [|discriminate].
  destruct (expect "." s3') as [s4|]; [|discriminate].
  pose proof (span_all_chars is_digit s4) as Hd.
  destruct (span is_digit s4) as [ds' s5]. simpl in Hd.
  destruct (truthy ds') eqn:Ht; simpl; [|discriminate].
  destruct (expect "]" s5); [|discriminate].
  intros [= _ <- _]. auto.
Qed.

(** A scan that finds nothing met no match at its first position. *)
Lemma finditer_nil_head c s :
  finditer_from 0 (String c s) = [] ->
  CIT_RE_match (String c s) = None /\ finditer_from 0 s = [].
Proof.
  simpl. destruct (CIT_RE_match (String c s)) as [[[cid ds] len]|] eqn:E; [|auto].
  destruct (CIT_RE_match_digits _ _ _ _ E) as [Hd Ht].
  destruct (int_of_digits_total ds Hd Ht) as [n ->]. discriminate.
Qed.

Lemma finditer_skip a b :
  finditer_from (String.length a) (a +:+ b) = finditer_from 0 b.
Proof. induction a as [|c a IH]; simpl; [reflexivity | exact IH]. Qed.

Lemma finditer_quiet_prefix pre z :
  finditer_from 0 pre = [] ->
  finditer_from 0 (pre +:+ String "[" z) = finditer_from 0 (String "[" z).
Proof.
  induction pre as [|c pre IH]; intros Hq; [reflexivity|].
  destruct (finditer_nil_head _ _ Hq) as [Hm Hq'].
  change (String c pre +:+ String "[" z) with (String c (pre +:+ String "[" z)).
  cbn [finditer_from].
  change (String c (pre +:+ String "[" z)) with (String c pre +:+ String "[" z).
  rewrite CIT_RE_match_before_bracket by discriminate.
  rewrite Hm. now apply IH.
Qed.

(** The pattern matches a formatted marker whole, whatever follows it. *)
Lemma CIT_RE_match_format cid n post :
  is_chunk_id cid = true -> 0 <= n ->
  CIT_RE_match (format_citation cid n +:+ post)
  = Some (cid, str_of_int n, String.length (format_citation cid n)).
Proof.
  intros Hid Hn. unfold is_chunk_id in Hid.
  apply andb_prop in Hid as [Hlen Hhex]. apply Nat.eqb_eq in Hlen.
  destruct (str_of_int_digits n Hn) as [Hd Ht].
  unfold format_citation, CIT_RE_match.
  rewrite !append_assoc. cbn [String.append expect Ascii.eqb Bool.eqb].
  rewrite <- Hlen at 1. rewrite take_class_all by exact Hhex.
  change (" p." +:+ str_of_int n +:+ "]" +:+ post)
    with (String " " (String "p" (String "." (str_of_int n +:+ String "]" post)))).
  cbn [span]. change (is_space " ") with true. change (is_space "p") with false.
  cbn [truthy negb expect Ascii.eqb Bool.eqb].
  rewrite span_all_stop by (auto; reflexivity).
  rewrite Ht. cbn [negb expect Ascii.eqb Bool.eqb].
  cbn [String.length]. rewrite length_append. cbn [String.length].
  rewrite length_append, Hlen. cbn [String.length].
  repeat f_equal; lia.
Qed.

(** C4. Formatting a citation and parsing it back yields exactly that
    marker, also when the marker is embedded between two texts that hold no
    marker of their own. *)
Theorem citation_round_trip (cid : string) (n : Z) :
  is_chunk_id cid = true -> 0 <= n ->
  extract_citations (format_citation cid n) = [mkCitedChunk cid n] /\
  (forall pre post,
     extract_citations pre = [] -> extract_citations post = [] ->
     extract_citations (pre +:+ format_citation cid n +:+ post)
     = [mkCitedChunk cid n]).
Proof.
  intros Hid Hn.
  assert (Hemb : forall pre post,
     extract_citations pre = [] -> extract_citations post = [] ->
     extract_citations (pre +:+ format_citation cid n +:+ post)
     = [mkCitedChunk cid n]).
  { intros pre post Hpre Hpost. unfold extract_citations in *.
    pose proof (CIT_RE_match_format cid n post Hid Hn) as Hm.
    pose proof (finditer_skip (format_citation cid n) post) as Hs.
    remember (format_citation cid n) as f eqn:Ef.
    assert (Hf : exists f', f = String "[" f') by (subst f; eexists; reflexivity).
    destruct Hf as [f' ->].
    change (String "[" f' +:+ post) with (String "[" (f' +:+ post)) in *.
    rewrite finditer_quiet_prefix by exact Hpre.
    cbn [finditer_from]. rewrite Hm.
    rewrite (int_of_digits_str_of_int n Hn).
    f_equal. cbn [String.length] in *. rewrite Nat.sub_succ, Nat.sub_0_r.
    cbn [finditer_from] in Hs. now rewrite Hs. }
  split; [|exact Hemb].
  specialize (Hemb "" "" eq_refl eq_refl).
  now rewrite append_nil_r in Hemb.
Qed.

Lemma citation_round_trip_witness :
  extract_citations (format_citation "fedcba654321" 42)
  = [mkCitedChunk "fedcba654321" 42] /\
  extract_citations
    ("The model achieves state-of-the-art results "
     +:+ format_citation "fedcba654321" 42 +:+ " on several benchmarks.")
  = [mkCitedChunk "fedcba654321" 42].
Proof.
  destruct (citation_round_trip "fedcba654321" 42) as [H1 H2];
    [reflexivity | lia |].
  split; [exact H1 | apply H2; reflexivity].
Defined.

End CitationsFacts.

Module RouterFacts.
Import PyStr Router PyStrFacts.

#[local] Arguments String.append !s1 s2 : simpl nomatch.

Ltac by_char c := destruct c as [[] [] [] [] [] [] [] []]; reflexivity.

Lemma is_word_lower c : is_word (lower c) = is_word c.
Proof. by_char c. Qed.

Lemma space_not_word c : is_space c = true -> is_word c = false.
Proof. destruct c as [[] [] [] [] [] [] [] []]; intros H; try reflexivity; discriminate H. Qed.

Lemma word_opt_lower_eq c c' : lower c = lower c' -> is_word c = is_word c'.
Proof. intros H. rewrite <- (is_word_lower c), <- (is_word_lower c'). now rewrite H. Qed.

Lemma last_or_append prev a b : last_or prev (a +:+ b) = last_or (last_or prev a) b.
Proof. revert prev. induction a as [|c a IH]; intros prev; simpl; auto. Qed.

(** *** The scanner against the declarative reading *)

Lemma match_literal_spec lit prev s lc rest :
  match_literal lit prev s = Some (lc, rest) <->
  exists w, s = w +:+ rest /\ lower_str w = lit /\ lc = last_or prev w.
Proof.
  revert prev s. induction lit as [|p lit IH]; intros prev s; simpl.
  - split.
    + intros [= <- <-]. exists "". auto.
    + intros [w [-> [Hw ->]]]. destruct w; [reflexivity | discriminate].
  - destruct s as [|c s].
    + split; [discriminate|].
      intros [w [Hs [Hw _]]]. destruct w; discriminate.
    + destruct (Ascii.eqb_spec (lower c) p) as [Hc|Hc].
      * rewrite IH. split.
        -- intros [w [-> [Hw ->]]]. exists (String c w). simpl. now rewrite Hc, Hw.
        -- intros [w [Hs [Hw ->]]]. destruct w as [|c' w]; [discriminate|].
           simpl in Hs, Hw. injection Hs as <- ->. injection Hw as _ Hw.
           exists w. auto.
      * split; [discriminate|].
        intros [w [Hs [Hw _]]]. destruct w as [|c' w]; [discriminate|].
        simpl in Hs, Hw. injection Hs as <- _. injection Hw as Hw _. contradiction.
Qed.

Lemma search_from_spec alts prev s :
  search_from alts prev s = true <-> exists kw, In kw alts /\ occurs_from prev kw s.
Proof.
  revert prev. induction s as [|c s IH]; intros prev.
  - simpl. rewrite orb_false_r, andb_true_iff, existsb_exists. split.
    + intros [Hb [kw [Hin Hm]]]. exists kw. split; [exact Hin|].
      unfold match_alt in Hm.
      destruct (match_literal kw prev "") as [[lc rest]|] eqn:E; [|discriminate].
      apply match_literal_spec in E as [w [Hs [Hw ->]]].
      exists "", w, rest. simpl. rewrite <- Hs. auto.
    + intros [kw [Hin [pre [w [post [Hs [Hw [Hb1 Hb2]]]]]]]].
      destruct pre; [|discriminate]. simpl in *.
      split; [now rewrite <- Hs in Hb1|].
      exists kw. split; [exact Hin|]. unfold match_alt.
      assert (E : match_literal kw prev "" = Some (last_or prev w, post))
        by (apply match_literal_spec; eauto).
      now rewrite E.
  - cbn [search_from]. rewrite orb_true_iff, andb_true_iff, existsb_exists, IH. split.
    + intros [[Hb [kw [Hin Hm]]]|[kw [Hin Ho]]].
      * exists kw. split; [exact Hin|]. unfold match_alt in Hm.
        destruct (match_literal kw prev (String c s)) as [[lc rest]|] eqn:E; [|discriminate].
        apply match_literal_spec in E as [w [Hs [Hw ->]]].
        exists "", w, rest. simpl. rewrite <- Hs. auto.
      * destruct Ho as [pre [w [post [Hs [Hw [Hb1 Hb2]]]]]].
        exists kw. split; [exact Hin|].
        exists (String c pre), w, post. simpl. now rewrite Hs.
    + intros [kw [Hin [pre [w [post [Hs [Hw [Hb1 Hb2]]]]]]]].
      destruct pre as [|c' pre].
      * left. simpl in *. split; [now rewrite <- Hs in Hb1|].
        exists kw. split; [exact Hin|]. unfold match_alt.
        assert (E : match_literal kw prev (String c s) = Some (last_or prev w, post))
          by (apply match_literal_spec; eauto).
        now rewrite E.
      * right. simpl in Hs. injection Hs as <- ->.
        exists kw. split; [exact Hin|]. exists pre, w, post. auto.
Qed.

Lemma re_search_spec alts s : re_search alts s = true <-> contains_any alts s.
Proof. apply search_from_spec. Qed.

(** *** [strip] does not change what the patterns find *)

Lemma existsb_ext {A} (f g : A -> bool) l :
  (forall x, f x = g x) -> existsb f l = existsb g l.
Proof. intros H. induction l as [|x l IH]; simpl; [reflexivity | now rewrite H, IH]. Qed.

Lemma match_alt_prev_ext alt prev prev' s :
  word_opt prev = word_opt prev' -> match_alt prev s alt = match_alt prev' s alt.
Proof.
  intros H. unfold match_alt. destruct alt as [|p lit]; simpl.
  - unfold at_boundary. now rewrite H.
  - destruct s as [|c s]; [reflexivity|]. destruct (Ascii.eqb (lower c) p); reflexivity.
Qed.

Lemma search_from_prev_ext alts prev prev' s :
  word_opt prev = word_opt prev' -> search_from alts prev s = search_from alts prev' s.
Proof.
  intros H. destruct s as [|c s]; cbn [search_from];
    unfold at_boundary; rewrite H;
    rewrite (existsb_ext _ _ alts (fun alt => match_alt_prev_ext alt prev prev' _ H));
    reflexivity.
Qed.

Lemma re_search_lstrip alts s : re_search alts (lstrip s) = re_search alts s.
Proof.
  unfold re_search. induction s as [|c s IH]; [reflexivity|].
  cbn [lstrip]. destruct (is_space c) eqn:E; [|reflexivity].
  rewrite IH. cbn [search_from head]. unfold at_boundary. cbn [word_opt].
  rewrite (space_not_word c E). cbn [xorb andb orb].
  apply search_from_prev_ext. cbn [word_opt]. now rewrite (space_not_word c E).
Qed.

Lemma head_space_not_word W :
  all_chars is_space W = true -> word_opt (head W) = false.
Proof.
  destruct W as [|c W]; simpl; [reflexivity|].
  intros H. apply andb_prop in H as [H _]. now apply space_not_word.
Qed.

(** Inside a run of whitespace no alternative can end at a boundary. *)
Lemma match_alt_in_space alt prev W :
  all_chars is_space W = true -> word_opt prev = false -> match_alt prev W alt = false.
Proof.
  unfold match_alt. revert prev W.
  induction alt as [|p lit IH]; intros prev W HW Hp; simpl.
  - unfold at_boundary. now rewrite Hp, head_space_not_word.
  - destruct W as [|c W]; [reflexivity|].
    simpl in HW. apply andb_prop in HW as [Hc HW].
    destruct (Ascii.eqb (lower c) p); [|reflexivity].
    apply IH; [exact HW|]. simpl. now apply space_not_word.
Qed.

Lemma search_from_in_space alts prev W :
  all_chars is_space W = true -> word_opt prev = false -> search_from alts prev W = false.
Proof.
  revert prev. induction W as [|c W IH]; intros prev HW Hp; cbn [search_from].
  - rewrite orb_false_r. unfold at_boundary. now rewrite Hp.
  - simpl in HW. apply andb_prop in HW as [Hc HW].
    rewrite IH by (auto; simpl; now apply space_not_word).
    rewrite orb_false_r. unfold at_boundary. cbn [head word_opt].
    now rewrite Hp, (space_not_word c Hc).
Qed.

Lemma match_alt_trailing_space alt prev s W :
  all_chars is_space W = true -> match_alt prev (s +:+ W) alt = match_alt prev s alt.
Proof.
  intros HW. unfold match_alt. revert prev s.
  induction alt as [|p lit IH]; intros prev s.
  - simpl. unfold at_boundary. destruct s as [|c s]; simpl; [|reflexivity].
    now rewrite head_space_not_word.
  - destruct s as [|c s].
    + cbn [String.append]. destruct W as [|c W]; [reflexivity|].
      cbn [match_literal]. simpl in HW. apply andb_prop in HW as [Hc HW'].
      destruct (Ascii.eqb (lower c) p); [|reflexivity].
      apply (match_alt_in_space lit (Some c) W HW').
      simpl. now apply space_not_word.
    + cbn [String.append match_literal].
      destruct (Ascii.eqb (lower c) p); [apply IH | reflexivity].
Qed.

Lemma search_from_trailing_space alts prev s W :
  all_chars is_space W = true ->
  search_from alts prev (s +:+ W) = search_from alts prev s.
Proof.
  intros HW. revert prev. induction s as [|c s IH]; intros prev.
  - cbn [String.append]. destruct W as [|c W]; [reflexivity|].
    cbn [search_from head]. simpl in HW. apply andb_prop in HW as [Hc HW'].
    rewrite (search_from_in_space alts (Some c) W HW')
      by (simpl; now apply space_not_word).
    rewrite (existsb_ext _ (match_alt prev "") alts).
    2:{ intros alt. apply (match_alt_trailing_space alt prev "" (String c W)).
        simpl. now rewrite Hc. }
    unfold at_boundary. cbn [word_opt]. now rewrite (space_not_word c Hc).
  - cbn [String.append search_from head]. rewrite IH.
    rewrite (existsb_ext _ (match_alt prev (String c s)) alts); [reflexivity|].
    intros alt. apply (match_alt_trailing_space alt prev (String c s) W HW).
Qed.

Lemma rstrip_decompose s :
  exists W, all_chars is_space W = true /\ s = rstrip s +:+ W.
Proof.
  induction s as [|c s [W [HW Hs]]]; [exists ""; auto|].
  cbn [rstrip]. destruct (rstrip s) as [|c' r] eqn:E.
  - destruct (is_space c) eqn:Hc.
    + exists (String c W). simpl in *. rewrite Hc, HW. split; [reflexivity | congruence].
    + exists W. split; [exact HW|]. simpl in *. congruence.
  - exists W. split; [exact HW|]. simpl in *. congruence.
Qed.

Lemma re_search_strip alts s : re_search alts (strip s) = re_search alts s.
Proof.
  unfold strip. rewrite <- (re_search_lstrip alts s).
  destruct (rstrip_decompose (lstrip s)) as [W [HW Hs]].
  rewrite Hs at 2. unfold re_search. symmetry.
  now apply search_from_trailing_space.
Qed.

(** *** Letter case does not matter *)

Lemma match_alt_lower_ext alt prev prev' s s' :
  lower_str s = lower_str s' -> word_opt prev = word_opt prev' ->
  match_alt prev s alt = match_alt prev' s' alt.
Proof.
  unfold match_alt. revert prev prev' s s'.
  induction alt as [|p lit IH]; intros prev prev' s s' Hs Hp.
  - simpl. unfold at_boundary. rewrite Hp. f_equal.
    destruct s as [|c s], s' as [|c' s']; try discriminate; [reflexivity|].
    simpl in *. injection Hs as Hc _. now apply word_opt_lower_eq.
  - destruct s as [|c s], s' as [|c' s']; try discriminate; [reflexivity|].
    simpl in Hs. injection Hs as Hc Hs. cbn [match_literal]. rewrite <- Hc.
    destruct (Ascii.eqb (lower c) p); [|reflexivity].
    apply IH; [exact Hs|]. simpl. now apply word_opt_lower_eq.
Qed.

Lemma search_from_lower_ext alts prev prev' s s' :
  lower_str s = lower_str s' -> word_opt prev = word_opt prev' ->
  search_from alts prev s = search_from alts prev' s'.
Proof.
  revert prev prev' s'. induction s as [|c s IH]; intros prev prev' s' Hs Hp;
    destruct s' as [|c' s']; try discriminate.
  - cbn [search_from head]. unfold at_boundary. rewrite Hp.
    now rewrite (existsb_ext _ (match_alt prev' "") alts)
      by (intros alt; now apply match_alt_lower_ext).
  - simpl in Hs. injection Hs as Hc Hs'.
    cbn [search_from head]. unfold at_boundary. cbn [word_opt].
    rewrite Hp, (word_opt_lower_eq c c' Hc).
    rewrite (existsb_ext _ (match_alt prev' (String c' s')) alts).
    2:{ intros alt. apply match_alt_lower_ext; [simpl; now rewrite Hc, Hs' | exact Hp]. }
    f_equal. apply IH; [exact Hs'|]. simpl. now apply word_opt_lower_eq.
Qed.

(** *** The optional dot of [vs\.?] adds nothing *)

Lemma occurs_vs_dot prev q : occurs_from prev "vs." q -> occurs_from prev "vs" q.
Proof.
  intros [pre [w [post [Hq [Hw [Hb1 Hb2]]]]]].
  destruct w as [|a [|b [|d [|? ?]]]]; try discriminate Hw.
  simpl in Hw. injection Hw as Ha Hb Hd.
  exists pre, (String a (String b "")), (String d post).
  split; [exact Hq|]. split; [simpl; now rewrite Ha, Hb|].
  split; [exact Hb1|].
  cbn [last_or head] in *.
  unfold at_boundary in *. cbn [word_opt] in *.
  assert (Hwd : is_word d = false) by (rewrite <- is_word_lower, Hd; reflexivity).
  assert (Hwb : is_word b = true) by (rewrite <- is_word_lower, Hb; reflexivity).
  now rewrite Hwb, Hwd.
Qed.

Lemma compare_pattern_keywords q :
  contains_any _COMPARE_PAT q <-> contains_any compare_keywords q.
Proof.
  split; intros [kw [Hin Ho]].
  - simpl in Hin.
    destruct Hin as [<-|[<-|Hin]].
    + exists "compare". split; [simpl; auto | exact Ho].
    + exists "vs". split; [simpl; auto | now apply occurs_vs_dot].
    + exists kw. split; [simpl; auto | exact Ho].
  - exists kw. split; [|exact Ho].
    simpl in Hin |- *. intuition.
Qed.

Lemma route_query_cases q :
  route_query q =
  if re_search _VERIFY_PAT q then mkRoute "claim_verify"
  else if re_search _COMPARE_PAT q then mkRoute "compare"
  else if re_search _METHOD_PAT q then mkRoute "method_card"
  else mkRoute "qa".
Proof. unfold route_query. now rewrite !re_search_strip. Qed.

(** C5. The router is a case-insensitive classifier with the strict
    priority claim_verify > compare > method_card > qa over the keyword
    lists of the specification, a keyword counting when it stands in the
    question as a whole word or phrase; a question with a claim_verify
    keyword goes to claim_verify whatever else it contains, as
    "Verify the comparison between A and B" does. *)
Theorem route_query_priority (q : string) :
  (mode (route_query q) = "claim_verify" <->
     contains_any claim_verify_keywords q)
  /\ (mode (route_query q) = "compare" <->
       ~ contains_any claim_verify_keywords q /\ contains_any compare_keywords q)
  /\ (mode (route_query q) = "method_card" <->
       ~ contains_any claim_verify_keywords q /\ ~ contains_any compare_keywords q
       /\ contains_any method_card_keywords q)
  /\ (mode (route_query q) = "qa" <->
       ~ contains_any claim_verify_keywords q /\ ~ contains_any compare_keywords q
       /\ ~ contains_any method_card_keywords q)
  /\ (forall q', lower_str q' = lower_str q -> route_query q' = route_query q)
  /\ route_query "Verify the comparison between A and B" = mkRoute "claim_verify".
Proof.
  pose proof (re_search_spec _VERIFY_PAT q) as HV.
  pose proof (re_search_spec _COMPARE_PAT q) as HC.
  rewrite compare_pattern_keywords in HC.
  pose proof (re_search_spec _METHOD_PAT q) as HM.
  change (contains_any _VERIFY_PAT q) with (contains_any claim_verify_keywords q) in HV.
  change (contains_any _METHOD_PAT q) with (contains_any method_card_keywords q) in HM.
  rewrite route_query_cases.
  repeat split.
  all: try (intros q' Hq'; rewrite route_query_cases; unfold re_search;
            now rewrite !(search_from_lower_ext _ None None q' q Hq' eq_refl)).
  all: destruct (re_search _VERIFY_PAT q), (re_search _COMPARE_PAT q),
         (re_search _METHOD_PAT q); cbn [mode];
       try discriminate; try tauto; try (intros; intuition discriminate).
Qed.

Lemma route_query_priority_witness :
  mode (route_query "VERIFY that A vs B differences hold") = "claim_verify" /\
  route_query "verify that a vs b differences hold"
  = route_query "VERIFY that A vs B differences hold".
Proof.
  pose proof (route_query_priority "VERIFY that A vs B differences hold")
    as [_ [_ [_ [_ [Hci _]]]]].
  split; [reflexivity | apply Hci; reflexivity].
Defined.

End RouterFacts.

Module ConfigFacts.
Import PyStr Config Samples.

(** C6, as the code has it: the only check of [load_config] is the
    presence of the API key when a provider is "openai"; the chunking
    parameters are returned as they were read, whatever they are. *)
Theorem load_config_checks_credentials_only (raw : RawConfig) (key : option string) :
  ((exists msg, load_config raw key = RuntimeError msg) <->
     (provider (embeddings raw) = "openai" \/ provider (llm raw) = "openai")
     /\ env_missing key = true)
  /\ ((forall msg, load_config raw key <> RuntimeError msg) ->
        load_config raw key = Loaded (mkAppConfig raw))
  /\ (forall c, load_config (mkRawConfig (embeddings raw) (llm raw) c
                               (min_similarity raw) (max_context_chunks raw)) key
                = match load_config raw key with
                  | Loaded _ =>
                      Loaded (mkAppConfig (mkRawConfig (embeddings raw) (llm raw) c
                                (min_similarity raw) (max_context_chunks raw)))
                  | RuntimeError msg => RuntimeError msg
                  end).
Proof.
  unfold load_config. cbn [embeddings llm].
  destruct (String.eqb_spec (provider (embeddings raw)) "openai") as [He|He];
  destruct (String.eqb_spec (provider (llm raw)) "openai") as [Hl|Hl];
  destruct (env_missing key); cbn [orb];
  (split; [split; [intros [msg H]; try discriminate H; auto
                  | intros [[H|H] Hk]; try discriminate Hk; try contradiction; eauto]
          | split; [intros H; try reflexivity; exfalso; eapply H; reflexivity
                   | reflexivity]]).
Qed.

(** C6, counterexample: a configuration with
    [chunk_overlap_tokens >= chunk_tokens] is loaded without complaint. *)
Lemma load_config_admits_malformed_chunking :
  chunk_overlap_tokens (chunking malformed_raw) >= chunk_tokens (chunking malformed_raw)
  /\ load_config malformed_raw (Some "sk-test") = Loaded (mkAppConfig malformed_raw).
Proof. split; [cbn; lia | reflexivity]. Qed.

End ConfigFacts.

Module ChunkingFacts.
Import PyStr Chunking.
#[local] Open Scope Z_scope.
#[local] Open Scope list_scope.

(** *** Slices *)

Lemma slice_in_range {A} (l : list A) (start stop : Z) :
  0 <= start <= stop -> stop <= len l ->
  slice l start stop
  = firstn (Z.to_nat (stop - start)) (skipn (Z.to_nat start) l).
Proof.
  intros H1 H2. unfold slice, norm_index, len in *.
  destruct (Z.ltb_spec start 0); [lia|].
  destruct (Z.ltb_spec stop 0); [lia|].
  now rewrite !Z.min_l by lia.
Qed.

Lemma len_slice {A} (l : list A) (start stop : Z) :
  0 <= start <= stop -> stop <= len l -> len (slice l start stop) = stop - start.
Proof.
  intros H1 H2. rewrite slice_in_range by assumption. unfold len in *.
  rewrite List.length_firstn, List.length_skipn. lia.
Qed.

Lemma slice_incl {A} (l : list A) (start stop : Z) x :
  In x (slice l start stop) -> In x l.
Proof.
  unfold slice. intros H. apply List.In_nth_error in H as [n Hn].
  rewrite List.nth_error_firstn in Hn.
  destruct (Nat.ltb n _); [|discriminate].
  rewrite List.nth_error_skipn in Hn. eapply List.nth_error_In, Hn.
Qed.

Section Loop.

Context {token : Type}.
Variable encode : string -> list token.
Variable decode : list token -> string.
Variable sha1_hexdigest : list ascii -> string.
Variable chunk_tokens chunk_overlap_tokens min_chunk_tokens : Z.

#[local] Abbreviation window_end := (window_end chunk_tokens min_chunk_tokens).
#[local] Abbreviation emit := (emit sha1_hexdigest).
#[local] Abbreviation window_step :=
  (window_step decode sha1_hexdigest chunk_tokens chunk_overlap_tokens min_chunk_tokens).
#[local] Abbreviation while_loop :=
  (while_loop decode sha1_hexdigest chunk_tokens chunk_overlap_tokens min_chunk_tokens).
#[local] Abbreviation chunk_page :=
  (chunk_page encode decode sha1_hexdigest chunk_tokens chunk_overlap_tokens
     min_chunk_tokens).
#[local] Abbreviation chunk_pages_from :=
  (chunk_pages_from encode decode sha1_hexdigest chunk_tokens chunk_overlap_tokens
     min_chunk_tokens).
#[local] Abbreviation chunk_pages :=
  (chunk_pages encode decode sha1_hexdigest chunk_tokens chunk_overlap_tokens
     min_chunk_tokens).

(** The window taken at a valid [start] is not empty and stays inside the
    token list; unless it reaches the end, it spans at least
    [chunk_tokens] tokens. *)
Lemma window_end_bounds (tokens : list token) (start : Z) :
  1 <= chunk_tokens -> 0 <= start < len tokens ->
  start < window_end tokens start <= len tokens /\
  (window_end tokens start <> len tokens ->
   start + chunk_tokens <= window_end tokens start).
Proof.
  intros Hct Hs. unfold Chunking.window_end.
  set (n := len tokens) in *.
  destruct (Z.eqb_spec (Z.min (start + chunk_tokens) n) n) as [E|E].
  - rewrite andb_false_r. lia.
  - assert (Hlt : start + chunk_tokens < n) by lia.
    rewrite Z.min_l in * by lia.
    rewrite len_slice by (fold n; lia).
    rewrite andb_true_r.
    destruct (Z.ltb_spec (start + chunk_tokens - start) min_chunk_tokens); lia.
Qed.

(** A pass that does not [break] moves [start] strictly forward. *)
Lemma window_step_progress page section (tokens : list token) start st st' start' :
  0 <= chunk_overlap_tokens < chunk_tokens -> 0 <= start < len tokens ->
  window_step page section tokens start st = (st', Some start') ->
  start < start' /\ start' <= len tokens.
Proof.
  intros Hp Hs. unfold Chunking.window_step.
  destruct (window_end_bounds tokens start ltac:(lia) Hs) as [Hb Hw].
  destruct (Z.eqb_spec (window_end tokens start) (len tokens)) as [E|E];
    [discriminate|].
  intros [= _ <-]. specialize (Hw E). lia.
Qed.

(** Enough fuel: one unit for each token still ahead of [start]. *)
Lemma while_loop_terminates page section (tokens : list token) fuel start st :
  0 <= chunk_overlap_tokens < chunk_tokens -> 0 <= start ->
  (Z.to_nat (len tokens - start) <= fuel)%nat ->
  exists st', while_loop fuel page section tokens start st = Some st'.
Proof.
  intros Hp. revert start st.
  induction fuel as [|fuel IH]; intros start st Hs Hf; cbn [Chunking.while_loop].
  - destruct (Z.ltb_spec start (len tokens)); [lia | eauto].
  - destruct (Z.ltb_spec start (len tokens)) as [Hlt|]; [|eauto].
    destruct (window_step page section tokens start st) as [st1 [start1|]] eqn:E;
      [|eauto].
    destruct (window_step_progress _ _ _ _ _ _ _ Hp (conj Hs Hlt) E) as [H1 H2].
    apply IH; lia.
Qed.

Lemma chunk_page_terminates fuel acc page :
  0 <= chunk_overlap_tokens < chunk_tokens ->
  (length (encode (text page)) <= fuel)%nat ->
  exists acc', chunk_page fuel acc page = Some acc'.
Proof.
  intros Hp Hf. unfold Chunking.chunk_page.
  destruct (encode (text page)) as [|t ts] eqn:E; [eauto|].
  destruct (while_loop_terminates page
              (_clean_heading (_pick_section_name (fst acc) (detected_headings page)))
              (t :: ts) fuel 0 (snd acc) Hp ltac:(lia)) as [st' ->]; [|eauto].
  unfold len. lia.
Qed.

Lemma chunk_pages_from_terminates fuel acc pages :
  0 <= chunk_overlap_tokens < chunk_tokens ->
  Forall (fun page => (length (encode (text page)) <= fuel)%nat) pages ->
  exists acc', chunk_pages_from fuel acc pages = Some acc'.
Proof.
  intros Hp Hf. revert acc.
  induction Hf as [|page pages Hpage _ IH]; intros acc; cbn [Chunking.chunk_pages_from];
    [eauto|].
  destruct (chunk_page_terminates fuel acc page Hp Hpage) as [acc' ->]. apply IH.
Qed.

(** Fuel that suffices for every page: the longest token sequence. *)
Lemma enough_fuel_exists (pages : list PageText) :
  exists fuel, forall fuel', (fuel <= fuel')%nat ->
    Forall (fun page => (length (encode (text page)) <= fuel')%nat) pages.
Proof.
  induction pages as [|page pages [fuel IH]].
  - exists 0%nat. intros; constructor.
  - exists (Nat.max fuel (length (encode (text page)))). intros fuel' Hf.
    constructor; [lia | apply IH; lia].
Qed.

(** C8. With [0 <= chunk_overlap_tokens < chunk_tokens] the chunker
    terminates on every finite sequence of pages: some amount of fuel, and
    any larger one, yields a result; and every pass of the loop that does
    not break moves [start] strictly forward. *)
Theorem chunk_pages_terminates (pages : list PageText) :
  0 <= chunk_overlap_tokens < chunk_tokens ->
  (exists fuel, forall fuel', (fuel <= fuel')%nat ->
     exists result, chunk_pages fuel' pages = Some result)
  /\ (forall page section (tokens : list token) start st st' start',
       0 <= start < len tokens ->
       window_step page section tokens start st = (st', Some start') ->
       start < start'
       /\ start + chunk_tokens <= window_end tokens start
       /\ start' = Z.max 0 (window_end tokens start - chunk_overlap_tokens)).
Proof.
  intros Hp. split.
  - destruct (enough_fuel_exists pages) as [fuel Hfuel]. exists fuel.
    intros fuel' Hf. unfold Chunking.chunk_pages.
    destruct (chunk_pages_from_terminates fuel' ("Unknown", mkLoopState [] 0) pages Hp
                (Hfuel fuel' Hf)) as [[sec st] ->].
    eauto.
  - intros page section tokens start st st' start' Hs E.
    split; [now apply (window_step_progress _ _ _ _ _ _ _ Hp Hs E)|].
    unfold Chunking.window_step in E.
    destruct (window_end_bounds tokens start ltac:(lia) Hs) as [Hb Hw].
    destruct (Z.eqb_spec (window_end tokens start) (len tokens)) as [Ee|Ee];
      [discriminate|].
    injection E as _ <-. auto.
Qed.

(** *** Invariants of the loops *)

(** Whatever [emit] preserves, the three loops preserve. *)
Lemma while_loop_invariant (P : LoopState -> Prop) :
  (forall page section text st, P st -> P (emit page section text st)) ->
  forall fuel page section (tokens : list token) start st st',
    P st -> while_loop fuel page section tokens start st = Some st' -> P st'.
Proof.
  intros Hemit. induction fuel as [|fuel IH];
    intros page section tokens start st st' HP; cbn [Chunking.while_loop];
    destruct (start <? len tokens); try discriminate; try (intros [= <-]; exact HP).
  unfold Chunking.window_step.
  set (txt := strip (decode (slice tokens start (window_end tokens start)))).
  assert (HP' : P (if truthy txt then emit page section txt st else st))
    by (destruct (truthy txt); auto).
  destruct (window_end tokens start =? len tokens).
  - intros [= <-]. exact HP'.
  - apply IH. exact HP'.
Qed.

Lemma chunk_pages_from_invariant (P : LoopState -> Prop) :
  (forall page section text st, P st -> P (emit page section text st)) ->
  forall fuel pages acc acc',
    P (snd acc) -> chunk_pages_from fuel acc pages = Some acc' -> P (snd acc').
Proof.
  intros Hemit fuel pages. induction pages as [|page pages IH]; intros acc acc' HP;
    cbn [Chunking.chunk_pages_from].
  - intros [= <-]. exact HP.
  - destruct (chunk_page fuel acc page) as [acc1|] eqn:E; [|discriminate].
    apply IH. unfold Chunking.chunk_page in E.
    destruct (encode (text page)) as [|t ts]; [injection E as <-; exact HP|].
    destruct (while_loop fuel page _ (t :: ts) 0 (snd acc)) as [st1|] eqn:E1;
      [|discriminate].
    injection E as <-. cbn [snd].
    eapply while_loop_invariant; eauto.
Qed.

Lemma chunk_pages_invariant (P : LoopState -> Prop) fuel pages result :
  P (mkLoopState [] 0) ->
  (forall page section text st, P st -> P (emit page section text st)) ->
  chunk_pages fuel pages = Some result ->
  exists idx, P (mkLoopState result idx).
Proof.
  intros H0 Hemit. unfold Chunking.chunk_pages.
  destruct (chunk_pages_from fuel ("Unknown", mkLoopState [] 0) pages)
    as [[sec [cs idx]]|] eqn:E; [|discriminate].
  intros [= <-]. exists idx.
  exact (chunk_pages_from_invariant P Hemit fuel pages
           ("Unknown", mkLoopState [] 0) (sec, mkLoopState cs idx) H0 E).
Qed.

Lemma emit_indices_consecutive page section text st :
  indices_consecutive st -> indices_consecutive (emit page section text st).
Proof.
  intros [Hm Hg]. unfold indices_consecutive, Chunking.emit, len in *.
  cbn [chunks global_idx].
  rewrite List.map_app, List.length_app, Nat.add_1_r, List.seq_S, List.map_app, Hm.
  cbn [map chunk_metadata chunk_index length]. rewrite Hg.
  split; [reflexivity | lia].
Qed.

Lemma emit_ids page section text st :
  Forall (id_of_own_fields sha1_hexdigest) (chunks st) ->
  Forall (id_of_own_fields sha1_hexdigest) (chunks (emit page section text st)).
Proof.
  intros H. unfold Chunking.emit. cbn [chunks].
  apply List.Forall_app. split; [exact H|].
  constructor; [reflexivity | constructor].
Qed.

Lemma NoDup_consecutive n : List.NoDup (map Z.of_nat (seq 0 n)).
Proof.
  apply List.NoDup_map_inv with (f := Z.to_nat).
  rewrite List.map_map.
  rewrite (List.map_ext _ (fun x => x) (fun x => Nat2Z.id x)), List.map_id.
  apply List.seq_NoDup.
Qed.

Lemma result_indices fuel (pages : list PageText) (result : list Chunk) :
  chunk_pages fuel pages = Some result ->
  map (fun c => chunk_index (chunk_metadata c)) result
  = map Z.of_nat (seq 0 (length result)).
Proof.
  intros H.
  destruct (chunk_pages_invariant indices_consecutive fuel pages result) as [idx [Hm _]];
    [split; reflexivity | apply emit_indices_consecutive | exact H | exact Hm].
Qed.

(** C10. The chunk indices of the result, in emission order, are
    0, 1, ..., n-1: the counter moves only when a chunk is emitted, and is
    never reset between pages. *)
Theorem chunk_index_consecutive fuel (pages : list PageText) (result : list Chunk) :
  chunk_pages fuel pages = Some result ->
  map (fun c => chunk_index (chunk_metadata c)) result
  = map Z.of_nat (seq 0 (length result)).
Proof.
  intros H.
  assert (Hinit : indices_consecutive (mkLoopState [] 0)) by (split; reflexivity).
  destruct (chunk_pages_invariant indices_consecutive fuel pages result Hinit
              emit_indices_consecutive H) as [idx [Hm Hidx]].
  exact Hm.
Qed.

(** C9. Every emitted chunk carries as id the digest of its own source
    path, page number, section name, chunk index and text, a function of
    these five values alone; and no two chunks of one call share a chunk
    index. *)
Theorem chunk_id_reproducible fuel (pages : list PageText) (result : list Chunk) :
  chunk_pages fuel pages = Some result ->
  Forall (id_of_own_fields sha1_hexdigest) result
  /\ List.NoDup (map (fun c => chunk_index (chunk_metadata c)) result).
Proof.
  intros H. split.
  - destruct (chunk_pages_invariant
                (fun st => Forall (id_of_own_fields sha1_hexdigest) (chunks st))
                fuel pages result) as [idx Hf];
      [constructor | apply emit_ids | exact H | exact Hf].
  - rewrite (result_indices fuel pages result H). apply NoDup_consecutive.
Qed.

(** *** The loops only append *)

Lemma emit_appends page section text st :
  exists c, chunks (emit page section text st) = chunks st ++ [c].
Proof. unfold Chunking.emit. cbn [chunks]. eauto. Qed.

Lemma while_loop_appends fuel page section (tokens : list token) start st st' :
  while_loop fuel page section tokens start st = Some st' ->
  exists new, chunks st' = chunks st ++ new.
Proof.
  apply (while_loop_invariant (fun s => exists new, chunks s = chunks st ++ new)).
  - intros pg sec txt s [new Hs]. destruct (emit_appends pg sec txt s) as [c ->].
    exists (new ++ [c]). now rewrite Hs, <- List.app_assoc.
  - exists []. now rewrite List.app_nil_r.
Qed.

Lemma chunk_page_appends fuel acc page acc' :
  chunk_page fuel acc page = Some acc' ->
  exists new, chunks (snd acc') = chunks (snd acc) ++ new.
Proof.
  unfold Chunking.chunk_page.
  destruct (encode (text page)) as [|t ts].
  - intros [= <-]. exists []. cbn [snd]. now rewrite List.app_nil_r.
  - destruct (while_loop fuel page _ (t :: ts) 0 (snd acc)) as [st1|] eqn:E;
      [|discriminate].
    intros [= <-]. cbn [snd]. eapply while_loop_appends, E.
Qed.

Lemma chunk_pages_from_appends fuel pages acc acc' :
  chunk_pages_from fuel acc pages = Some acc' ->
  exists new, chunks (snd acc') = chunks (snd acc) ++ new.
Proof.
  revert acc. induction pages as [|page pages IH]; intros acc;
    cbn [Chunking.chunk_pages_from].
  - intros [= <-]. exists []. now rewrite List.app_nil_r.
  - destruct (chunk_page fuel acc page) as [acc1|] eqn:E; [|discriminate].
    intros H. destruct (IH _ H) as [new2 H2].
    destruct (chunk_page_appends _ _ _ _ E) as [new1 H1].
    exists (new1 ++ new2). now rewrite H2, H1, <- List.app_assoc.
Qed.

Lemma chunk_pages_from_app fuel acc pages1 pages2 :
  chunk_pages_from fuel acc (pages1 ++ pages2)
  = match chunk_pages_from fuel acc pages1 with
    | Some acc1 => chunk_pages_from fuel acc1 pages2
    | None => None
    end.
Proof.
  revert acc. induction pages1 as [|page pages1 IH]; intros acc; [reflexivity|].
  cbn [Chunking.chunk_pages_from List.app].
  destruct (chunk_page fuel acc page); [apply IH | reflexivity].
Qed.

End Loop.

(** *** Blank text, and the one-character tokenizer *)

Lemma truthy_rstrip s : truthy (rstrip s) = negb (all_chars is_space s).
Proof.
  induction s as [|c s IH]; [reflexivity|]. cbn [rstrip all_chars].
  destruct (rstrip s) eqn:E; cbn [truthy] in *.
  - apply (f_equal negb) in IH. rewrite negb_involutive in IH. cbn in IH.
    rewrite <- IH, andb_true_r. now destruct (is_space c).
  - apply (f_equal negb) in IH. rewrite negb_involutive in IH. cbn in IH.
    rewrite <- IH, andb_false_r. reflexivity.
Qed.

Lemma all_space_lstrip s : all_chars is_space (lstrip s) = all_chars is_space s.
Proof.
  induction s as [|c s IH]; [reflexivity|]. cbn [lstrip all_chars].
  destruct (is_space c) eqn:E; [exact IH|]. cbn [all_chars]. now rewrite E.
Qed.

Lemma is_blank_all_space s : is_blank s = all_chars is_space s.
Proof.
  unfold is_blank, strip. now rewrite truthy_rstrip, negb_involutive, all_space_lstrip.
Qed.

Lemma char_decode_encode s : char_decode (char_encode s) = s.
Proof. apply string_of_list_ascii_of_string. Qed.

Lemma char_decode_blank w :
  is_blank (char_decode w) = forallb (fun t => is_blank (char_decode [t])) w.
Proof.
  rewrite is_blank_all_space. unfold char_decode.
  induction w as [|c w IH]; [reflexivity|].
  cbn [string_of_list_ascii all_chars forallb].
  rewrite IH, is_blank_all_space. cbn [all_chars]. now rewrite andb_true_r.
Qed.

(** *** The theorems at work *)

Import Samples.

Lemma chunk_pages_terminates_witness :
  exists fuel, forall fuel', (fuel <= fuel')%nat ->
    exists result, char_chunk_pages 5 2 3 fuel' sample_pages = Some result.
Proof.
  exact (proj1 (chunk_pages_terminates char_encode char_decode length_digest 5 2 3
                  sample_pages ltac:(lia))).
Defined.

Lemma chunk_index_consecutive_witness :
  exists result,
    char_chunk_pages 5 2 3 20 sample_pages = Some result
    /\ map (fun c => chunk_index (chunk_metadata c)) result = [0; 1; 2; 3; 4; 5].
Proof.
  unfold char_chunk_pages.
  destruct (chunk_pages char_encode char_decode length_digest 5 2 3 20 sample_pages)
    as [result|] eqn:E; [|vm_compute in E; discriminate E].
  exists result. split; [reflexivity|].
  rewrite (chunk_index_consecutive char_encode char_decode length_digest 5 2 3 20
             sample_pages result E).
  vm_compute in E. injection E as <-. reflexivity.
Defined.

Lemma chunk_id_reproducible_witness :
  exists result,
    char_chunk_pages 5 2 3 20 sample_pages = Some result
    /\ Forall (id_of_own_fields length_digest) result
    /\ List.NoDup (map (fun c => chunk_index (chunk_metadata c)) result).
Proof.
  unfold char_chunk_pages.
  destruct (chunk_pages char_encode char_decode length_digest 5 2 3 20 sample_pages)
    as [result|] eqn:E; [|vm_compute in E; discriminate E].
  exists result. split; [reflexivity|].
  exact (chunk_id_reproducible char_encode char_decode length_digest 5 2 3 20
           sample_pages result E).
Defined.

End ChunkingFacts.

Module CoverageFacts.
Import PyStr Chunking ChunkingFacts.
Import ChunkingChecked.
#[local] Open Scope Z_scope.
#[local] Open Scope list_scope.

(** *** Slices that meet *)

Lemma firstn_plus {A} (n m : nat) (l : list A) :
  firstn (n + m) l = firstn n l ++ firstn m (skipn n l).
Proof.
  revert l. induction n as [|n IH]; intros l; [reflexivity|].
  destruct l as [|x l]; cbn [Nat.add firstn skipn List.app].
  - now destruct m.
  - now rewrite IH.
Qed.

Lemma slice_app {A} (l : list A) (a b c : Z) :
  0 <= a <= b -> b <= c -> c <= len l ->
  slice l a b ++ slice l b c = slice l a c.
Proof.
  intros Ha Hb Hc. rewrite !slice_in_range by lia.
  replace (Z.to_nat (c - a)) with (Z.to_nat (b - a) + Z.to_nat (c - b))%nat by lia.
  rewrite firstn_plus, List.skipn_skipn.
  replace (Z.to_nat (b - a) + Z.to_nat a)%nat with (Z.to_nat b) by lia.
  reflexivity.
Qed.

Lemma slice_full {A} (l : list A) : slice l 0 (len l) = l.
Proof.
  rewrite slice_in_range by (unfold len; lia). unfold len.
  rewrite Z.sub_0_r, Nat2Z.id. cbn [Z.to_nat skipn]. apply List.firstn_all.
Qed.

Section Coverage.

Context {token : Type}.
Variable try_encode : string -> option (list token).
Variable decode : list token -> string.
Variable sha1_hexdigest : list ascii -> string.
Variable chunk_tokens chunk_overlap_tokens min_chunk_tokens : Z.

#[local] Abbreviation window_end :=
  (Chunking.window_end chunk_tokens min_chunk_tokens).
#[local] Abbreviation while_loop :=
  (Chunking.while_loop decode sha1_hexdigest
     chunk_tokens chunk_overlap_tokens min_chunk_tokens).
#[local] Abbreviation chunk_page :=
  (ChunkingChecked.chunk_page try_encode decode sha1_hexdigest
     chunk_tokens chunk_overlap_tokens min_chunk_tokens).
#[local] Abbreviation chunk_pages_from :=
  (ChunkingChecked.chunk_pages_from try_encode decode sha1_hexdigest
     chunk_tokens chunk_overlap_tokens min_chunk_tokens).
#[local] Abbreviation chunk_pages :=
  (ChunkingChecked.chunk_pages try_encode decode sha1_hexdigest
     chunk_tokens chunk_overlap_tokens min_chunk_tokens).

(** Each token decodes to blank text. *)
#[local] Abbreviation blank_tokens :=
  (List.Forall (fun t : token => is_blank (decode [t]) = true)).

(** *** The loops, page by page *)

Lemma chunk_page_appends' fuel acc page acc' :
  chunk_page fuel acc page = Returned acc' ->
  exists new, chunks (snd acc') = chunks (snd acc) ++ new.
Proof.
  unfold ChunkingChecked.chunk_page.
  destruct (try_encode (text page)) as [[|t ts]|]; try discriminate.
  - intros [= <-]. exists []. cbn [snd]. now rewrite List.app_nil_r.
  - destruct (while_loop fuel page _ (t :: ts) 0 (snd acc)) as [st1|] eqn:E;
      [|discriminate].
    intros [= <-]. cbn [snd]. eapply while_loop_appends, E.
Qed.

Lemma chunk_pages_from_appends' fuel pages acc acc' :
  chunk_pages_from fuel acc pages = Returned acc' ->
  exists new, chunks (snd acc') = chunks (snd acc) ++ new.
Proof.
  revert acc. induction pages as [|page pages IH]; intros acc;
    cbn [ChunkingChecked.chunk_pages_from].
  - intros [= <-]. exists []. now rewrite List.app_nil_r.
  - destruct (chunk_page fuel acc page) as [acc1| |] eqn:E; try discriminate.
    intros H. destruct (IH _ H) as [new2 H2].
    destruct (chunk_page_appends' _ _ _ _ E) as [new1 H1].
    exists (new1 ++ new2). now rewrite H2, H1, List.app_assoc.
Qed.

Lemma chunk_pages_from_app' fuel acc pages1 pages2 :
  chunk_pages_from fuel acc (pages1 ++ pages2)
  = match chunk_pages_from fuel acc pages1 with
    | Returned acc1 => chunk_pages_from fuel acc1 pages2
    | ValueError => ValueError
    | OutOfFuel => OutOfFuel
    end.
Proof.
  revert acc. induction pages1 as [|page pages1 IH]; intros acc; [reflexivity|].
  cbn [ChunkingChecked.chunk_pages_from List.app].
  destruct (chunk_page fuel acc page); [apply IH | reflexivity | reflexivity].
Qed.

(** A refused page: nothing is returned. *)
Lemma chunk_pages_from_refused fuel acc pages page acc' :
  In page pages -> try_encode (text page) = None ->
  chunk_pages_from fuel acc pages <> Returned acc'.
Proof.
  revert acc. induction pages as [|p pages IH]; intros acc Hin Hr; [destruct Hin|].
  cbn [ChunkingChecked.chunk_pages_from].
  destruct Hin as [->|Hin].
  - unfold ChunkingChecked.chunk_page. rewrite Hr. discriminate.
  - destruct (chunk_page fuel acc p); [now apply IH | discriminate | discriminate].
Qed.

(** With the parameters in order and every text accepted, enough fuel
    gives a result. *)
Lemma chunk_pages_from_returns fuel acc pages :
  0 <= chunk_overlap_tokens < chunk_tokens ->
  List.Forall (fun page => exists tokens, try_encode (text page) = Some tokens
                                          /\ (length tokens <= fuel)%nat) pages ->
  exists acc', chunk_pages_from fuel acc pages = Returned acc'.
Proof.
  intros Hp Hf. revert acc.
  induction Hf as [|page pages [tokens [Ht Hl]] _ IH]; intros acc;
    cbn [ChunkingChecked.chunk_pages_from]; [eauto|].
  unfold ChunkingChecked.chunk_page. rewrite Ht.
  destruct tokens as [|t ts]; [apply IH|].
  destruct (while_loop_terminates decode sha1_hexdigest chunk_tokens
              chunk_overlap_tokens min_chunk_tokens page
              (_clean_heading (_pick_section_name (fst acc) (detected_headings page)))
              (t :: ts) fuel 0 (snd acc) Hp ltac:(lia)) as [st' ->];
    [unfold len; lia | apply IH].
Qed.

Lemma enough_fuel_for (pages : list PageText) :
  (forall p, In p pages -> try_encode (text p) <> None) ->
  exists fuel,
    List.Forall (fun page => exists tokens, try_encode (text page) = Some tokens
                                            /\ (length tokens <= fuel)%nat) pages.
Proof.
  induction pages as [|page pages IH]; intros Hacc.
  - exists 0%nat. constructor.
  - destruct IH as [fuel Hf]; [intros p Hp; apply Hacc; now right|].
    destruct (try_encode (text page)) as [tokens|] eqn:Et;
      [|exfalso; apply (Hacc page); [now left | exact Et]].
    exists (Nat.max fuel (length tokens)). constructor.
    + exists tokens. split; [exact Et | lia].
    + eapply List.Forall_impl; [|exact Hf].
      intros p [w [Hw Hl]]. exists w. split; [exact Hw | lia].
Qed.

(** *** The tokenizer's contract *)

(** Decoding no token gives the empty text; decoding undoes encoding on
    every text that is accepted; and blank decodings stay blank when two
    runs of tokens that overlap are joined. *)
Hypothesis decode_nil : decode [] = EmptyString.
Hypothesis decode_encode : forall s w, try_encode s = Some w -> decode w = s.
Hypothesis blank_join :
  forall a b c : list token,
    is_blank (decode (a ++ b)) = true -> is_blank (decode (b ++ c)) = true ->
    is_blank (decode (a ++ b ++ c)) = true.

Lemma blank_tokens_decode (w : list token) :
  blank_tokens w -> is_blank (decode w) = true.
Proof.
  induction 1 as [|t w Ht _ IH]; [now rewrite decode_nil|].
  apply (blank_join [t] [] w); [now rewrite List.app_nil_r | exact IH].
Qed.

Lemma truthy_strip_blank s : is_blank s = true -> truthy (strip s) = false.
Proof. unfold is_blank. now destruct (truthy (strip s)). Qed.

Lemma while_loop_quiet fuel page section (tokens : list token) start st st' :
  blank_tokens tokens ->
  while_loop fuel page section tokens start st = Some st' -> st' = st.
Proof.
  intros Hb. revert start st.
  induction fuel as [|fuel IH]; intros start st; cbn [Chunking.while_loop];
    destruct (start <? len tokens); try discriminate; try (now intros [= <-]).
  unfold Chunking.window_step.
  rewrite truthy_strip_blank.
  - destruct (window_end tokens start =? len tokens); [now intros [= <-] | apply IH].
  - apply blank_tokens_decode, List.Forall_forall. intros t Ht.
    apply (proj1 (List.Forall_forall _ _) Hb). eapply slice_incl, Ht.
Qed.

(** As long as no chunk has been emitted, the tokens before the end of the
    last window decode to blank text; so the loop cannot come to its end
    on tokens that decode to text with a visible character. *)
Lemma while_loop_finds page section (tokens : list token) :
  0 <= chunk_overlap_tokens < chunk_tokens ->
  is_blank (decode tokens) = false ->
  forall fuel start covered st st',
    0 <= start <= covered -> covered <= len tokens ->
    covered < start + chunk_tokens ->
    is_blank (decode (slice tokens 0 covered)) = true ->
    while_loop fuel page section tokens start st = Some st' ->
    (length (chunks st) < length (chunks st'))%nat.
Proof.
  intros Hp Hnb.
  assert (Hend : forall covered, covered <= len tokens -> len tokens <= covered ->
                   is_blank (decode (slice tokens 0 covered)) = true -> False).
  { intros covered H1 H2 Hc. replace covered with (len tokens) in Hc by lia.
    rewrite slice_full in Hc. congruence. }
  induction fuel as [|fuel IH]; intros start covered st st' Hs Hc Hw Hcov;
    cbn [Chunking.while_loop];
    destruct (Z.ltb_spec start (len tokens)) as [Hlt|Hge];
    try discriminate;
    try (intros _; exfalso; apply (Hend covered); [lia | lia | exact Hcov]).
  destruct (window_end_bounds chunk_tokens min_chunk_tokens tokens start
              ltac:(lia) ltac:(lia)) as [Hb Hfull].
  unfold Chunking.window_step.
  set (e := window_end tokens start) in *.
  destruct (truthy (strip (decode (slice tokens start e)))) eqn:Ht.
  - destruct (emit_appends sha1_hexdigest page section
                (strip (decode (slice tokens start e))) st) as [c Hc'].
    destruct (e =? len tokens).
    + intros [= <-]. rewrite Hc', List.length_app. cbn [length]. lia.
    + intros H. apply while_loop_appends in H as [new Hn].
      rewrite Hn, Hc', !List.length_app. cbn [length]. lia.
  - assert (Hwb : is_blank (decode (slice tokens start e)) = true)
      by (unfold is_blank; now rewrite Ht).
    assert (Hce : covered <= e).
    { destruct (Z.eq_dec e (len tokens)); [lia|]. specialize (Hfull ltac:(assumption)). lia. }
    assert (Hpre : is_blank (decode (slice tokens 0 e)) = true).
    { rewrite <- (slice_app tokens 0 start e) by lia.
      rewrite <- (slice_app tokens start covered e) by lia.
      apply blank_join.
      - rewrite slice_app by lia. exact Hcov.
      - rewrite slice_app by lia. exact Hwb. }
    destruct (Z.eqb_spec e (len tokens)) as [Ee|Ee].
    + intros _. exfalso. apply (Hend e); [lia | lia | exact Hpre].
    + apply (IH _ e); [lia | lia | lia | exact Hpre].
Qed.

Lemma chunk_page_quiet fuel acc page tokens acc' :
  try_encode (text page) = Some tokens -> blank_tokens tokens ->
  chunk_page fuel acc page = Returned acc' -> chunks (snd acc') = chunks (snd acc).
Proof.
  intros Ht Hb. unfold ChunkingChecked.chunk_page. rewrite Ht.
  destruct tokens as [|t ts]; [now intros [= <-]|].
  destruct (while_loop fuel page _ (t :: ts) 0 (snd acc)) as [st1|] eqn:E;
    [|discriminate].
  intros [= <-]. cbn [snd]. f_equal. eapply while_loop_quiet; eauto.
Qed.

Lemma chunk_page_finds fuel acc page acc' :
  0 <= chunk_overlap_tokens < chunk_tokens ->
  is_blank (text page) = false ->
  chunk_page fuel acc page = Returned acc' ->
  (length (chunks (snd acc)) < length (chunks (snd acc')))%nat.
Proof.
  intros Hp Hnb. unfold ChunkingChecked.chunk_page.
  destruct (try_encode (text page)) as [tokens|] eqn:Et; [|discriminate].
  pose proof (decode_encode _ _ Et) as Hd.
  destruct tokens as [|t ts].
  - rewrite decode_nil in Hd. rewrite <- Hd in Hnb. discriminate.
  - destruct (while_loop fuel page _ (t :: ts) 0 (snd acc)) as [st1|] eqn:E;
      [|discriminate].
    intros [= <-]. cbn [snd].
    eapply (while_loop_finds page _ (t :: ts) Hp ltac:(now rewrite Hd)
              fuel 0 0 (snd acc) st1); try lia.
    + unfold len. lia.
    + rewrite slice_in_range by (unfold len; lia).
      rewrite Z.sub_diag, Z2Nat.inj_0, List.firstn_O. now rewrite decode_nil.
    + exact E.
Qed.

(** C7, as the code has it.  Let [0 <= chunk_overlap_tokens <
    chunk_tokens].  When the tokenizer refuses the text of a page, the call
    returns no list, whatever the other pages are.  When it accepts every
    text, the call returns; and in every result the chunks emitted for one
    page (what the run up to and including that page adds to the run before
    it) are none when the text of the page is blank and each of its tokens
    decodes to blank text, and at least one when the text is not blank. *)
Theorem page_coverage (pre : list PageText) (page : PageText) (post : list PageText) :
  0 <= chunk_overlap_tokens < chunk_tokens ->
  (try_encode (text page) = None ->
     forall fuel result, chunk_pages fuel (pre ++ page :: post) <> Returned result)
  /\ ((forall p, In p (pre ++ page :: post) -> try_encode (text p) <> None) ->
      exists fuel result, chunk_pages fuel (pre ++ page :: post) = Returned result)
  /\ (forall fuel result,
        chunk_pages fuel (pre ++ page :: post) = Returned result ->
        exists tokens before emitted after,
          try_encode (text page) = Some tokens
          /\ chunk_pages fuel pre = Returned before
          /\ chunk_pages fuel (pre ++ [page]) = Returned (before ++ emitted)
          /\ result = before ++ emitted ++ after
          /\ (is_blank (text page) = true -> blank_tokens tokens -> emitted = [])
          /\ (is_blank (text page) = false -> emitted <> [])).
Proof.
  intros Hp. split; [|split].
  - intros Hr fuel result. unfold ChunkingChecked.chunk_pages.
    destruct (chunk_pages_from fuel ("Unknown", mkLoopState [] 0) (pre ++ page :: post))
      as [[sec st]| |] eqn:E; try discriminate.
    exfalso. eapply chunk_pages_from_refused; [| exact Hr | exact E].
    apply List.in_or_app. right. now left.
  - intros Hacc. destruct (enough_fuel_for _ Hacc) as [fuel Hf].
    exists fuel. unfold ChunkingChecked.chunk_pages.
    destruct (chunk_pages_from_returns fuel ("Unknown", mkLoopState [] 0) _ Hp Hf)
      as [[sec st] ->]. eauto.
  - intros fuel result. unfold ChunkingChecked.chunk_pages.
    rewrite !chunk_pages_from_app'. cbn [ChunkingChecked.chunk_pages_from].
    destruct (chunk_pages_from fuel ("Unknown", mkLoopState [] 0) pre)
      as [acc1| |] eqn:E1; try discriminate.
    destruct (chunk_page fuel acc1 page) as [acc2| |] eqn:E2; try discriminate.
    destruct (chunk_pages_from fuel acc2 post) as [acc3| |] eqn:E3; try discriminate.
    destruct (chunk_page_appends' _ _ _ _ E2) as [emitted He].
    destruct (chunk_pages_from_appends' _ _ _ _ E3) as [after Ha].
    destruct acc1 as [s1 st1], acc2 as [s2 st2], acc3 as [s3 st3]. cbn [snd] in *.
    intros [= <-].
    destruct (try_encode (text page)) as [tokens|] eqn:Et;
      [|unfold ChunkingChecked.chunk_page in E2; rewrite Et in E2; discriminate].
    exists tokens, (chunks st1), emitted, after.
    split; [reflexivity|]. split; [reflexivity|]. split; [now rewrite He|].
    split; [now rewrite Ha, He, List.app_assoc|].
    split.
    + intros _ Hb. pose proof (chunk_page_quiet _ _ _ _ _ Et Hb E2) as Hc.
      cbn [snd] in Hc. rewrite He in Hc. destruct emitted; [reflexivity|].
      apply (f_equal (@length _)) in Hc. rewrite List.length_app in Hc.
      cbn [length] in Hc. lia.
    + intros Hb. pose proof (chunk_page_finds _ _ _ _ Hp Hb E2) as Hc.
      cbn [snd] in Hc. rewrite He, List.length_app in Hc.
      intros ->. cbn [length] in Hc. lia.
Qed.

End Coverage.

(** *** The theorem at work *)

Import Samples.

Lemma refusing_decode_encode s w :
  refusing_encode s = Some w -> char_decode w = s.
Proof.
  unfold refusing_encode. destruct (occurs_in special_token s); [discriminate|].
  intros [= <-]. apply char_decode_encode.
Qed.

Lemma char_blank_join (a b c : list ascii) :
  is_blank (char_decode (a ++ b)) = true -> is_blank (char_decode (b ++ c)) = true ->
  is_blank (char_decode (a ++ b ++ c)) = true.
Proof.
  rewrite !char_decode_blank, !List.forallb_app.
  intros H1 H2. apply andb_prop in H1 as [-> _]. now rewrite H2.
Qed.

Lemma page_coverage_witness :
  (exists before emitted,
     ChunkingChecked.chunk_pages refusing_encode char_decode length_digest 5 2 3 20
       (firstn 1 sample_pages) = Returned before
     /\ ChunkingChecked.chunk_pages refusing_encode char_decode length_digest 5 2 3 20
          (firstn 1 sample_pages ++ [mkPageText "/path/to/MyPaper.pdf" 2 "   " []])
        = Returned (before ++ emitted)
     /\ emitted = [])
  /\ (exists before emitted,
        ChunkingChecked.chunk_pages refusing_encode char_decode length_digest 5 2 3 20
          (firstn 2 sample_pages) = Returned before
        /\ ChunkingChecked.chunk_pages refusing_encode char_decode length_digest 5 2 3 20
             (firstn 2 sample_pages
              ++ [mkPageText "/path/to/MyPaper.pdf" 3 "hello world, this is"
                    ["2.1 Methods"]])
           = Returned (before ++ emitted)
        /\ emitted <> []).
Proof.
  split.
  - destruct (page_coverage refusing_encode char_decode length_digest 5 2 3
                eq_refl refusing_decode_encode char_blank_join
                (firstn 1 sample_pages) (mkPageText "/path/to/MyPaper.pdf" 2 "   " [])
                (skipn 2 sample_pages) ltac:(lia)) as [_ [_ H]].
    destruct (ChunkingChecked.chunk_pages refusing_encode char_decode length_digest
                5 2 3 20
                (firstn 1 sample_pages
                 ++ mkPageText "/path/to/MyPaper.pdf" 2 "   " [] :: skipn 2 sample_pages))
      as [result| |] eqn:E;
      [|vm_compute in E; discriminate E|vm_compute in E; discriminate E].
    destruct (H 20%nat result E)
      as [tokens [before [emitted [after [Ht [H1 [H2 [H3 [H4 _]]]]]]]]].
    exists before, emitted. split; [exact H1|]. split; [exact H2|].
    apply H4; [reflexivity|].
    vm_compute in Ht. injection Ht as <-. repeat constructor.
  - destruct (page_coverage refusing_encode char_decode length_digest 5 2 3
                eq_refl refusing_decode_encode char_blank_join
                (firstn 2 sample_pages)
                (mkPageText "/path/to/MyPaper.pdf" 3 "hello world, this is"
                   ["2.1 Methods"])
                [] ltac:(lia)) as [_ [_ H]].
    destruct (ChunkingChecked.chunk_pages refusing_encode char_decode length_digest
                5 2 3 20
                (firstn 2 sample_pages
                 ++ [mkPageText "/path/to/MyPaper.pdf" 3 "hello world, this is"
                       ["2.1 Methods"]]))
      as [result| |] eqn:E;
      [|vm_compute in E; discriminate E|vm_compute in E; discriminate E].
    destruct (H 20%nat result E)
      as [tokens [before [emitted [after [Ht [H1 [H2 [H3 [_ H5]]]]]]]]].
    exists before, emitted. split; [exact H1|]. split; [now rewrite <- H2|].
    apply H5. reflexivity.
Defined.

(** C7, counterexample: a page whose text is a special token of the
    encoding.  [enc.encode] is called with the library's defaults, under
    which it raises [ValueError] on such a text, whatever the vocabulary
    makes of other texts; the parameters are ordinary ones.  The page has
    visible text, and the call yields no chunk for it: it returns nothing
    at all. *)
Lemma special_token_page_refused :
  let page := mkPageText "paper.pdf" 1 "<|endoftext|>" [] in
  (0 <= 60 < 350 /\ 350 >= 1)
  /\ is_blank (text page) = false
  /\ ChunkingChecked.chunk_pages refusing_encode char_decode length_digest
       350 60 120 1000 [page] = ValueError.
Proof. cbn zeta. split; [lia|]. split; vm_compute; reflexivity. Qed.

End CoverageFacts.

Module PipelineFacts.
Import PyStr Citations Router Retrieval Config Pipeline Samples.

(** A cited answer comes back as grounded, with the one citation that
    resolves; the unknown id is dropped. *)
Example answer_with_citation :
  answer_question sample_cfg sample_prompts sample_retrieve llm_cites "What is Adam?"
  = mkAnswerResult "qa"
      "Adam adapts learning rates [abc123def456 p.1], see also [ffffffffffff p.2]."
      false
      [mkRetrievedPayload (Some "abc123def456") (Some "a.pdf") (Some 1%Z) (Some "Intro")
         (sf_of 4503599627370496 (-53)) "text"]
      [mkCitedPayload "abc123def456" (Some "a.pdf") (Some 1%Z) (Some "Intro") "text"].
Proof. vm_compute. reflexivity. Qed.

(** C2, at the failing input: the model answers with exactly the abstention
    sentence; the result carries that sentence with [abstained = false]. *)
Theorem abstention_sentence_not_flagged :
  answer_question sample_cfg sample_prompts sample_retrieve llm_abstains "What is Adam?"
  = mkAnswerResult "qa" ABSTAIN_SENTENCE false
      [mkRetrievedPayload (Some "abc123def456") (Some "a.pdf") (Some 1%Z) (Some "Intro")
         (sf_of 4503599627370496 (-53)) "text"]
      [].
Proof. vm_compute. reflexivity. Qed.

(** C1, at the failing input: a result with [abstained = false] and no
    cited chunk, from a model answer that strips to the abstention
    sentence. *)
Theorem grounding_invariant_broken :
  let result := answer_question sample_cfg sample_prompts sample_retrieve
                  llm_abstains_padded "Compare Adam vs SGD" in
  abstained result = false /\ cited_chunks result = [] /\ ar_mode result = "compare".
Proof. vm_compute. repeat split. Qed.

(** *** What does hold of every result *)

Lemma fold_insert_lookup (l : list Retrieved) (m : gmap (option string) Document) k d :
  fold_left (fun m r => <[md_chunk_id (metadata (doc r)) := doc r]> m) l m !! k = Some d ->
  m !! k = Some d \/ exists r, In r l /\ md_chunk_id (metadata (doc r)) = k /\ doc r = d.
Proof.
  revert m. induction l as [|r l IH]; intros m H; [now left|].
  cbn [fold_left] in H. apply IH in H as [H|[r' [Hin [Hk Hd]]]].
  - destruct (decide (md_chunk_id (metadata (doc r)) = k)) as [E|E].
    + rewrite E, lookup_insert_eq in H. injection H as <-.
      right. exists r. split; [now left | auto].
    + rewrite lookup_insert_ne in H by exact E. now left.
  - right. exists r'. split; [now right | auto].
Qed.

Lemma retrieved_map_lookup (l : list Retrieved) k d :
  retrieved_map l !! k = Some d ->
  exists r, In r l /\ md_chunk_id (metadata (doc r)) = k /\ doc r = d.
Proof.
  intros H. apply fold_insert_lookup in H as [H|H]; [|exact H].
  rewrite lookup_empty in H. discriminate.
Qed.

Lemma cited_payload_resolves (l : list Retrieved) (ids : gset string) c :
  In c (cited_payload l ids) ->
  c_chunk_id c ∈ ids
  /\ exists r, In r l /\ md_chunk_id (metadata (doc r)) = Some (c_chunk_id c)
               /\ c_text c = page_content (doc r).
Proof.
  unfold cited_payload. rewrite <- list_elem_of_In, list_elem_of_omap.
  intros [cid [Hin Hc]]. apply elem_of_elements in Hin.
  destruct (retrieved_map l !! Some cid) as [d|] eqn:E; [|discriminate].
  injection Hc as <-. cbn [c_chunk_id c_text]. split; [exact Hin|].
  apply retrieved_map_lookup in E as [r [Hr [Hk Hd]]].
  exists r. subst d. auto.
Qed.

(** The part of the grounding invariant that every run keeps: an abstaining
    result has no citation and the fixed sentence as answer; every cited
    chunk is one of the retrieved chunks, with its text; and a result that
    does not abstain has a cited chunk unless the model's answer strips to
    the abstention sentence. *)
Lemma grounding_of_every_result cfg prompts retrieve llm question :
  let result := answer_question cfg prompts retrieve llm question in
  (abstained result = true ->
     cited_chunks result = [] /\ answer result = ABSTAIN_SENTENCE)
  /\ (forall c, In c (cited_chunks result) ->
        In (Some (c_chunk_id c)) (map r_chunk_id (retrieved result)))
  /\ (abstained result = false ->
        cited_chunks result <> [] \/ strip (answer result) = ABSTAIN_SENTENCE).
Proof.
  cbn zeta. unfold answer_question.
  destruct (should_abstain (retrieve question) (min_similarity cfg)).
  { cbn. repeat split; try discriminate; intros c []. }
  set (response := llm _).
  assert (Hres : forall c,
            In c (cited_payload (retrieve question)
                    (citation_ids (extract_citations response))) ->
            In (Some (c_chunk_id c))
               (map r_chunk_id (map _doc_to_payload (retrieve question)))).
  { intros c Hc. apply cited_payload_resolves in Hc as [_ [r [Hr [Hk _]]]].
    rewrite List.map_map. apply List.in_map_iff. exists r. split; [exact Hk | exact Hr]. }
  remember (cited_payload (retrieve question)
              (citation_ids (extract_citations response))) as payload eqn:Ep.
  destruct (String.eqb_spec (strip response) ABSTAIN_SENTENCE) as [Es|Es];
    cbn [negb andb].
  - cbn. repeat split; try discriminate; [exact Hres | now right].
  - destruct payload as [|c0 rest]; cbn.
    + repeat split; try discriminate; intros c [].
    + repeat split; try discriminate; [exact Hres | now left].
Qed.

End PipelineFacts.

(** * Further properties of the code *)

Module CitationsMore.
Import PyStr Citations PyStrFacts CitationsFacts.
#[local] Open Scope list_scope.

#[local] Arguments String.append !s1 s2 : simpl nomatch.

Lemma take_class_spec p n s a b :
  take_class p n s = Some (a, b) ->
  s = a +:+ b /\ String.length a = n /\ all_chars p a = true.
Proof.
  revert s a b. induction n as [|n IH]; intros s a b; cbn [take_class].
  - intros [= <- <-]. auto.
  - destruct s as [|c s]; [discriminate|].
    destruct (p c) eqn:Hc; [|discriminate].
    destruct (take_class p n s) as [[a' b']|] eqn:E; [|discriminate].
    intros [= <- <-]. destruct (IH _ _ _ E) as [-> [Hl Ha]].
    cbn [String.append String.length all_chars]. rewrite Hc, Hl, Ha. auto.
Qed.

Lemma span_spec p s : s = fst (span p s) +:+ snd (span p s).
Proof.
  induction s as [|c s IH]; [reflexivity|]. cbn [span].
  destruct (p c); [|reflexivity].
  destruct (span p s); cbn [fst snd String.append] in *. now rewrite <- IH.
Qed.

Lemma expect_spec c s r : expect c s = Some r -> s = String c r.
Proof.
  destruct s as [|c' s]; [discriminate|]. cbn [expect].
  destruct (Ascii.eqb_spec c' c); [|discriminate]. intros [= <-]. now subst.
Qed.

(** A successful attempt of the pattern, taken apart. *)
Lemma CIT_RE_match_spec s cid ds len :
  CIT_RE_match s = Some (cid, ds, len) ->
  exists ws rest,
    s = "[" +:+ cid +:+ ws +:+ "p." +:+ ds +:+ "]" +:+ rest
    /\ is_chunk_id cid = true
    /\ all_chars is_space ws = true /\ truthy ws = true
    /\ all_chars is_digit ds = true /\ truthy ds = true
    /\ len = (16 + String.length ws + String.length ds)%nat.
Proof.
  unfold CIT_RE_match.
  destruct (expect "[" s) as [s1|] eqn:E1; [|discriminate].
  destruct (take_class is_hex_lower 12 s1) as [[cid' s2]|] eqn:E2; [|discriminate].
  pose proof (span_spec is_space s2) as Hs2.
  pose proof (span_all_chars is_space s2) as Hws.
  destruct (span is_space s2) as [ws s3]. cbn [fst snd] in *.
  destruct (truthy ws) eqn:Tw; cbn [negb]; [|discriminate].
  destruct (expect "p" s3) as [s3'|] eqn:E3; [|discriminate].
  destruct (expect "." s3') as [s4|] eqn:E4; [|discriminate].
  pose proof (span_spec is_digit s4) as Hs4.
  pose proof (span_all_chars is_digit s4) as Hds.
  destruct (span is_digit s4) as [ds' s5]. cbn [fst snd] in *.
  destruct (truthy ds') eqn:Td; cbn [negb]; [|discriminate].
  destruct (expect "]" s5) as [rest|] eqn:E5; [|discriminate].
  intros [= <- <- <-].
  apply expect_spec in E1, E3, E4, E5.
  destruct (take_class_spec _ _ _ _ _ E2) as [H2 [Hl Hh]].
  exists ws, rest. subst s s1 s2 s3 s3' s4 s5.
  split; [reflexivity|].
  split; [unfold is_chunk_id; now rewrite Hl, Hh|].
  repeat split; auto. lia.
Qed.

Lemma int_of_digits_nonneg ds n : int_of_digits ds = Some n -> (0 <= n)%Z.
Proof.
  unfold int_of_digits. destruct ds; [discriminate|].
  destruct (NilEmpty.uint_of_string _) as [u|]; [|discriminate].
  intros [= <-]. unfold Z.of_uint. lia.
Qed.

(** Whatever the text, each marker that [extract_citations] returns has a
    chunk id of exactly 12 lowercase hexadecimal digits and a page number
    that is not negative: malformed near-matches never come out. *)
Theorem extracted_markers_well_formed (text : string) (c : CitedChunk) :
  In c (extract_citations text) ->
  is_chunk_id (chunk_id c) = true /\ (0 <= page_number c)%Z.
Proof.
  unfold extract_citations. generalize 0%nat as k. revert c.
  induction text as [|x text IH]; intros c k; [intros []|].
  cbn [finditer_from]. destruct k as [|k]; [|apply IH].
  destruct (CIT_RE_match (String x text)) as [[[cid ds] len]|] eqn:E; [|apply IH].
  destruct (CIT_RE_match_spec _ _ _ _ E) as [ws [rest [_ [Hid _]]]].
  destruct (int_of_digits ds) as [n|] eqn:En; [|apply IH].
  intros [<-|Hin]; [|eapply IH, Hin].
  cbn [chunk_id page_number]. split; [exact Hid | eapply int_of_digits_nonneg, En].
Qed.

Lemma extracted_markers_well_formed_witness :
  is_chunk_id "abc123def456" = true /\ (0 <= 5)%Z.
Proof.
  apply (extracted_markers_well_formed
           "Valid [abc123def456 p.5]. Invalid [abc p.5]. Also invalid [abc123def456]."
           (mkCitedChunk "abc123def456" 5)).
  vm_compute. left. reflexivity.
Defined.

Lemma CIT_RE_match_length s cid ds len :
  CIT_RE_match s = Some (cid, ds, len) -> (1 <= len <= String.length s)%nat.
Proof.
  intros H. destruct (CIT_RE_match_spec _ _ _ _ H)
    as [ws [rest [-> [Hid [_ [_ [_ [_ ->]]]]]]]].
  unfold is_chunk_id in Hid. apply andb_prop in Hid as [Hl _].
  apply Nat.eqb_eq in Hl.
  cbn [String.append String.length]. rewrite length_append, Hl.
  rewrite length_append. cbn [String.append String.length].
  rewrite length_append. cbn [String.length]. lia.
Qed.

(** A scan of [pre] followed by a bracket: the matches of [pre], then the
    scan from the bracket on. *)
Lemma finditer_before_bracket pre z k :
  (k <= String.length pre)%nat ->
  finditer_from k (pre +:+ String "[" z)
  = finditer_from k pre ++ finditer_from 0 (String "[" z).
Proof.
  revert k. induction pre as [|c pre IH]; intros k Hk.
  - cbn [String.length] in Hk. replace k with 0%nat by lia. reflexivity.
  - change (String c pre +:+ String "[" z) with (String c (pre +:+ String "[" z)).
    cbn [finditer_from]. cbn [String.length] in Hk.
    destruct k as [|k]; [|apply IH; lia].
    change (String c (pre +:+ String "[" z)) with (String c pre +:+ String "[" z).
    rewrite CIT_RE_match_before_bracket by discriminate.
    destruct (CIT_RE_match (String c pre)) as [[[cid ds] len]|] eqn:E;
      [|apply IH; lia].
    pose proof (CIT_RE_match_length _ _ _ _ E) as Hlen. cbn [String.length] in Hlen.
    destruct (int_of_digits ds); cbn [List.app]; rewrite IH by lia; reflexivity.
Qed.

Lemma finditer_embedded cid n pre post :
  is_chunk_id cid = true -> (0 <= n)%Z ->
  finditer_from 0 (pre +:+ format_citation cid n +:+ post)
  = finditer_from 0 pre ++ mkCitedChunk cid n :: finditer_from 0 post.
Proof.
  intros Hid Hn.
  pose proof (CIT_RE_match_format cid n post Hid Hn) as Hm.
  pose proof (finditer_skip (format_citation cid n) post) as Hs.
  remember (format_citation cid n) as f eqn:Ef.
  assert (Hf : exists f', f = String "[" f') by (subst f; eexists; reflexivity).
  destruct Hf as [f' ->].
  change (String "[" f' +:+ post) with (String "[" (f' +:+ post)) in *.
  rewrite finditer_before_bracket by lia. f_equal.
  cbn [finditer_from]. rewrite Hm, (int_of_digits_str_of_int n Hn).
  f_equal. cbn [String.length] in *. rewrite Nat.sub_succ, Nat.sub_0_r.
  cbn [finditer_from] in Hs. exact Hs.
Qed.

(** Parsing goes through an embedded marker: the markers found in
    [pre ++ format_citation id n ++ post] are those of [pre], then [(id, n)],
    then those of [post], in this order and with duplicates kept. *)
Theorem extract_citations_embedded (cid : string) (n : Z) (pre post : string) :
  is_chunk_id cid = true -> (0 <= n)%Z ->
  extract_citations (pre +:+ format_citation cid n +:+ post)
  = extract_citations pre ++ mkCitedChunk cid n :: extract_citations post.
Proof. intros Hid Hn. unfold extract_citations. now apply finditer_embedded. Qed.

Lemma extract_citations_embedded_witness :
  extract_citations
    ("First [abc123def456 p.5]. Repeated " +:+ format_citation "abc123def456" 5
     +:+ " and [def789abc012 p.10].")
  = [mkCitedChunk "abc123def456" 5; mkCitedChunk "abc123def456" 5;
     mkCitedChunk "def789abc012" 10].
Proof.
  rewrite (extract_citations_embedded "abc123def456" 5) by (reflexivity || lia).
  reflexivity.
Defined.

End CitationsMore.

Module RouterMore.
Import PyStr Router PyStrFacts RouterFacts.

#[local] Arguments String.append !s1 s2 : simpl nomatch.

Lemma re_search_leading_space alts W s :
  all_chars is_space W = true -> re_search alts (W +:+ s) = re_search alts s.
Proof.
  intros HW. induction W as [|c W IH]; [reflexivity|].
  cbn [all_chars] in HW. apply andb_prop in HW as [Hc HW].
  rewrite <- (IH HW). unfold re_search.
  change (String c W +:+ s) with (String c (W +:+ s)).
  cbn [search_from head]. unfold at_boundary. cbn [word_opt].
  rewrite (space_not_word c Hc). cbn [xorb andb orb].
  apply search_from_prev_ext. cbn [word_opt]. now rewrite (space_not_word c Hc).
Qed.

(** Whitespace around a question never changes its route, and neither does
    the [strip] that the router applies first. *)
Theorem route_query_ignores_padding (W1 W2 q : string) :
  all_chars is_space W1 = true -> all_chars is_space W2 = true ->
  route_query (W1 +:+ q +:+ W2) = route_query q
  /\ route_query (strip q) = route_query q.
Proof.
  intros H1 H2. rewrite !route_query_cases. split.
  - assert (E : forall alts, re_search alts (W1 +:+ q +:+ W2) = re_search alts q).
    { intros alts. rewrite re_search_leading_space by exact H1.
      unfold re_search. now apply search_from_trailing_space. }
    now rewrite !E.
  - now rewrite !re_search_strip.
Qed.

Lemma route_query_ignores_padding_witness :
  route_query ("  " +:+ "Compare Adam vs SGD" +:+ "   ") = mkRoute "compare".
Proof.
  rewrite (proj1 (route_query_ignores_padding "  " "   " "Compare Adam vs SGD"
                    eq_refl eq_refl)).
  reflexivity.
Defined.

(** *** Questions of a single word *)

Lemma all_chars_append p a b :
  all_chars p (a +:+ b) = all_chars p a && all_chars p b.
Proof.
  induction a as [|c a IH]; [reflexivity|]. cbn [String.append all_chars].
  now rewrite IH, andb_assoc.
Qed.

Lemma all_word_lower_str w : all_chars is_word (lower_str w) = all_chars is_word w.
Proof.
  induction w as [|c w IH]; [reflexivity|]. cbn [lower_str all_chars].
  now rewrite is_word_lower, IH.
Qed.

Lemma last_or_all_word prev s :
  all_chars is_word s = true ->
  word_opt (last_or prev s) = if truthy s then true else word_opt prev.
Proof.
  revert prev. induction s as [|c s IH]; intros prev H; [reflexivity|].
  cbn [all_chars] in H. apply andb_prop in H as [Hc Hs].
  cbn [last_or truthy]. rewrite (IH (Some c) Hs). cbn [word_opt].
  rewrite Hc. now destruct (truthy s).
Qed.

Lemma head_all_word s :
  all_chars is_word s = true -> word_opt (head s) = truthy s.
Proof.
  destruct s as [|c s]; [reflexivity|]. cbn [all_chars head word_opt truthy].
  intros H. now apply andb_prop in H as [-> _].
Qed.

(** In a text made of word characters only, a keyword occurs as a whole
    word exactly when it is the whole text, up to letter case. *)
Lemma single_word_occurrence kw q :
  all_chars is_word q = true -> kw <> "" ->
  (contains_keyword kw q <-> lower_str q = kw).
Proof.
  intros Hq Hkw. unfold contains_keyword, occurs_from. split.
  - intros [pre [w [post [-> [Hw [Hb1 Hb2]]]]]].
    rewrite !all_chars_append in Hq.
    apply andb_prop in Hq as [Hpre Hq]. apply andb_prop in Hq as [Hwd Hpost].
    assert (Tw : truthy w = true) by (destruct w; [now subst kw | reflexivity]).
    unfold at_boundary in Hb1, Hb2.
    rewrite (last_or_all_word _ w Hwd), Tw in Hb2.
    rewrite (head_all_word post Hpost) in Hb2.
    assert (Hhd : word_opt (head (w +:+ post)) = true)
      by (destruct w; [discriminate|]; cbn in *; now apply andb_prop in Hwd as [-> _]).
    rewrite Hhd, (last_or_all_word None pre Hpre) in Hb1.
    destruct pre; [|discriminate Hb1]. destruct post; [|discriminate Hb2].
    cbn [String.append]. now rewrite append_nil_r.
  - intros <-. exists "", q, "". rewrite append_nil_r.
    assert (Tq : truthy q = true) by (destruct q; [now contradiction Hkw | reflexivity]).
    unfold at_boundary. cbn [last_or String.append head word_opt].
    rewrite (head_all_word q Hq), (last_or_all_word None q Hq), Tq. auto.
Qed.

Lemma re_search_single_word alts q :
  all_chars is_word q = true -> Forall (fun kw => kw <> "") alts ->
  re_search alts q = existsb (String.eqb (lower_str q)) alts.
Proof.
  intros Hq Halts. apply eq_true_iff_eq.
  rewrite re_search_spec, existsb_exists. unfold contains_any.
  split; intros [kw [Hin H]]; exists kw; (split; [exact Hin|]).
  - apply String.eqb_eq. apply (single_word_occurrence kw q Hq); [|exact H].
    apply (proj1 (List.Forall_forall _ _) Halts kw Hin).
  - apply String.eqb_eq in H. apply (single_word_occurrence kw q Hq); [|exact H].
    apply (proj1 (List.Forall_forall _ _) Halts kw Hin).
Qed.

(** A question that is one word (word characters only) is routed by that
    word alone: it must be one of the single-word keywords, in any letter
    case; a longer word that merely embeds a keyword goes to qa. *)
Theorem route_of_single_word (q : string) :
  all_chars is_word q = true ->
  mode (route_query q) =
  if existsb (String.eqb (lower_str q)) ["verify"; "refute"] then "claim_verify"
  else if existsb (String.eqb (lower_str q))
            ["compare"; "vs"; "versus"; "difference"; "differences"; "similarities"]
       then "compare"
  else if existsb (String.eqb (lower_str q)) ["architecture"; "pipeline"]
       then "method_card"
  else "qa".
Proof.
  intros Hq. rewrite route_query_cases.
  rewrite !(re_search_single_word _ q Hq) by (repeat constructor; discriminate).
  assert (Hnw : forall kw, all_chars is_word kw = false ->
                  String.eqb (lower_str q) kw = false).
  { intros kw Hk. apply String.eqb_neq. intros E.
    rewrite <- E, all_word_lower_str, Hq in Hk. discriminate. }
  unfold _VERIFY_PAT, _COMPARE_PAT, _METHOD_PAT. cbn [existsb].
  rewrite !(Hnw "is it true"), !(Hnw "does the paper claim"), !(Hnw "evidence for"),
    !(Hnw "support the claim"), !(Hnw "vs."), !(Hnw "method card"),
    !(Hnw "summarize method"), !(Hnw "training objective") by reflexivity.
  cbn [orb]. rewrite !orb_false_r.
  destruct (String.eqb (lower_str q) "verify"), (String.eqb (lower_str q) "refute");
    cbn [orb mode]; try reflexivity.
  destruct (_ || _); [reflexivity|].
  destruct (_ || _); reflexivity.
Qed.

Lemma route_of_single_word_witness :
  mode (route_query "Verifying") = "qa" /\ mode (route_query "VERSUS") = "compare".
Proof.
  split.
  - rewrite (route_of_single_word "Verifying") by reflexivity. reflexivity.
  - rewrite (route_of_single_word "VERSUS") by reflexivity. reflexivity.
Defined.

End RouterMore.

Module RetrieverFacts.
Import Retrieval Retriever Samples.

(** A distance that is not above zero (negative, a zero of either sign, or
    NaN) is clamped: its similarity is exactly 1.0. *)
Theorem similarity_of_nonpositive_distance (distance : spec_float) :
  float_gt distance float_zero = false ->
  _distance_to_similarity distance = float_one.
Proof.
  intros H. unfold _distance_to_similarity, py_max2. rewrite H.
  vm_compute. reflexivity.
Qed.

Lemma similarity_of_nonpositive_distance_witness :
  _distance_to_similarity S754_nan = float_one
  /\ _distance_to_similarity (S754_finite true 4503599627370496 (-52)) = float_one.
Proof.
  split; apply similarity_of_nonpositive_distance; reflexivity.
Defined.

Lemma find_app {A} (f : A -> bool) (l1 l2 : list A) :
  find f (l1 ++ l2) = match find f l1 with Some x => Some x | None => find f l2 end.
Proof.
  induction l1 as [|x l1 IH]; [reflexivity|]. cbn [List.app find].
  destruct (f x); [reflexivity | exact IH].
Qed.

Lemma cand_fold_lookup (l : list (Document * spec_float))
    (m : gmap (option string) spec_float) key :
  fold_left (fun m ds => <[doc_chunk_id (fst ds) := _distance_to_similarity (snd ds)]> m)
    l m !! key
  = match find (fun ds => bool_decide (doc_chunk_id (fst ds) = key)) (rev l) with
    | Some ds => Some (_distance_to_similarity (snd ds))
    | None => m !! key
    end.
Proof.
  revert m. induction l as [|ds l IH]; intros m; [reflexivity|].
  cbn [fold_left rev]. rewrite IH, find_app.
  destruct (find _ (rev l)); [reflexivity|].
  cbn [find]. destruct (bool_decide_reflect (doc_chunk_id (fst ds) = key)) as [E|E].
  - now rewrite E, lookup_insert_eq.
  - now rewrite lookup_insert_ne.
Qed.

(** [retrieve] returns the store's documents in the store's order: the
    similarity search's without diversity, the diversity search's with it.
    With diversity, each document gets the similarity of the last candidate
    that has its chunk id, and 0.0 when no candidate has it. *)
Theorem retrieve_documents_and_scores vs query k use_mmr fetch_k lambda_mult :
  map doc (retrieve vs query k use_mmr fetch_k lambda_mult)
  = (if use_mmr then max_marginal_relevance_search vs query k fetch_k lambda_mult
     else map fst (similarity_search_with_score vs query k))
  /\ (use_mmr = false ->
      map score (retrieve vs query k use_mmr fetch_k lambda_mult)
      = map (fun ds => _distance_to_similarity (snd ds))
          (similarity_search_with_score vs query k))
  /\ (use_mmr = true ->
      forall r, In r (retrieve vs query k use_mmr fetch_k lambda_mult) ->
      score r =
      match find (fun ds => bool_decide (doc_chunk_id (fst ds) = doc_chunk_id (doc r)))
                 (rev (similarity_search_with_score vs query fetch_k)) with
      | Some ds => _distance_to_similarity (snd ds)
      | None => float_zero
      end).
Proof.
  unfold retrieve. destruct use_mmr.
  - split; [|split; [discriminate|]].
    + rewrite List.map_map. cbn [doc]. apply List.map_id.
    + intros _ r Hr. apply List.in_map_iff in Hr as [d [<- _]]. cbn [score doc].
      unfold cand_map. rewrite cand_fold_lookup, lookup_empty.
      now destruct (find _ _).
  - split; [|split; [|discriminate]].
    + now rewrite List.map_map.
    + intros _. now rewrite List.map_map.
Qed.

End RetrieverFacts.

Module ChunkingMore.
Import PyStr Chunking ChunkingWords ChunkingFacts.
#[local] Open Scope Z_scope.
#[local] Open Scope list_scope.

(** *** [strip] applied twice *)

Lemma rstrip_idempotent s : rstrip (rstrip s) = rstrip s.
Proof.
  induction s as [|c s IH]; [reflexivity|]. cbn [rstrip].
  destruct (rstrip s) as [|c' r] eqn:E.
  - destruct (is_space c) eqn:Hc; [reflexivity|]. cbn [rstrip]. now rewrite Hc.
  - cbn [rstrip]. cbn [rstrip] in IH. fold rstrip in IH.
    change (rstrip (String c' r)) with (rstrip (String c' r)) in IH.
    rewrite IH. reflexivity.
Qed.

Lemma rstrip_nonspace_head c r :
  is_space c = false -> rstrip (String c r) = String c (rstrip r).
Proof. intros Hc. cbn [rstrip]. destruct (rstrip r); [now rewrite Hc | reflexivity]. Qed.

Lemma lstrip_rstrip_lstrip s : lstrip (rstrip (lstrip s)) = rstrip (lstrip s).
Proof.
  induction s as [|c s IH]; [reflexivity|]. cbn [lstrip].
  destruct (is_space c) eqn:Hc; [exact IH|].
  rewrite (rstrip_nonspace_head c s Hc). cbn [lstrip]. now rewrite Hc.
Qed.

Lemma strip_idempotent s : strip (strip s) = strip s.
Proof. unfold strip. now rewrite lstrip_rstrip_lstrip, rstrip_idempotent. Qed.

Section Windows.

Context {token : Type}.
Variable encode : string -> list token.
Variable decode : list token -> string.
Variable sha1_hexdigest : list ascii -> string.
Variable chunk_tokens chunk_overlap_tokens min_chunk_tokens : Z.

#[local] Abbreviation window_end := (window_end chunk_tokens min_chunk_tokens).
#[local] Abbreviation window_step :=
  (window_step decode sha1_hexdigest chunk_tokens chunk_overlap_tokens min_chunk_tokens).
#[local] Abbreviation while_loop :=
  (while_loop decode sha1_hexdigest chunk_tokens chunk_overlap_tokens min_chunk_tokens).
#[local] Abbreviation chunk_page :=
  (chunk_page encode decode sha1_hexdigest chunk_tokens chunk_overlap_tokens
     min_chunk_tokens).
#[local] Abbreviation chunk_pages_from :=
  (chunk_pages_from encode decode sha1_hexdigest chunk_tokens chunk_overlap_tokens
     min_chunk_tokens).
#[local] Abbreviation chunk_pages :=
  (chunk_pages encode decode sha1_hexdigest chunk_tokens chunk_overlap_tokens
     min_chunk_tokens).

(** Every window that is not the last of its page holds exactly
    [max(chunk_tokens, min_chunk_tokens)] tokens, so more than
    [chunk_tokens] when [min_chunk_tokens] is the larger; the last window
    holds at most that many. *)
Theorem window_size (tokens : list token) (start : Z) :
  1 <= chunk_tokens -> 0 <= start < len tokens ->
  let window := slice tokens start (window_end tokens start) in
  len window <= Z.max chunk_tokens min_chunk_tokens
  /\ (window_end tokens start <> len tokens ->
      len window = Z.max chunk_tokens min_chunk_tokens).
Proof.
  intros Hct Hs. cbn zeta.
  destruct (window_end_bounds chunk_tokens min_chunk_tokens tokens start Hct Hs)
    as [Hb _].
  rewrite len_slice by lia.
  unfold Chunking.window_end in *. set (n := len tokens) in *.
  destruct (Z.eqb_spec (Z.min (start + chunk_tokens) n) n) as [E|E].
  - rewrite andb_false_r in *. lia.
  - rewrite andb_true_r in *. rewrite len_slice in * by (fold n; lia).
    destruct (Z.ltb_spec (Z.min (start + chunk_tokens) n - start) min_chunk_tokens);
      lia.
Qed.

(** *** An overlap that is not below the window *)

Lemma while_loop_stuck fuel page section (tokens : list token) st :
  1 <= chunk_tokens ->
  Z.max chunk_tokens min_chunk_tokens <= chunk_overlap_tokens ->
  Z.max chunk_tokens min_chunk_tokens < len tokens ->
  while_loop fuel page section tokens 0 st = None.
Proof.
  intros Hct Hov Hn. revert st.
  induction fuel as [|fuel IH]; intros st; cbn [Chunking.while_loop];
    destruct (Z.ltb_spec 0 (len tokens)); try lia; [reflexivity|].
  destruct (window_size tokens 0 Hct ltac:(lia)) as [_ Hw].
  destruct (window_end_bounds chunk_tokens min_chunk_tokens tokens 0 Hct ltac:(lia))
    as [Hb _].
  rewrite len_slice in Hw by lia.
  assert (He : window_end tokens 0 = Z.max chunk_tokens min_chunk_tokens).
  { destruct (Z.eq_dec (window_end tokens 0) (len tokens)) as [E|E]; [|lia].
    exfalso. unfold Chunking.window_end in E.
    destruct (Z.eqb_spec (Z.min (0 + chunk_tokens) (len tokens)) (len tokens));
      [lia|]. rewrite andb_true_r in E.
    destruct (_ <? _); lia. }
  unfold Chunking.window_step. rewrite He.
  destruct (Z.eqb_spec (Z.max chunk_tokens min_chunk_tokens) (len tokens)); [lia|].
  replace (Z.max 0 (Z.max chunk_tokens min_chunk_tokens - chunk_overlap_tokens))
    with 0 by lia.
  apply IH.
Qed.

(** With [chunk_overlap_tokens >= max(chunk_tokens, min_chunk_tokens)] the
    chunker never returns on a document that has a page longer than one
    window: [start] goes back to 0 after every pass.  Nothing in the loop
    guards against such parameters. *)
Theorem overlap_not_below_window_never_returns (pages : list PageText) (page : PageText) :
  1 <= chunk_tokens ->
  Z.max chunk_tokens min_chunk_tokens <= chunk_overlap_tokens ->
  In page pages ->
  Z.max chunk_tokens min_chunk_tokens < len (encode (text page)) ->
  forall fuel, chunk_pages fuel pages = None.
Proof.
  intros Hct Hov Hin Hn fuel. unfold Chunking.chunk_pages.
  assert (H : forall acc, chunk_pages_from fuel acc pages = None);
    [|now rewrite H].
  induction pages as [|p pages IH]; [destruct Hin|]. intros acc.
  cbn [Chunking.chunk_pages_from].
  destruct Hin as [->|Hin].
  - unfold Chunking.chunk_page.
    destruct (encode (text page)) as [|t ts] eqn:E; [unfold len in Hn; cbn in Hn; lia|].
    now rewrite (while_loop_stuck fuel page _ (t :: ts) (snd acc) Hct Hov Hn).
  - destruct (chunk_page fuel acc p); [apply IH, Hin | reflexivity].
Qed.

End Windows.


Section Pages.

Context {token : Type}.
Variable encode : string -> list token.
Variable decode : list token -> string.
Variable sha1_hexdigest : list ascii -> string.
Variable chunk_tokens chunk_overlap_tokens min_chunk_tokens : Z.

#[local] Abbreviation emit := (emit sha1_hexdigest).
#[local] Abbreviation while_loop :=
  (while_loop decode sha1_hexdigest chunk_tokens chunk_overlap_tokens min_chunk_tokens).
#[local] Abbreviation chunk_page :=
  (chunk_page encode decode sha1_hexdigest chunk_tokens chunk_overlap_tokens
     min_chunk_tokens).
#[local] Abbreviation chunk_pages_from :=
  (chunk_pages_from encode decode sha1_hexdigest chunk_tokens chunk_overlap_tokens
     min_chunk_tokens).
#[local] Abbreviation chunk_pages :=
  (chunk_pages encode decode sha1_hexdigest chunk_tokens chunk_overlap_tokens
     min_chunk_tokens).

(** The loop of one page emits only texts that are stripped decodings of a
    token window and are not empty. *)
Lemma while_loop_emits (P : LoopState -> Prop) page section :
  (forall (w : list token) st,
     truthy (strip (decode w)) = true -> P st ->
     P (emit page section (strip (decode w)) st)) ->
  forall fuel (tokens : list token) start st st',
    P st -> while_loop fuel page section tokens start st = Some st' -> P st'.
Proof.
  intros Hemit. induction fuel as [|fuel IH];
    intros tokens start st st' HP; cbn [Chunking.while_loop];
    destruct (start <? len tokens); try discriminate; try (intros [= <-]; exact HP).
  unfold Chunking.window_step.
  set (w := slice tokens start _).
  assert (HP' : P (if truthy (strip (decode w))
                   then emit page section (strip (decode w)) st else st))
    by (destruct (truthy (strip (decode w))) eqn:E; auto).
  destruct (_ =? len tokens).
  - intros [= <-]. exact HP'.
  - apply IH. exact HP'.
Qed.

Lemma emit_cut_from page section text st :
  exists c, chunks (emit page section text st) = chunks st ++ [c]
            /\ cut_from page section c /\ chunk_text c = text.
Proof.
  unfold Chunking.emit. cbn [chunks]. eexists. split; [reflexivity|].
  unfold cut_from. cbn. auto.
Qed.

Lemma chunk_page_emits fuel acc page acc' :
  chunk_page fuel acc page = Some acc' ->
  fst acc' = _pick_section_name (fst acc) (detected_headings page)
  /\ exists emitted,
       chunks (snd acc') = chunks (snd acc) ++ emitted
       /\ Forall (fun c => cut_from page (_clean_heading (fst acc')) c
                           /\ stripped_text c) emitted.
Proof.
  unfold Chunking.chunk_page.
  set (sec := _pick_section_name (fst acc) (detected_headings page)).
  destruct (encode (text page)) as [|t ts].
  - intros [= <-]. split; [reflexivity|]. exists []. cbn [snd].
    now rewrite List.app_nil_r.
  - destruct (while_loop fuel page (_clean_heading sec) (t :: ts) 0 (snd acc))
      as [st1|] eqn:E; [|discriminate].
    intros [= <-]. split; [reflexivity|]. cbn [fst snd].
    eapply (while_loop_emits
             (fun st => exists emitted,
                chunks st = chunks (snd acc) ++ emitted
                /\ Forall (fun c => cut_from page (_clean_heading sec) c
                                    /\ stripped_text c) emitted)
             page (_clean_heading sec)); [| |exact E].
    + intros w st Hw [emitted [Hc Hf]].
      destruct (emit_cut_from page (_clean_heading sec) (strip (decode w)) st)
        as [c [Hc' [Hcut Htext]]].
      exists (emitted ++ [c]). split; [now rewrite Hc', Hc, List.app_assoc|].
      apply List.Forall_app. split; [exact Hf|].
      constructor; [|constructor]. split; [exact Hcut|].
      unfold stripped_text. rewrite Htext. split; [exact Hw | apply strip_idempotent].
    + exists []. now rewrite List.app_nil_r.
Qed.

Lemma chunk_pages_from_section fuel pages acc acc' :
  chunk_pages_from fuel acc pages = Some acc' ->
  fst acc' = fold_left (fun sec page => _pick_section_name sec (detected_headings page))
               pages (fst acc).
Proof.
  revert acc. induction pages as [|page pages IH]; intros acc;
    cbn [Chunking.chunk_pages_from fold_left].
  - now intros [= <-].
  - destruct (chunk_page fuel acc page) as [acc1|] eqn:E; [|discriminate].
    intros H. rewrite (IH _ H). now destruct (chunk_page_emits _ _ _ _ E) as [-> _].
Qed.

Lemma chunk_pages_from_stripped fuel pages acc acc' :
  Forall stripped_text (chunks (snd acc)) ->
  chunk_pages_from fuel acc pages = Some acc' ->
  Forall stripped_text (chunks (snd acc')).
Proof.
  revert acc. induction pages as [|page pages IH]; intros acc Hacc;
    cbn [Chunking.chunk_pages_from].
  - now intros [= <-].
  - destruct (chunk_page fuel acc page) as [acc1|] eqn:E; [|discriminate].
    apply IH. destruct (chunk_page_emits _ _ _ _ E) as [_ [emitted [-> Hf]]].
    apply List.Forall_app. split; [exact Hacc|].
    eapply List.Forall_impl; [|exact Hf]. now intros c [_ H].
Qed.

(** The text of every chunk is what is left of a decoded window after
    [strip]: it is never empty and has no whitespace at either end. *)
Theorem chunk_texts_stripped fuel (pages : list PageText) (result : list Chunk) :
  chunk_pages fuel pages = Some result -> Forall stripped_text result.
Proof.
  unfold Chunking.chunk_pages.
  destruct (chunk_pages_from fuel ("Unknown", mkLoopState [] 0) pages)
    as [[sec st]|] eqn:E; [|discriminate].
  intros [= <-].
  apply (chunk_pages_from_stripped fuel pages ("Unknown", mkLoopState [] 0) (sec, st));
    [constructor | exact E].
Qed.

(** The chunks that a page adds to the result carry that page's path, file
    name and page number, and as section the cleaned first heading of the
    page, or, when the page has no heading, the section in force after the
    pages before it. *)
Theorem chunks_carry_page_and_section fuel (pre : list PageText) (page : PageText)
    (before result : list Chunk) :
  chunk_pages fuel pre = Some before ->
  chunk_pages fuel (pre ++ [page]) = Some result ->
  exists emitted,
    result = before ++ emitted
    /\ Forall (cut_from page
                 (_clean_heading
                    (match detected_headings page with
                     | [] => section_after pre
                     | h :: _ => h
                     end))) emitted.
Proof.
  unfold Chunking.chunk_pages.
  rewrite (chunk_pages_from_app encode decode sha1_hexdigest chunk_tokens
             chunk_overlap_tokens min_chunk_tokens).
  destruct (chunk_pages_from fuel ("Unknown", mkLoopState [] 0) pre)
    as [[sec1 st1]|] eqn:E1; [|discriminate].
  intros [= <-]. cbn [Chunking.chunk_pages_from].
  destruct (chunk_page fuel (sec1, st1) page) as [[sec2 st2]|] eqn:E2; [|discriminate].
  intros [= <-].
  destruct (chunk_page_emits _ _ _ _ E2) as [Hsec [emitted [Hc Hf]]].
  cbn [fst snd] in *. exists emitted. split; [exact Hc|].
  pose proof (chunk_pages_from_section _ _ _ _ E1) as Hs1. cbn [fst] in Hs1.
  replace (match detected_headings page with
           | [] => section_after pre
           | h :: _ => h
           end) with sec2.
  - eapply List.Forall_impl; [|exact Hf]. now intros c [H _].
  - rewrite Hsec, Hs1. unfold _pick_section_name, section_after.
    now destruct (detected_headings page).
Qed.

End Pages.


(** *** The properties at work, on the one-character tokenizer *)

Import Samples.

Lemma window_size_witness :
  len (slice (char_encode "abcdefghij") 0
         (window_end 2 4 (char_encode "abcdefghij") 0)) = 4.
Proof.
  apply (window_size 2 4 (char_encode "abcdefghij") 0);
    [lia | vm_compute; split; congruence | vm_compute; discriminate].
Defined.

Lemma overlap_not_below_window_never_returns_witness :
  char_chunk_pages 2 2 0 1000 [mkPageText "paper.pdf" 1 "abcdef" []] = None.
Proof.
  refine (overlap_not_below_window_never_returns char_encode char_decode length_digest
            2 2 0 [mkPageText "paper.pdf" 1 "abcdef" []]
            (mkPageText "paper.pdf" 1 "abcdef" []) _ _ _ _ 1000%nat);
    [lia | lia | now left | vm_compute; reflexivity].
Defined.

Lemma chunk_texts_stripped_witness :
  exists result,
    char_chunk_pages 5 2 3 20 sample_pages = Some result
    /\ Forall stripped_text result.
Proof.
  unfold char_chunk_pages.
  destruct (chunk_pages char_encode char_decode length_digest 5 2 3 20 sample_pages)
    as [result|] eqn:E; [|vm_compute in E; discriminate E].
  exists result. split; [reflexivity|].
  exact (chunk_texts_stripped char_encode char_decode length_digest 5 2 3 20
           sample_pages result E).
Defined.

Lemma chunks_carry_page_and_section_witness :
  exists before result emitted,
    char_chunk_pages 5 2 3 20 (firstn 2 sample_pages) = Some before
    /\ char_chunk_pages 5 2 3 20
         (firstn 2 sample_pages
          ++ [mkPageText "/path/to/MyPaper.pdf" 3 "hello world" []]) = Some result
    /\ result = before ++ emitted
    /\ Forall (cut_from (mkPageText "/path/to/MyPaper.pdf" 3 "hello world" [])
                 "Introduction") emitted.
Proof.
  unfold char_chunk_pages.
  destruct (chunk_pages char_encode char_decode length_digest 5 2 3 20
              (firstn 2 sample_pages)) as [before|] eqn:E1;
    [|vm_compute in E1; discriminate E1].
  destruct (chunk_pages char_encode char_decode length_digest 5 2 3 20
              (firstn 2 sample_pages
               ++ [mkPageText "/path/to/MyPaper.pdf" 3 "hello world" []]))
    as [result|] eqn:E2; [|vm_compute in E2; discriminate E2].
  destruct (chunks_carry_page_and_section char_encode char_decode length_digest 5 2 3
              20 (firstn 2 sample_pages)
              (mkPageText "/path/to/MyPaper.pdf" 3 "hello world" [])
              before result E1 E2) as [emitted [H1 H2]].
  exists before, result, emitted. repeat split; auto.
Defined.

(** *** Identifiers and file names *)

#[local] Arguments String.append !s1 s2 : simpl nomatch.

Lemma utf8_append a b : utf8 (a +:+ b) = utf8 a ++ utf8 b.
Proof.
  induction a as [|c a IH]; [reflexivity|]. cbn [String.append utf8].
  now rewrite IH, List.app_assoc.
Qed.

(** The id is a digest of the five fields written one after the other with
    nothing in between: two chunks whose fields differ but concatenate to
    the same text get the same id, whatever the digest function. *)
Theorem chunk_id_ignores_field_boundaries (sha1_hexdigest : list ascii -> string)
    (path1 path2 : string) (page1 page2 : Z) (section1 section2 : string)
    (idx1 idx2 : Z) (text1 text2 : string) :
  path1 +:+ str_of_int page1 +:+ section1 +:+ str_of_int idx1 +:+ text1
  = path2 +:+ str_of_int page2 +:+ section2 +:+ str_of_int idx2 +:+ text2 ->
  _stable_chunk_id sha1_hexdigest path1 page1 section1 idx1 text1
  = _stable_chunk_id sha1_hexdigest path2 page2 section2 idx2 text2.
Proof.
  intros H. unfold _stable_chunk_id. do 2 f_equal.
  rewrite <- !utf8_append. now rewrite H.
Qed.

Lemma chunk_id_ignores_field_boundaries_witness :
  _stable_chunk_id length_digest "paper.pdf" 1 "2 Methods" 0 "text"
  = _stable_chunk_id length_digest "paper.pdf" 12 " Methods" 0 "text".
Proof. apply chunk_id_ignores_field_boundaries. reflexivity. Defined.

Lemma last_segment_split acc s :
  all_chars (fun c => negb (Ascii.eqb c "/")) acc = true ->
  all_chars (fun c => negb (Ascii.eqb c "/")) (last_segment acc s) = true
  /\ exists dir, acc +:+ s = dir +:+ last_segment acc s
                 /\ (dir = "" \/ exists d, dir = d +:+ "/").
Proof.
  revert acc. induction s as [|c s IH]; intros acc Hacc.
  - cbn [last_segment]. split; [exact Hacc|]. exists "".
    rewrite PyStrFacts.append_nil_r. auto.
  - cbn [last_segment]. destruct (Ascii.eqb_spec c "/") as [->|Hc].
    + destruct (IH "" eq_refl) as [Hs [dir [Hd Hdir]]]. split; [exact Hs|].
      exists (acc +:+ "/" +:+ dir). split.
      * cbn [String.append] in Hd. rewrite !PyStrFacts.append_assoc.
        cbn [String.append]. now rewrite <- Hd.
      * right. destruct Hdir as [->|[d ->]].
        -- exists acc. now rewrite PyStrFacts.append_nil_r.
        -- exists (acc +:+ "/" +:+ d). now rewrite !PyStrFacts.append_assoc.
    + destruct (IH (acc +:+ String c "")) as [Hs [dir [Hd Hdir]]].
      * rewrite RouterMore.all_chars_append, Hacc. cbn [all_chars andb].
        apply Ascii.eqb_neq in Hc. now rewrite Hc.
      * split; [exact Hs|]. exists dir. split; [|exact Hdir].
        rewrite <- Hd, PyStrFacts.append_assoc. reflexivity.
Qed.

(** [source_file], the part of the path after its last slash: it holds no
    slash, and the path is a directory part, empty or ending in a slash,
    followed by it. *)
Theorem source_file_is_last_path_segment (path : string) :
  all_chars (fun c => negb (Ascii.eqb c "/")) (last_segment "" path) = true
  /\ exists dir, path = dir +:+ last_segment "" path
                 /\ (dir = "" \/ exists d, dir = d +:+ "/").
Proof. exact (last_segment_split "" path eq_refl). Qed.

End ChunkingMore.

Module PipelineMore.
Import PyStr Citations Router Retrieval Config Pipeline Samples.
Import PyStrFacts CitationsFacts RetrievalFacts PipelineFacts CitationsMore.
#[local] Open Scope list_scope.

(** *** Abstention for weak evidence *)

Lemma should_abstain_all_below (l : list Retrieved) (thr : spec_float) :
  List.Forall (fun r => float_lt (score r) thr = true) l ->
  should_abstain l thr = true.
Proof.
  intros H. destruct l as [|r rs]; [reflexivity|].
  cbn [should_abstain].
  pose proof (py_max_in (score r) (map score rs)) as Hin.
  change (score r :: map score rs) with (map score (r :: rs)) in Hin.
  apply List.in_map_iff in Hin as [r' [E Hr']]. rewrite <- E.
  exact (proj1 (List.Forall_forall _ _) H r' Hr').
Qed.

(** When nothing is retrieved, or every retrieved score is below the
    threshold, the result is the fixed abstention, with the routed mode and
    all retrieved items attached; the prompts and the language model play no
    part in it. *)
Theorem abstention_before_generation cfg prompts retrieve llm question :
  List.Forall (fun r => float_lt (score r) (min_similarity cfg) = true)
    (retrieve question) ->
  answer_question cfg prompts retrieve llm question
  = mkAnswerResult (mode (route_query question)) ABSTAIN_SENTENCE true
      (map _doc_to_payload (retrieve question)) [].
Proof.
  intros H. unfold answer_question.
  now rewrite (should_abstain_all_below _ _ H).
Qed.

Lemma abstention_before_generation_witness :
  answer_question sample_cfg sample_prompts
    (fun _ => [mkRetrieved (sample_doc "abc123def456") (sf_of 4503599627370496 (-56))])
    llm_cites "What is Adam?"
  = mkAnswerResult "qa" ABSTAIN_SENTENCE true
      [mkRetrievedPayload (Some "abc123def456") (Some "a.pdf") (Some 1%Z) (Some "Intro")
         (sf_of 4503599627370496 (-56)) "text"]
      [].
Proof.
  rewrite abstention_before_generation.
  - reflexivity.
  - repeat constructor.
Defined.

(** *** The dictionary of retrieved documents *)

#[local] Abbreviation key r := (md_chunk_id (metadata (doc r))).

Lemma fold_insert_absent (l : list Retrieved) (m : gmap (option string) Document) k :
  List.Forall (fun r => key r <> k) l ->
  fold_left (fun m r => <[key r := doc r]> m) l m !! k = m !! k.
Proof.
  revert m. induction l as [|r l IH]; intros m H; [reflexivity|].
  apply List.Forall_cons_iff in H as [Hr Hl].
  cbn [fold_left]. rewrite IH by exact Hl. now apply lookup_insert_ne.
Qed.

(** A lookup in the dictionary gives the document of the last item with
    that key. *)
Lemma fold_insert_last (l : list Retrieved) (m : gmap (option string) Document) k d :
  fold_left (fun m r => <[key r := doc r]> m) l m !! k = Some d ->
  (m !! k = Some d /\ List.Forall (fun x => key x <> k) l)
  \/ exists l1 r l2, l = l1 ++ r :: l2 /\ key r = k /\ doc r = d
                     /\ List.Forall (fun x => key x <> k) l2.
Proof.
  induction l as [|x l IH] using List.rev_ind; intros H.
  - left. split; [exact H | constructor].
  - rewrite List.fold_left_app in H. cbn [fold_left] in H.
    destruct (decide (key x = k)) as [E|E].
    + rewrite E, lookup_insert_eq in H. injection H as <-.
      right. exists l, x, []. repeat split; auto.
    + rewrite lookup_insert_ne in H by exact E.
      destruct (IH H) as [[Hm Hl]|[l1 [r [l2 [El [Hk [Hd Hl2]]]]]]].
      * left. split; [exact Hm|]. apply List.Forall_app. split; [exact Hl|].
        constructor; [exact E | constructor].
      * right. exists l1, r, (l2 ++ [x]). repeat split; auto.
        -- rewrite El, <- List.app_assoc. reflexivity.
        -- apply List.Forall_app. split; [exact Hl2|].
           constructor; [exact E | constructor].
Qed.

Lemma fold_insert_present (l : list Retrieved) (m : gmap (option string) Document) r :
  In r l ->
  exists d, fold_left (fun m r => <[key r := doc r]> m) l m !! key r = Some d.
Proof.
  induction l as [|x l IH] using List.rev_ind; intros Hin; [destruct Hin|].
  rewrite List.fold_left_app. cbn [fold_left].
  destruct (decide (key x = key r)) as [E|E].
  - rewrite E. exists (doc x). apply lookup_insert_eq.
  - rewrite lookup_insert_ne by exact E. apply IH.
    apply List.in_app_or in Hin as [Hin|[->|[]]]; [exact Hin | contradiction].
Qed.

(** *** Cited chunks *)

Lemma omap_ids_NoDup (f : string -> option CitedPayload) (ids : list string) :
  (forall cid c, f cid = Some c -> c_chunk_id c = cid) ->
  NoDup ids ->
  NoDup (map c_chunk_id (omap f ids))
  /\ forall c, In c (omap f ids) -> In (c_chunk_id c) ids.
Proof.
  intros Hf.
  induction 1 as [|cid ids Hnin Hnd [IH1 IH2]]; [split; [constructor | intros c []]|].
  cbn [omap list_omap].
  destruct (f cid) as [c0|] eqn:E; cbn [map].
  - apply Hf in E. split.
    + constructor; [|exact IH1].
      rewrite list_elem_of_In. intros Hin. apply List.in_map_iff in Hin as [c [Ec Hc]].
      apply IH2 in Hc. rewrite Ec, E in Hc. apply Hnin. now apply list_elem_of_In.
    + intros c [<-|Hc]; [left; now rewrite E | right; auto].
  - split; [exact IH1 | intros c Hc; right; auto].
Qed.

Lemma cited_payload_NoDup (l : list Retrieved) (ids : gset string) :
  NoDup (map c_chunk_id (cited_payload l ids)).
Proof.
  unfold cited_payload. apply omap_ids_NoDup; [|apply NoDup_elements].
  intros cid c. destruct (retrieved_map l !! Some cid); [|discriminate].
  intros [= <-]. reflexivity.
Qed.

Lemma cited_payload_last (l : list Retrieved) (ids : gset string) c :
  In c (cited_payload l ids) ->
  exists l1 r l2, l = l1 ++ r :: l2
    /\ key r = Some (c_chunk_id c)
    /\ List.Forall (fun x => key x <> Some (c_chunk_id c)) l2
    /\ c_text c = page_content (doc r)
    /\ c_source_file c = md_source_file (metadata (doc r))
    /\ c_page_number c = md_page_number (metadata (doc r))
    /\ c_section_name c = md_section_name (metadata (doc r)).
Proof.
  unfold cited_payload. rewrite <- list_elem_of_In, list_elem_of_omap.
  intros [cid [_ Hc]].
  destruct (retrieved_map l !! Some cid) as [d|] eqn:E; [|discriminate].
  injection Hc as <-. cbn.
  apply fold_insert_last in E as [[E _]|[l1 [r [l2 [El [Hk [Hd Hl2]]]]]]].
  - rewrite lookup_empty in E. discriminate.
  - exists l1, r, l2. subst d. repeat split; auto.
Qed.

(** A chunk id is listed at most once among the cited chunks, however often
    the response cites it; and each cited chunk carries the text and the
    metadata of the last retrieved item with that chunk id. *)
Theorem cited_chunks_distinct cfg prompts retrieve llm question :
  let result := answer_question cfg prompts retrieve llm question in
  NoDup (map c_chunk_id (cited_chunks result))
  /\ forall c, In c (cited_chunks result) ->
       exists l1 r l2, retrieve question = l1 ++ r :: l2
         /\ md_chunk_id (metadata (doc r)) = Some (c_chunk_id c)
         /\ List.Forall (fun x => md_chunk_id (metadata (doc x)) <> Some (c_chunk_id c)) l2
         /\ c_text c = page_content (doc r)
         /\ c_source_file c = md_source_file (metadata (doc r))
         /\ c_page_number c = md_page_number (metadata (doc r))
         /\ c_section_name c = md_section_name (metadata (doc r)).
Proof.
  cbn zeta. unfold answer_question.
  destruct (should_abstain _ _); [split; [constructor | intros c []]|].
  destruct (negb _ && _); [split; [constructor | intros c []]|].
  cbn [cited_chunks]. split; [apply cited_payload_NoDup|].
  intros c Hc. now apply cited_payload_last in Hc.
Qed.

(** *** A cited answer *)

Lemma cited_payload_has (l : list Retrieved) (ids : gset string) r cid :
  In r l -> key r = Some cid -> cid ∈ ids ->
  In cid (map c_chunk_id (cited_payload l ids)).
Proof.
  intros Hr Hk Hid.
  destruct (fold_insert_present l ∅ r Hr) as [d Hd]. rewrite Hk in Hd.
  apply List.in_map_iff.
  exists (mkCitedPayload cid (md_source_file (metadata d))
            (md_page_number (metadata d)) (md_section_name (metadata d))
            (page_content d)).
  split; [reflexivity|].
  unfold cited_payload. rewrite <- list_elem_of_In, list_elem_of_omap.
  exists cid. split; [now apply elem_of_elements|].
  unfold retrieved_map. now rewrite Hd.
Qed.

(** With evidence above the threshold, a response that contains the marker
    [format_citation cid n] of a retrieved chunk is returned verbatim, not
    abstained, and that chunk is among the cited chunks; the chunk may lie
    anywhere in the retrieved list, also beyond the part shown in the
    context. *)
Theorem cited_answer_is_grounded cfg prompts retrieve llm question
    (r : Retrieved) (cid : string) (n : Z) (pre post : string) :
  should_abstain (retrieve question) (min_similarity cfg) = false ->
  In r (retrieve question) ->
  md_chunk_id (metadata (doc r)) = Some cid ->
  is_chunk_id cid = true -> (0 <= n)%Z ->
  llm (select_template prompts (mode (route_query question))
         (_build_context (retrieve question) (max_context_chunks cfg)) question)
  = pre +:+ format_citation cid n +:+ post ->
  let result := answer_question cfg prompts retrieve llm question in
  abstained result = false
  /\ answer result = pre +:+ format_citation cid n +:+ post
  /\ In cid (map c_chunk_id (cited_chunks result)).
Proof.
  intros Hab Hr Hk Hid Hn Hllm. cbn zeta. unfold answer_question.
  rewrite Hab, Hllm.
  assert (Hin : In cid
            (map c_chunk_id
               (cited_payload (retrieve question)
                  (citation_ids
                     (extract_citations (pre +:+ format_citation cid n +:+ post)))))).
  { apply (cited_payload_has _ _ r); [exact Hr | exact Hk |].
    unfold citation_ids, extract_citations.
    rewrite (finditer_embedded cid n pre post Hid Hn).
    apply elem_of_list_to_set, list_elem_of_In.
    rewrite List.map_app. apply List.in_or_app. right. now left. }
  destruct (cited_payload _ _) as [|c0 rest] eqn:Ep; [destruct Hin|].
  rewrite Bool.andb_false_r. cbn [abstained answer cited_chunks].
  repeat split; auto.
Qed.

Lemma cited_answer_is_grounded_witness :
  let result := answer_question sample_cfg sample_prompts sample_retrieve llm_cites
                  "What is Adam?" in
  abstained result = false
  /\ answer result
     = "Adam adapts learning rates " +:+ format_citation "abc123def456" 1
       +:+ ", see also [ffffffffffff p.2]."
  /\ In "abc123def456" (map c_chunk_id (cited_chunks result)).
Proof.
  apply (cited_answer_is_grounded sample_cfg sample_prompts sample_retrieve llm_cites
           "What is Adam?"
           (mkRetrieved (sample_doc "abc123def456") (sf_of 4503599627370496 (-53)))).
  - reflexivity.
  - now left.
  - reflexivity.
  - reflexivity.
  - lia.
  - reflexivity.
Defined.

(** *** The context shown to the model *)

Lemma slice_prefix {A} (l extra : list A) (k : Z) :
  (0 <= k <= Chunking.len l)%Z ->
  Chunking.slice (l ++ extra) 0 k = Chunking.slice l 0 k.
Proof.
  unfold Chunking.len. intros Hk. unfold Chunking.slice, Chunking.norm_index.
  rewrite List.length_app.
  replace (0 <? 0)%Z with false by reflexivity.
  replace (k <? 0)%Z with false by (symmetry; apply Z.ltb_ge; lia).
  rewrite !Z.min_l by lia.
  rewrite Z.sub_0_r. rewrite Z2Nat.inj_0, !drop_0.
  rewrite List.firstn_app.
  replace (Z.to_nat k - length l)%nat with 0%nat by lia.
  cbn [firstn]. apply List.app_nil_r.
Qed.

(** The context is built from the first [max_chunks] retrieved items only:
    for [0 <= max_chunks <= len retrieved], items after that prefix do not
    change it. *)
Theorem build_context_uses_prefix (retrieved extra : list Retrieved) (max_chunks : Z) :
  (0 <= max_chunks <= Chunking.len retrieved)%Z ->
  _build_context (retrieved ++ extra) max_chunks = _build_context retrieved max_chunks.
Proof. intros H. unfold _build_context. now rewrite slice_prefix. Qed.

Lemma build_context_uses_prefix_witness :
  _build_context
    (sample_retrieve "q"
     ++ [mkRetrieved (sample_doc "ffffffffffff") (sf_of 4503599627370496 (-54))]) 1
  = _build_context (sample_retrieve "q") 1.
Proof. apply build_context_uses_prefix. unfold Chunking.len. cbn. lia. Defined.

End PipelineMore.

Module DisplayFacts.
Import PyStr Citations Pipeline Display.
Import PyStrFacts CitationsFacts CitationsMore.
#[local] Open Scope list_scope.

#[local] Arguments String.append !s1 s2 : simpl nomatch.

(** *** The numbering *)

Lemma chunk_to_num_from_absent i (l : list CitedPayload) m cid :
  List.Forall (fun x => c_chunk_id x <> cid) l ->
  chunk_to_num_from i l m !! cid = m !! cid.
Proof.
  revert i m. induction l as [|ch l IH]; intros i m H; [reflexivity|].
  apply List.Forall_cons_iff in H as [Hc Hl].
  cbn [chunk_to_num_from]. rewrite IH by exact Hl. now apply lookup_insert_ne.
Qed.

Lemma chunk_to_num_from_last i (l1 l2 : list CitedPayload) ch m :
  List.Forall (fun x => c_chunk_id x <> c_chunk_id ch) l2 ->
  chunk_to_num_from i (l1 ++ ch :: l2) m !! c_chunk_id ch
  = Some (i + Z.of_nat (length l1)).
Proof.
  revert i m. induction l1 as [|x l1 IH]; intros i m H.
  - cbn [List.app chunk_to_num_from length].
    rewrite chunk_to_num_from_absent by exact H.
    rewrite lookup_insert_eq. f_equal. lia.
  - cbn [List.app chunk_to_num_from length]. rewrite IH by exact H. f_equal. lia.
Qed.

Lemma chunk_to_num_from_positive i (l : list CitedPayload) m cid k :
  1 <= i -> (forall c j, m !! c = Some j -> 1 <= j) ->
  chunk_to_num_from i l m !! cid = Some k -> 1 <= k.
Proof.
  revert i m. induction l as [|ch l IH]; intros i m Hi Hm; cbn [chunk_to_num_from].
  - apply Hm.
  - apply IH; [lia|]. intros c j.
    destruct (decide (c_chunk_id ch = c)) as [->|E].
    + rewrite lookup_insert_eq. intros [= <-]. exact Hi.
    + rewrite lookup_insert_ne by exact E. apply Hm.
Qed.

(** A label is a question mark or the decimal digits of a positive number. *)
Lemma citation_label_chars cited cid :
  citation_label (chunk_to_num cited) cid = "?"
  \/ all_chars is_digit (citation_label (chunk_to_num cited) cid) = true.
Proof.
  unfold citation_label.
  destruct (chunk_to_num cited !! cid) as [k|] eqn:E; [right | now left].
  apply str_of_int_digits.
  enough (1 <= k) by lia.
  apply (chunk_to_num_from_positive 1 cited ∅ cid k); [lia | | exact E].
  intros c j. rewrite lookup_empty. discriminate.
Qed.

(** *** Replacing an embedded marker *)

Lemma sub_skip m a b : sub_from m (String.length a) (a +:+ b) = sub_from m 0 b.
Proof. induction a as [|c a IH]; simpl; [reflexivity | exact IH]. Qed.

Lemma sub_before_bracket m pre z k :
  (k <= String.length pre)%nat ->
  sub_from m k (pre +:+ String "[" z)
  = sub_from m k pre +:+ sub_from m 0 (String "[" z).
Proof.
  revert k. induction pre as [|c pre IH]; intros k Hk.
  - cbn [String.length] in Hk. replace k with 0%nat by lia. reflexivity.
  - change (String c pre +:+ String "[" z) with (String c (pre +:+ String "[" z)).
    cbn [sub_from]. cbn [String.length] in Hk.
    destruct k as [|k]; [|apply IH; lia].
    change (String c (pre +:+ String "[" z)) with (String c pre +:+ String "[" z).
    rewrite CIT_RE_match_before_bracket by discriminate.
    destruct (CIT_RE_match (String c pre)) as [[[cid ds] len]|] eqn:E.
    + pose proof (CIT_RE_match_length _ _ _ _ E) as Hlen. cbn [String.length] in Hlen.
      rewrite IH by lia. now rewrite append_assoc.
    + rewrite IH by lia. reflexivity.
Qed.

Lemma sub_embedded m cid n pre post :
  is_chunk_id cid = true -> (0 <= n)%Z ->
  sub_from m 0 (pre +:+ format_citation cid n +:+ post)
  = sub_from m 0 pre +:+ replace_citation m cid +:+ sub_from m 0 post.
Proof.
  intros Hid Hn.
  pose proof (CIT_RE_match_format cid n post Hid Hn) as Hm.
  pose proof (sub_skip m (format_citation cid n) post) as Hs.
  remember (format_citation cid n) as f eqn:Ef.
  assert (Hf : exists f', f = String "[" f') by (subst f; eexists; reflexivity).
  destruct Hf as [f' ->].
  change (String "[" f' +:+ post) with (String "[" (f' +:+ post)) in *.
  rewrite sub_before_bracket by lia. f_equal.
  cbn [sub_from]. rewrite Hm. f_equal.
  cbn [String.length] in *. rewrite Nat.sub_succ, Nat.sub_0_r.
  cbn [sub_from] in Hs. exact Hs.
Qed.

(** *** No marker is left *)

(** An attempt of the pattern does not read past a star either. *)
Lemma CIT_RE_match_before_star a z :
  a <> "" -> CIT_RE_match (a +:+ String "*" z) = CIT_RE_match a.
Proof.
  intros Ha. destruct a as [|c a]; [congruence|]. clear Ha.
  unfold CIT_RE_match. cbn [String.append expect].
  destruct (Ascii.eqb c "["); [|reflexivity].
  rewrite take_class_app_stop by reflexivity.
  destruct (take_class is_hex_lower 12 a) as [[cid s2]|]; cbn [option_map];
    [|reflexivity].
  rewrite span_app_stop by reflexivity.
  destruct (span is_space s2) as [ws s3]; cbn [fst snd].
  destruct (truthy ws); cbn [negb]; [|reflexivity].
  rewrite expect_app_stop by discriminate.
  destruct (expect "p" s3) as [s3'|]; cbn [option_map]; [|reflexivity].
  rewrite expect_app_stop by discriminate.
  destruct (expect "." s3') as [s4|]; cbn [option_map]; [|reflexivity].
  rewrite span_app_stop by reflexivity.
  destruct (span is_digit s4) as [ds s5]; cbn [fst snd].
  destruct (truthy ds); cbn [negb]; [|reflexivity].
  rewrite expect_app_stop by discriminate.
  destruct (expect "]" s5); reflexivity.
Qed.

Lemma CIT_RE_match_head c s :
  c <> "["%char -> CIT_RE_match (String c s) = None.
Proof.
  intros Hc. unfold CIT_RE_match. cbn [expect].
  destruct (Ascii.eqb_spec c "["); [congruence | reflexivity].
Qed.

(** What an attempt finds at some place of the text is what it finds there
    once the rest of the text has been rewritten. *)
Lemma CIT_RE_match_sub m a s :
  a <> "" -> CIT_RE_match (a +:+ sub_from m 0 s) = CIT_RE_match (a +:+ s).
Proof.
  revert a. induction s as [|c s IH]; intros a Ha; [reflexivity|].
  cbn [sub_from].
  destruct (CIT_RE_match (String c s)) as [[[cid ds] len]|] eqn:E.
  - assert (c = "["%char) as ->.
    { destruct (Ascii.eqb_spec c "["); [assumption|].
      rewrite CIT_RE_match_head in E by assumption. discriminate. }
    rewrite CIT_RE_match_before_bracket by exact Ha.
    unfold replace_citation. rewrite !append_assoc. cbn [String.append].
    now rewrite CIT_RE_match_before_star.
  - change (a +:+ String c (sub_from m 0 s))
      with (a +:+ (String c "" +:+ sub_from m 0 s)).
    change (a +:+ String c s) with (a +:+ (String c "" +:+ s)).
    rewrite <- !append_assoc. apply IH.
    destruct a; [congruence | discriminate].
Qed.

Lemma finditer_no_bracket a b :
  all_chars (fun c => negb (Ascii.eqb c "[")) a = true ->
  finditer_from 0 (a +:+ b) = finditer_from 0 b.
Proof.
  induction a as [|c a IH]; intros H; [reflexivity|].
  cbn [all_chars] in H. apply andb_prop in H as [Hc Ha].
  change (String c a +:+ b) with (String c (a +:+ b)). cbn [finditer_from].
  rewrite CIT_RE_match_head; [now apply IH|].
  intros ->. discriminate.
Qed.

Lemma digit_is_hex c : is_digit c = true -> is_hex_lower c = true.
Proof. unfold is_hex_lower, is_digit. now intros ->. Qed.

Lemma digit_not_bracket c : is_digit c = true -> negb (Ascii.eqb c "[") = true.
Proof. destruct c as [[] [] [] [] [] [] [] []]; try discriminate; reflexivity. Qed.

(** Hexadecimal digits taken from a run of decimal digits that a closing
    bracket ends: what is left does not begin with whitespace. *)
Lemma take_class_digits n d z a b :
  all_chars is_digit d = true ->
  take_class is_hex_lower n (d +:+ String "]" z) = Some (a, b) ->
  exists c b', b = String c b' /\ is_space c = false.
Proof.
  revert d a b. induction n as [|n IH]; intros d a b Hd; cbn [take_class].
  - intros [= <- <-]. destruct d as [|c d]; [now exists "]"%char, z|].
    cbn [all_chars] in Hd. apply andb_prop in Hd as [Hc _].
    exists c, (d +:+ String "]" z). split; [reflexivity | now apply digit_not_space].
  - destruct d as [|c d]; [discriminate|].
    cbn [all_chars] in Hd. apply andb_prop in Hd as [Hc Hd].
    change (String c d +:+ String "]" z) with (String c (d +:+ String "]" z)).
    cbn iota. rewrite (digit_is_hex c Hc).
    destruct (take_class is_hex_lower n (d +:+ String "]" z)) as [[a' b']|] eqn:E;
      [|discriminate].
    intros [= <- <-]. exact (IH d a' b' Hd E).
Qed.

Lemma CIT_RE_match_label cited cid z :
  CIT_RE_match (String "[" (citation_label (chunk_to_num cited) cid +:+ String "]" z))
  = None.
Proof.
  destruct (citation_label_chars cited cid) as [->|Hd]; [reflexivity|].
  unfold CIT_RE_match. cbn [expect Ascii.eqb Bool.eqb].
  destruct (take_class is_hex_lower 12 _) as [[a b]|] eqn:E; [|reflexivity].
  destruct (take_class_digits _ _ _ _ _ Hd E) as [c [b' [-> Hc]]].
  cbn [span]. rewrite Hc. reflexivity.
Qed.

Lemma label_no_bracket cited cid :
  all_chars (fun c => negb (Ascii.eqb c "[")) (citation_label (chunk_to_num cited) cid)
  = true.
Proof.
  destruct (citation_label_chars cited cid) as [->|Hd]; [reflexivity|].
  induction (citation_label (chunk_to_num cited) cid) as [|c s IH]; [reflexivity|].
  cbn [all_chars] in *. apply andb_prop in Hd as [Hc Hd].
  now rewrite (digit_not_bracket c Hc), IH.
Qed.

Lemma finditer_sub cited s k :
  finditer_from 0 (sub_from (chunk_to_num cited) k s) = [].
Proof.
  revert k. induction s as [|c s IH]; intros k; [reflexivity|].
  cbn [sub_from]. destruct k as [|k]; [|apply IH].
  destruct (CIT_RE_match (String c s)) as [[[cid ds] len]|] eqn:E.
  - unfold replace_citation.
    set (lab := citation_label (chunk_to_num cited) cid).
    set (rest := sub_from (chunk_to_num cited) (len - 1) s).
    rewrite !append_assoc. cbn [String.append finditer_from].
    rewrite !CIT_RE_match_head by discriminate.
    unfold lab at 1. rewrite CIT_RE_match_label.
    change (String "]" (String "*" (String "*" rest))) with ("]**" +:+ rest).
    rewrite <- append_assoc. rewrite finditer_no_bracket; [apply IH|].
    rewrite all_chars_app. unfold lab. now rewrite label_no_bracket.
  - cbn [finditer_from].
    change (String c (sub_from (chunk_to_num cited) 0 s))
      with (String c "" +:+ sub_from (chunk_to_num cited) 0 s).
    rewrite CIT_RE_match_sub by discriminate.
    cbn [String.append]. rewrite E. apply IH.
Qed.

Lemma sub_quiet m s : finditer_from 0 s = [] -> sub_from m 0 s = s.
Proof.
  induction s as [|c s IH]; intros H; [reflexivity|].
  destruct (finditer_nil_head _ _ H) as [Hm Hq].
  cbn [sub_from]. rewrite Hm. now rewrite IH.
Qed.

(** *** Theorems *)

(** A marker in the answer is displayed as the bold number of its chunk among
    the cited chunks, counted from 1 (of the last one carrying that id, should
    the list repeat an id), and as a bold question mark when no cited chunk
    has its id; the text around the marker is displayed as it would be alone. *)
Theorem display_numbers_marker (cited : list CitedPayload) (cid : string) (n : Z)
    (pre post : string) :
  is_chunk_id cid = true -> (0 <= n)%Z ->
  exists label,
    format_answer_for_display (pre +:+ format_citation cid n +:+ post) cited
    = format_answer_for_display pre cited +:+ "**[" +:+ label +:+ "]**"
      +:+ format_answer_for_display post cited
    /\ (forall l1 ch l2,
          cited = l1 ++ ch :: l2 -> c_chunk_id ch = cid ->
          List.Forall (fun x => c_chunk_id x <> cid) l2 ->
          label = str_of_int (Z.of_nat (length l1) + 1))
    /\ (List.Forall (fun x => c_chunk_id x <> cid) cited -> label = "?").
Proof.
  intros Hid Hn. exists (citation_label (chunk_to_num cited) cid).
  split; [|split].
  - unfold format_answer_for_display. rewrite (sub_embedded _ cid n pre post Hid Hn).
    unfold replace_citation. now rewrite !append_assoc.
  - intros l1 ch l2 -> <- Hl2. unfold citation_label, chunk_to_num.
    rewrite chunk_to_num_from_last by exact Hl2. f_equal. lia.
  - intros Hall. unfold citation_label, chunk_to_num.
    rewrite chunk_to_num_from_absent by exact Hall. now rewrite lookup_empty.
Qed.

Lemma display_numbers_marker_witness :
  format_answer_for_display
    ("Adam adapts learning rates " +:+ format_citation "abc123def456" 1
     +:+ ", see also [ffffffffffff p.2].")
    [mkCitedPayload "abc123def456" (Some "a.pdf") (Some 1%Z) (Some "Intro") "text"]
  = "Adam adapts learning rates **[1]**, see also **[?]**.".
Proof.
  destruct (display_numbers_marker
              [mkCitedPayload "abc123def456" (Some "a.pdf") (Some 1%Z) (Some "Intro") "text"]
              "abc123def456" 1 "Adam adapts learning rates "
              ", see also [ffffffffffff p.2]." eq_refl ltac:(lia))
    as [label [E [Hnum _]]].
  rewrite E.
  rewrite (Hnum [] _ [] eq_refl eq_refl (List.Forall_nil _)).
  reflexivity.
Defined.

(** The displayed text holds no citation marker any more, whatever the
    answer and the cited chunks; and an answer without markers is displayed
    unchanged. *)
Theorem display_leaves_no_marker (answer : string) (cited : list CitedPayload) :
  extract_citations (format_answer_for_display answer cited) = []
  /\ (extract_citations answer = [] -> format_answer_for_display answer cited = answer).
Proof.
  unfold extract_citations, format_answer_for_display. split.
  - apply finditer_sub.
  - apply sub_quiet.
Qed.

End DisplayFacts.

Module IndexingFacts.
Import PyStr Citations Chunking.
Import PyStrFacts CitationsFacts CitationsMore ChunkingFacts Samples.
#[local] Open Scope list_scope.

#[local] Arguments String.append !s1 s2 : simpl nomatch.

Lemma str_take_all_chars p n s :
  all_chars p s = true -> all_chars p (str_take n s) = true.
Proof.
  revert s. induction n as [|n IH]; intros s H; [reflexivity|].
  destruct s as [|c s]; [reflexivity|]. cbn [str_take all_chars] in *.
  apply andb_prop in H as [Hc Hs]. now rewrite Hc, IH.
Qed.

Lemma str_take_length n s :
  (n <= String.length s)%nat -> String.length (str_take n s) = n.
Proof.
  revert s. induction n as [|n IH]; intros s H; [reflexivity|].
  destruct s as [|c s]; cbn [String.length] in *; [lia|].
  cbn [str_take String.length]. rewrite IH; lia.
Qed.

(** The first twelve characters of a hex digest form a chunk id. *)
Lemma stable_chunk_id_shape (sha1_hexdigest : list ascii -> string)
    file_path page_number section_name idx text :
  (forall bytes, String.length (sha1_hexdigest bytes) = 40%nat
                 /\ all_chars is_hex_lower (sha1_hexdigest bytes) = true) ->
  is_chunk_id (_stable_chunk_id sha1_hexdigest file_path page_number section_name idx text)
  = true.
Proof.
  intros Hsha. unfold _stable_chunk_id, is_chunk_id.
  destruct (Hsha (utf8 file_path ++ utf8 (str_of_int page_number) ++ utf8 section_name
                  ++ utf8 (str_of_int idx) ++ utf8 text)) as [Hl Hh].
  rewrite str_take_length by lia. rewrite str_take_all_chars by exact Hh. reflexivity.
Qed.

(** Every chunk id that the chunker hands out can be cited: with a digest
    of forty lowercase hexadecimal digits, as SHA-1 gives, each id is twelve
    such digits, and a marker formatted from it is read back as that id and
    page. *)
Theorem chunk_ids_are_citable {token : Type}
    (encode : string -> list token) (decode : list token -> string)
    (sha1_hexdigest : list ascii -> string)
    (chunk_tokens chunk_overlap_tokens min_chunk_tokens : Z)
    (fuel : nat) (pages : list PageText) (result : list Chunk) :
  (forall bytes, String.length (sha1_hexdigest bytes) = 40%nat
                 /\ all_chars is_hex_lower (sha1_hexdigest bytes) = true) ->
  chunk_pages encode decode sha1_hexdigest chunk_tokens chunk_overlap_tokens
    min_chunk_tokens fuel pages = Some result ->
  forall c, In c result ->
    is_chunk_id (Chunking.chunk_id c) = true
    /\ forall n, 0 <= n ->
         extract_citations (format_citation (Chunking.chunk_id c) n)
         = [mkCitedChunk (Chunking.chunk_id c) n].
Proof.
  intros Hsha Hrun c Hc.
  assert (Hid : is_chunk_id (Chunking.chunk_id c) = true).
  { destruct (chunk_pages_invariant encode decode sha1_hexdigest
                chunk_tokens chunk_overlap_tokens min_chunk_tokens
                (fun st => List.Forall (fun c => is_chunk_id (Chunking.chunk_id c) = true)
                             (chunks st))
                fuel pages result) as [idx Hall].
    - constructor.
    - intros page section text st H. unfold emit. cbn [chunks].
      apply List.Forall_app. split; [exact H|].
      constructor; [|constructor]. cbn [Chunking.chunk_id].
      now apply stable_chunk_id_shape.
    - exact Hrun.
    - cbn [chunks] in Hall. exact (proj1 (List.Forall_forall _ _) Hall c Hc). }
  split; [exact Hid|]. intros n Hn. unfold extract_citations.
  pose proof (finditer_embedded (Chunking.chunk_id c) n "" "" Hid Hn) as H.
  cbn [String.append] in H. rewrite append_nil_r in H. exact H.
Qed.

Lemma padded_digest_shape bytes :
  String.length (padded_digest bytes) = 40%nat
  /\ all_chars is_hex_lower (padded_digest bytes) = true.
Proof.
  unfold padded_digest. split.
  - apply str_take_length. rewrite length_append. cbn [String.length]. lia.
  - apply str_take_all_chars.
    destruct (str_of_int_digits (Z.of_nat (length bytes)) ltac:(lia)) as [Hd _].
    induction (str_of_int (Z.of_nat (length bytes))) as [|c s IH]; [reflexivity|].
    cbn [all_chars] in Hd. apply andb_prop in Hd as [Hc Hs].
    change (String c s +:+ "0000000000000000000000000000000000000000")
      with (String c (s +:+ "0000000000000000000000000000000000000000")).
    cbn [all_chars]. rewrite (IH Hs), andb_true_r.
    unfold is_hex_lower. unfold is_digit in Hc. now rewrite Hc.
Qed.

Lemma chunk_ids_are_citable_witness :
  exists result,
    chunk_pages char_encode char_decode padded_digest 5 2 3 20 sample_pages
    = Some result
    /\ forall c, In c result ->
         is_chunk_id (Chunking.chunk_id c) = true
         /\ forall n, 0 <= n ->
              extract_citations (format_citation (Chunking.chunk_id c) n)
              = [mkCitedChunk (Chunking.chunk_id c) n].
Proof.
  destruct (chunk_pages char_encode char_decode padded_digest 5 2 3 20
              sample_pages) as [result|] eqn:E;
    [|vm_compute in E; discriminate E].
  exists result. split; [reflexivity|].
  exact (chunk_ids_are_citable char_encode char_decode padded_digest 5 2 3 20
           sample_pages result padded_digest_shape E).
Defined.

End IndexingFacts.

Module HeadingFacts.
Import PyStr Chunking ChunkingWords.
Import PyStrFacts ChunkingMore.
#[local] Open Scope list_scope.

#[local] Arguments String.append !s1 s2 : simpl nomatch.

Lemma dotted_groups_stop fuel c s :
  c <> "."%char -> dotted_groups fuel (String c s) = String c s.
Proof.
  intros Hc. destruct fuel as [|fuel]; [reflexivity|].
  destruct c as [[] [] [] [] [] [] [] []]; try reflexivity; congruence.
Qed.

Lemma space_not_dot c : is_space c = true -> c <> "."%char.
Proof. intros H ->. discriminate. Qed.

(** The loop over the dotted groups consumes them all and stops at the
    whitespace behind them. *)
Lemma dotted_groups_run groups fuel w tail :
  (length groups <= fuel)%nat ->
  List.Forall (fun g => is_number g = true) groups ->
  is_space w = true ->
  dotted_groups fuel (dotted groups +:+ String w tail) = String w tail.
Proof.
  revert fuel. induction groups as [|g groups IH]; intros fuel Hf Hg Hw.
  - cbn [dotted String.append]. now apply dotted_groups_stop, space_not_dot.
  - apply List.Forall_cons_iff in Hg as [Hn Hg].
    unfold is_number in Hn. apply andb_prop in Hn as [Ht Hd].
    destruct fuel as [|fuel]; [cbn [length] in Hf; lia|].
    cbn [dotted]. rewrite !append_assoc.
    change ("." +:+ g +:+ dotted groups +:+ String w tail)
      with (String "." (g +:+ (dotted groups +:+ String w tail))).
    cbn [dotted_groups].
    assert (Hnext : exists d z, dotted groups +:+ String w tail = String d z
                                /\ is_digit d = false).
    { destruct groups as [|g' groups'].
      - exists w, tail. split; [reflexivity | now apply space_not_digit].
      - eexists "."%char, _. split; [reflexivity | reflexivity]. }
    destruct Hnext as [d [z [Ez Hdz]]].
    rewrite Ez, (span_all_stop is_digit g d z Hd Hdz), <- Ez.
    destruct g as [|c g]; [discriminate|].
    apply IH; [cbn [length] in Hf; lia | exact Hg | exact Hw].
Qed.

Lemma length_dotted groups tail :
  (length groups <= String.length (dotted groups +:+ tail))%nat.
Proof.
  induction groups as [|g groups IH]; cbn [dotted length]; [lia|].
  rewrite !append_assoc.
  change ("." +:+ g +:+ dotted groups +:+ tail)
    with (String "." (g +:+ (dotted groups +:+ tail))).
  cbn [String.length]. rewrite length_append. lia.
Qed.

Lemma rstrip_app a b :
  b <> "" -> rstrip b = b -> rstrip (a +:+ b) = a +:+ b.
Proof.
  intros Hb Hr. induction a as [|c a IH]; [exact Hr|].
  change (String c a +:+ b) with (String c (a +:+ b)).
  cbn [rstrip]. rewrite IH.
  destruct (a +:+ b) eqn:E; [|reflexivity].
  destruct a; [cbn in E; congruence | discriminate].
Qed.

Lemma existsb_newline_false s :
  all_chars (fun c => negb (is_newline c)) s = true ->
  existsb is_newline (list_ascii_of_string s) = false.
Proof.
  induction s as [|c s IH]; [reflexivity|]. cbn [all_chars list_ascii_of_string existsb].
  intros H. apply andb_prop in H as [Hc Hs]. rewrite (IH Hs).
  now destruct (is_newline c).
Qed.

(** A numbered heading is cleaned to its title: for an outline number
    [d0.d1...dk], whitespace [ws] and a title on one line that neither
    begins nor ends with whitespace, [_clean_heading] of
    number, whitespace, title is the title. *)
Theorem clean_heading_numbered (d0 : string) (groups : list string)
    (ws : string) (c : ascii) (title : string) :
  is_number d0 = true ->
  List.Forall (fun g => is_number g = true) groups ->
  truthy ws = true -> all_chars is_space ws = true ->
  is_space c = false -> rstrip (String c title) = String c title ->
  all_chars (fun x => negb (is_newline x)) (String c title) = true ->
  _clean_heading (d0 +:+ dotted groups +:+ ws +:+ String c title) = String c title.
Proof.
  intros Hd0 Hg Htw Hws Hc Hr Hnl.
  unfold is_number in Hd0. apply andb_prop in Hd0 as [Ht0 Hd0].
  destruct d0 as [|x d0]; [discriminate|].
  destruct ws as [|w ws]; [discriminate|].
  cbn [all_chars] in Hd0, Hws.
  apply andb_prop in Hd0 as [Hx Hd0]. apply andb_prop in Hws as [Hw Hws].
  set (h := String x d0 +:+ dotted groups +:+ String w ws +:+ String c title).
  assert (Hstrip : strip h = h).
  { unfold strip, h.
    change (String x d0 +:+ dotted groups +:+ String w ws +:+ String c title)
      with (String x (d0 +:+ dotted groups +:+ String w ws +:+ String c title)).
    cbn [lstrip]. rewrite (digit_not_space x Hx).
    change (String x (d0 +:+ dotted groups +:+ String w ws +:+ String c title))
      with (String x d0 +:+ dotted groups +:+ String w ws +:+ String c title).
    rewrite <- !append_assoc. apply rstrip_app; [discriminate | exact Hr]. }
  unfold _clean_heading. rewrite Hstrip.
  assert (Hg3 : _heading_numbered_group3 h = Some (String c title)).
  { unfold _heading_numbered_group3, h.
    change (String x d0 +:+ dotted groups +:+ String w ws +:+ String c title)
      with (String x (d0 +:+ dotted groups +:+ String w ws +:+ String c title)).
    cbn [span]. rewrite (digit_not_space x Hx). cbn [snd span]. rewrite Hx.
    assert (Hnext : exists d z,
               dotted groups +:+ String w ws +:+ String c title = String d z
               /\ is_digit d = false).
    { destruct groups as [|g' groups'].
      - exists w, (ws +:+ String c title). split; [reflexivity | now apply space_not_digit].
      - eexists "."%char, _. split; [reflexivity | reflexivity]. }
    destruct Hnext as [d [z [Ez Hdz]]].
    rewrite Ez, (span_all_stop is_digit d0 d z Hd0 Hdz), <- Ez.
    change (String w ws +:+ String c title) with (String w (ws +:+ String c title)).
    rewrite dotted_groups_run; [| apply length_dotted | exact Hg | exact Hw].
    cbn [span]. rewrite Hw.
    rewrite (span_all_stop is_space ws c title Hws Hc).
    cbn [truthy andb]. now rewrite existsb_newline_false. }
  rewrite Hg3. unfold strip. cbn [lstrip]. now rewrite Hc.
Qed.

Lemma clean_heading_numbered_witness :
  _clean_heading "3.2.1 Subsection" = "Subsection".
Proof.
  exact (clean_heading_numbered "3" ["2"; "1"] " " "S" "ubsection"
           eq_refl ltac:(repeat constructor) eq_refl eq_refl eq_refl eq_refl eq_refl).
Defined.

(** What is cleaned has no whitespace at either end; and a heading that,
    once stripped, does not begin with a digit is only stripped. *)
Theorem clean_heading_stripped (h : string) :
  strip (_clean_heading h) = _clean_heading h
  /\ (forall c s, strip h = String c s -> is_digit c = false ->
        _clean_heading h = strip h).
Proof.
  unfold _clean_heading. split.
  - destruct (_heading_numbered_group3 (strip h)); apply strip_idempotent.
  - intros c s E Hc. rewrite E. unfold _heading_numbered_group3.
    assert (Hsp : is_space c = false).
    { destruct (is_space c) eqn:Es; [|reflexivity]. exfalso.
      pose proof (strip_idempotent h) as Hi. rewrite E in Hi.
      unfold strip in Hi. cbn [lstrip] in Hi. rewrite Es in Hi.
      assert (Hlen : forall t, (String.length (rstrip (lstrip t)) <= String.length t)%nat).
      { clear. intros t.
        assert (Hl : forall u, (String.length (lstrip u) <= String.length u)%nat).
        { induction u as [|a u IH]; cbn [lstrip String.length]; [lia|].
          destruct (is_space a); cbn [String.length]; lia. }
        assert (Hr : forall u, (String.length (rstrip u) <= String.length u)%nat).
        { induction u as [|a u IH]; cbn [rstrip String.length]; [lia|].
          destruct (rstrip u); [destruct (is_space a)|]; cbn [String.length] in *; lia. }
        specialize (Hl t). specialize (Hr (lstrip t)). lia. }
      specialize (Hlen s). rewrite Hi in Hlen. cbn [String.length] in Hlen. lia. }
    cbn [span]. rewrite Hsp. cbn [snd span]. now rewrite Hc.
Qed.

End HeadingFacts.

Module IngestTests.
Import PyStr Chunking Ingest Samples.

Example numbered_headings :
  map (fun l => _is_heading_candidate l default_heading_cfg)
    ["1 Introduction"; "2.1 Related Work"; "3.2.1 Subsection"] = [true; true; true].
Proof. vm_compute. reflexivity. Qed.

Example allcaps_headings :
  map (fun l => _is_heading_candidate l default_heading_cfg)
    ["INTRODUCTION"; "RELATED WORK"; "EXPERIMENTAL RESULTS"] = [true; true; true].
Proof. vm_compute. reflexivity. Qed.

Example title_case_headings :
  map (fun l => _is_heading_candidate l default_heading_cfg)
    ["Introduction"; "Related Work"] = [true; true].
Proof. vm_compute. reflexivity. Qed.

Example not_headings :
  map (fun l => _is_heading_candidate l default_heading_cfg)
    ["This is a sentence."; "AB";
     "Word Word Word Word Word Word Word Word Word Word Word Word Word Word Word";
     "we study three of five Words Here Now"; "Three Of five words Here"]
  = [false; false; false; false; true].
Proof. vm_compute. reflexivity. Qed.

Example edge_lines :
  map (fun l => _is_heading_candidate l default_heading_cfg)
    [""; "3. Results"; "2024"; "A-B, C: 9"; "a;b Cde"; "  7 Methods  "]
  = [false; false; false; true; false; true].
Proof. vm_compute. reflexivity. Qed.

Example extract_two_pages :
  extract_pdf_pages "paper.pdf"
    [String "013" (String "010" "1 Introduction")
       +:+ String "013" ("We study chunking." +:+ String "013" (String "010" " "));
     "   "] default_heading_cfg
  = [mkPageText "paper.pdf" 1
       ("1 Introduction" +:+ String "010" "We study chunking.") ["1 Introduction"];
     mkPageText "paper.pdf" 2 "" []].
Proof. vm_compute. reflexivity. Qed.

End IngestTests.

Module IngestFacts.
Import PyStr Chunking Ingest Samples.
Import PyStrFacts ChunkingFacts ChunkingMore.
#[local] Open Scope list_scope.
#[local] Open Scope Z_scope.

#[local] Arguments String.append !s1 s2 : simpl nomatch.

(** *** Character classes through the string operations *)

Lemma all_chars_lstrip p s : all_chars p s = true -> all_chars p (lstrip s) = true.
Proof.
  induction s as [|c s IH]; [reflexivity|]. cbn [lstrip all_chars].
  intros H. destruct (is_space c); [|exact H].
  apply andb_prop in H as [_ H]. now apply IH.
Qed.

Lemma all_chars_rstrip p s : all_chars p s = true -> all_chars p (rstrip s) = true.
Proof.
  induction s as [|c s IH]; [reflexivity|]. cbn [rstrip all_chars].
  intros H. apply andb_prop in H as [Hc Hs]. specialize (IH Hs).
  destruct (rstrip s) as [|c' r].
  - destruct (is_space c); [reflexivity|]. cbn [all_chars]. now rewrite Hc.
  - cbn [all_chars] in *. now rewrite Hc, IH.
Qed.

Lemma all_chars_strip p s : all_chars p s = true -> all_chars p (strip s) = true.
Proof. intros H. unfold strip. now apply all_chars_rstrip, all_chars_lstrip. Qed.

Lemma replace_crlf_all_chars p s :
  (all_chars p s = true -> all_chars p (replace_crlf s) = true)
  /\ (forall c, all_chars p (String c s) = true ->
        all_chars p (replace_crlf (String c s)) = true).
Proof.
  induction s as [|d s [IH1 IH2]].
  - split; [reflexivity|]. intros c H. cbn [replace_crlf].
    destruct (is_cr c); exact H.
  - assert (H2 : forall c, all_chars p (String c s) = true ->
                           all_chars p (replace_crlf (String c s)) = true) by exact IH2.
    split; [apply IH2|].
    intros c H. cbn [all_chars] in H. apply andb_prop in H as [Hc H].
    pose proof H as Hds. cbn [all_chars] in H. apply andb_prop in H as [Hd Hs].
    change (replace_crlf (String c (String d s)))
      with (if is_cr c
            then if is_newline d then String d (replace_crlf s)
                 else String c (replace_crlf (String d s))
            else String c (replace_crlf (String d s))).
    destruct (is_cr c).
    + destruct (is_newline d).
      * cbn [all_chars]. now rewrite Hd, IH1.
      * cbn [all_chars]. now rewrite Hc, (IH2 d Hds).
    + cbn [all_chars]. now rewrite Hc, (IH2 d Hds).
Qed.

Lemma replace_cr_no_cr s : all_chars (fun c => negb (is_cr c)) (replace_cr s) = true.
Proof.
  induction s as [|c s IH]; [reflexivity|]. cbn [replace_cr all_chars].
  rewrite IH, andb_true_r. destruct (is_cr c) eqn:E; [reflexivity | now rewrite E].
Qed.

Lemma replace_cr_all_space s :
  all_chars is_space s = true -> all_chars is_space (replace_cr s) = true.
Proof.
  induction s as [|c s IH]; [reflexivity|]. cbn [replace_cr all_chars].
  intros H. apply andb_prop in H as [Hc Hs]. rewrite (IH Hs), andb_true_r.
  destruct (is_cr c); [reflexivity | exact Hc].
Qed.

Lemma strip_blank s : is_blank s = true -> strip s = "".
Proof. unfold is_blank. destruct (strip s); [reflexivity | discriminate]. Qed.

Lemma normalize_text_blank raw : is_blank raw = true -> normalize_text raw = "".
Proof.
  intros H. rewrite is_blank_all_space in H. unfold normalize_text.
  apply strip_blank. rewrite is_blank_all_space.
  now apply replace_cr_all_space, (replace_crlf_all_chars is_space raw).
Qed.

Lemma split_lines_from_no_newline acc s :
  all_chars (fun c => negb (is_newline c)) acc = true ->
  List.Forall (fun l => all_chars (fun c => negb (is_newline c)) l = true)
    (split_lines_from acc s).
Proof.
  revert acc. induction s as [|c s IH]; intros acc Hacc; cbn [split_lines_from].
  - now constructor.
  - destruct (is_newline c) eqn:E.
    + constructor; [exact Hacc | now apply IH].
    + apply IH. rewrite all_chars_app, Hacc. cbn [all_chars]. now rewrite E.
Qed.

(** *** The filter *)

(** The empty line is no heading, whatever the limits. *)
Lemma empty_line_no_heading cfg : _is_heading_candidate "" cfg = false.
Proof.
  unfold _is_heading_candidate. cbn [strip lstrip rstrip String.length Z.of_nat].
  destruct (_ || _); [reflexivity|].
  cbn [ends_with_period]. rewrite andb_false_r.
  cbn [split split_words truthy].
  destruct (max_words cfg <? len []); [reflexivity | vm_compute; reflexivity].
Qed.

Lemma candidate_strip line cfg :
  _is_heading_candidate (strip line) cfg = _is_heading_candidate line cfg.
Proof. unfold _is_heading_candidate. now rewrite strip_idempotent. Qed.

(** What every accepted line satisfies. *)
Lemma candidate_limits line cfg :
  _is_heading_candidate line cfg = true ->
  min_len cfg <= Z.of_nat (String.length (strip line)) <= max_len cfg
  /\ len (split (strip line)) <= max_words cfg
  /\ (require_no_period cfg <> Some false -> ends_with_period (strip line) = false).
Proof.
  unfold _is_heading_candidate.
  destruct (_ <? min_len cfg) eqn:E1; [discriminate|].
  destruct (max_len cfg <? _) eqn:E2; [discriminate|]. cbn [orb].
  destruct (_ && ends_with_period (strip line)) eqn:E3; [discriminate|].
  destruct (max_words cfg <? _) eqn:E4; [discriminate|]. intros _.
  apply Z.ltb_ge in E1, E2, E4. repeat split; try lia.
  intros Hreq. destruct (require_no_period cfg) as [[]|]; cbn [andb] in E3;
    [exact E3 | congruence | exact E3].
Qed.

Lemma detect_headings_spec text cfg h :
  In h (detect_headings text cfg) ->
  exists line, In line (split_lines text) /\ h = strip line
               /\ _is_heading_candidate line cfg = true.
Proof.
  unfold detect_headings. intros H. apply List.in_map_iff in H as [line [<- Hl]].
  apply List.filter_In in Hl as [Hin Hc]. eauto.
Qed.

Lemma extract_pages_from_spec i path doc cfg p :
  In p (extract_pages_from i path doc cfg) ->
  exists raw, In raw doc /\ file_path p = path /\ text p = normalize_text raw
              /\ detected_headings p = detect_headings (normalize_text raw) cfg.
Proof.
  revert i. induction doc as [|raw doc IH]; intros i; cbn [extract_pages_from];
    [intros []|].
  intros [<-|H].
  - exists raw. cbn. auto.
  - destruct (IH _ H) as [raw' [Hin Hp]]. exists raw'. split; [now right | exact Hp].
Qed.

Lemma extract_pages_from_numbers i path doc cfg :
  map page_number (extract_pages_from i path doc cfg)
  = map (fun k => i + Z.of_nat k + 1) (seq 0 (length doc)).
Proof.
  revert i. induction doc as [|raw doc IH]; intros i; [reflexivity|].
  cbn [extract_pages_from map length seq page_number].
  rewrite IH, <- List.seq_shift, List.map_map. f_equal; [lia|].
  apply List.map_ext. intros k. lia.
Qed.

Lemma extract_pages_from_blank i path doc cfg :
  List.Forall2 (fun raw p => is_blank raw = true ->
                             text p = "" /\ detected_headings p = [])
    doc (extract_pages_from i path doc cfg).
Proof.
  revert i. induction doc as [|raw doc IH]; intros i; cbn [extract_pages_from];
    constructor; [|apply IH].
  intros Hb. cbn [text detected_headings]. rewrite (normalize_text_blank raw Hb).
  split; [reflexivity|].
  unfold detect_headings, split_lines. cbn [split_lines_from List.filter].
  now rewrite empty_line_no_heading.
Qed.

(** *** Theorems *)

(** The pages that [extract_pdf_pages] returns are numbered 1, 2, ... in the
    order of the document; each carries the path given, and a text without
    carriage return and without whitespace at either end; and a page whose
    raw text is blank comes out with the empty text and no heading. *)
Theorem extracted_pages_normalised (pdf_path : string) (doc : list string)
    (heading_cfg : HeadingConfig) :
  let pages := extract_pdf_pages pdf_path doc heading_cfg in
  map page_number pages = map (fun k => Z.of_nat k + 1) (seq 0 (length doc))
  /\ List.Forall (fun p => file_path p = pdf_path
                           /\ strip (text p) = text p
                           /\ all_chars (fun c => negb (is_cr c)) (text p) = true) pages
  /\ List.Forall2 (fun raw p => is_blank raw = true ->
                                text p = "" /\ detected_headings p = []) doc pages.
Proof.
  cbn zeta. unfold extract_pdf_pages. split; [|split].
  - rewrite extract_pages_from_numbers. apply List.map_ext. intros k. lia.
  - apply List.Forall_forall. intros p Hp.
    destruct (extract_pages_from_spec _ _ _ _ _ Hp) as [raw [_ [Hf [Ht _]]]].
    rewrite Ht. unfold normalize_text. repeat split.
    + exact Hf.
    + apply strip_idempotent.
    + apply all_chars_strip, replace_cr_no_cr.
  - apply extract_pages_from_blank.
Qed.

(** Every heading recorded for a page is a line of the page's text with the
    whitespace at its ends removed; it spans one line, is itself accepted by
    the filter, has a length within [min_len, max_len] and at most
    [max_words] words, and does not end in a period unless the
    configuration switches that test off. *)
Theorem detected_headings_wellformed (pdf_path : string) (doc : list string)
    (heading_cfg : HeadingConfig) (p : PageText) (h : string) :
  In p (extract_pdf_pages pdf_path doc heading_cfg) ->
  In h (detected_headings p) ->
  (exists line, In line (split_lines (text p)) /\ h = strip line)
  /\ strip h = h
  /\ all_chars (fun c => negb (is_newline c)) h = true
  /\ _is_heading_candidate h heading_cfg = true
  /\ min_len heading_cfg <= Z.of_nat (String.length h) <= max_len heading_cfg
  /\ len (split h) <= max_words heading_cfg
  /\ (require_no_period heading_cfg <> Some false -> ends_with_period h = false).
Proof.
  intros Hp Hh. unfold extract_pdf_pages in Hp.
  destruct (extract_pages_from_spec _ _ _ _ _ Hp) as [raw [_ [_ [Ht Hd]]]].
  rewrite Hd, <- Ht in Hh.
  destruct (detect_headings_spec _ _ _ Hh) as [line [Hl [-> Hc]]].
  destruct (candidate_limits _ _ Hc) as [Hlen [Hw Hper]].
  split; [eauto|]. split; [apply strip_idempotent|].
  split.
  { apply all_chars_strip.
    exact (proj1 (List.Forall_forall _ _)
             (split_lines_from_no_newline "" (text p) eq_refl) line Hl). }
  split; [now rewrite candidate_strip|]. auto.
Qed.

Lemma detected_headings_wellformed_witness :
  strip "1 Introduction" = "1 Introduction"
  /\ _is_heading_candidate "1 Introduction" default_heading_cfg = true.
Proof.
  destruct (detected_headings_wellformed "paper.pdf"
              [String "013" (String "010" "  1 Introduction ")
                 +:+ String "013" "We study chunking."; "   "]
              default_heading_cfg
              (mkPageText "paper.pdf" 1
                 ("1 Introduction " +:+ String "010" "We study chunking.")
                 ["1 Introduction"])
              "1 Introduction")
    as [_ [Hs [_ [Hc _]]]].
  - vm_compute. left. reflexivity.
  - now left.
  - split; [exact Hs | exact Hc].
Defined.

(** *** From a document to its chunks *)

Lemma extract_pages_from_bounds i path doc cfg p :
  In p (extract_pages_from i path doc cfg) ->
  i + 1 <= page_number p <= i + len doc.
Proof.
  intros Hp. apply (List.in_map page_number) in Hp.
  rewrite extract_pages_from_numbers in Hp.
  apply List.in_map_iff in Hp as [k [<- Hk]]. apply List.in_seq in Hk.
  unfold len. lia.
Qed.

Section Indexing.

Context {token : Type}.
Variable encode : string -> list token.
Variable decode : list token -> string.
Variable sha1_hexdigest : list ascii -> string.
Variable chunk_tokens chunk_overlap_tokens min_chunk_tokens : Z.

#[local] Abbreviation chunk_pages_from :=
  (Chunking.chunk_pages_from encode decode sha1_hexdigest
     chunk_tokens chunk_overlap_tokens min_chunk_tokens).
#[local] Abbreviation chunk_pages :=
  (Chunking.chunk_pages encode decode sha1_hexdigest
     chunk_tokens chunk_overlap_tokens min_chunk_tokens).

(** Each chunk was cut from one of the pages. *)
Lemma chunk_pages_from_provenance fuel pages acc acc' :
  chunk_pages_from fuel acc pages = Some acc' ->
  exists emitted,
    chunks (snd acc') = chunks (snd acc) ++ emitted
    /\ List.Forall (fun c => exists page section,
                        In page pages /\ ChunkingWords.cut_from page section c) emitted.
Proof.
  revert acc. induction pages as [|page pages IH]; intros acc;
    cbn [Chunking.chunk_pages_from].
  - intros [= <-]. exists []. split; [now rewrite List.app_nil_r | constructor].
  - destruct (Chunking.chunk_page _ _ _ _ _ _ fuel acc page) as [acc1|] eqn:E;
      [|discriminate].
    intros H. destruct (IH _ H) as [em2 [E2 H2]].
    apply chunk_page_emits in E as [_ [em1 [E1 H1]]].
    exists (em1 ++ em2). split; [now rewrite E2, E1, List.app_assoc|].
    apply List.Forall_app. split.
    + eapply List.Forall_impl; [|exact H1]. intros c [Hc _].
      exists page, (_clean_heading (fst acc1)). split; [now left | exact Hc].
    + eapply List.Forall_impl; [|exact H2]. intros c [pg [sec [Hin Hc]]].
      exists pg, sec. split; [now right | exact Hc].
Qed.

(** Indexing a document: every chunk cut from the pages that
    [extract_pdf_pages] returns carries the path of the document, its last
    segment as file name, and a page number between 1 and the number of
    pages. *)
Theorem indexed_chunks_provenance (pdf_path : string) (doc : list string)
    (heading_cfg : HeadingConfig) (fuel : nat) (result : list Chunk) :
  chunk_pages fuel (extract_pdf_pages pdf_path doc heading_cfg) = Some result ->
  List.Forall (fun c => source_path (chunk_metadata c) = pdf_path
                        /\ source_file (chunk_metadata c)
                           = last_segment EmptyString pdf_path
                        /\ 1 <= md_page (chunk_metadata c) <= len doc) result.
Proof.
  unfold Chunking.chunk_pages.
  destruct (chunk_pages_from fuel ("Unknown", mkLoopState [] 0)
              (extract_pdf_pages pdf_path doc heading_cfg)) as [[sec st]|] eqn:E;
    [|discriminate].
  intros [= <-].
  destruct (chunk_pages_from_provenance _ _ _ _ E) as [emitted [Hc Hf]].
  cbn [snd chunks List.app] in Hc. rewrite Hc.
  eapply List.Forall_impl; [|exact Hf].
  intros c [page [section [Hin [Hpath [Hfile [Hpage _]]]]]].
  unfold extract_pdf_pages in Hin.
  destruct (extract_pages_from_spec _ _ _ _ _ Hin) as [raw [_ [Hfp _]]].
  pose proof (extract_pages_from_bounds _ _ _ _ _ Hin) as Hb.
  rewrite Hpath, Hfile, Hpage, Hfp. repeat split; lia.
Qed.

End Indexing.

Lemma indexed_chunks_provenance_witness :
  exists result,
    Chunking.chunk_pages char_encode char_decode length_digest 5 2 3 20
      (extract_pdf_pages "/papers/a.pdf" ["hello world"; "  "; "more text"]
         default_heading_cfg) = Some result
    /\ result <> []
    /\ List.Forall (fun c => source_path (chunk_metadata c) = "/papers/a.pdf"
                             /\ source_file (chunk_metadata c)
                                = last_segment EmptyString "/papers/a.pdf"
                             /\ 1 <= md_page (chunk_metadata c) <= 3) result.
Proof.
  destruct (Chunking.chunk_pages char_encode char_decode length_digest 5 2 3 20
              (extract_pdf_pages "/papers/a.pdf" ["hello world"; "  "; "more text"]
                 default_heading_cfg)) as [result|] eqn:E;
    [|vm_compute in E; discriminate E].
  exists result. split; [reflexivity|]. split.
  - intros ->. vm_compute in E. discriminate E.
  - exact (indexed_chunks_provenance char_encode char_decode length_digest 5 2 3
             "/papers/a.pdf" ["hello world"; "  "; "more text"]
             default_heading_cfg 20 result E).
Defined.

End IngestFacts.

Module ChunkContent.
Import PyStr Chunking ChunkingWords Samples.
Import PyStrFacts ChunkingFacts.
#[local] Open Scope list_scope.
#[local] Open Scope Z_scope.

Section Content.

Context {token : Type}.
Variable encode : string -> list token.
Variable decode : list token -> string.
Variable sha1_hexdigest : list ascii -> string.
Variable chunk_tokens chunk_overlap_tokens min_chunk_tokens : Z.

#[local] Abbreviation window_end :=
  (Chunking.window_end chunk_tokens min_chunk_tokens).
#[local] Abbreviation emit := (Chunking.emit sha1_hexdigest).
#[local] Abbreviation while_loop :=
  (Chunking.while_loop decode sha1_hexdigest
     chunk_tokens chunk_overlap_tokens min_chunk_tokens).
#[local] Abbreviation chunk_page :=
  (Chunking.chunk_page encode decode sha1_hexdigest
     chunk_tokens chunk_overlap_tokens min_chunk_tokens).
#[local] Abbreviation chunk_pages_from :=
  (Chunking.chunk_pages_from encode decode sha1_hexdigest
     chunk_tokens chunk_overlap_tokens min_chunk_tokens).
#[local] Abbreviation chunk_pages :=
  (Chunking.chunk_pages encode decode sha1_hexdigest
     chunk_tokens chunk_overlap_tokens min_chunk_tokens).

#[local] Abbreviation window_of :=
  (ChunkingWords.window_of encode decode chunk_tokens min_chunk_tokens).

Lemma while_loop_windows fuel page section start st st' :
  0 <= start ->
  while_loop fuel page section (encode (text page)) start st = Some st' ->
  exists emitted,
    chunks st' = chunks st ++ emitted /\ List.Forall (window_of page) emitted.
Proof.
  revert start st. induction fuel as [|fuel IH]; intros start st Hs;
    cbn [Chunking.while_loop];
    destruct (start <? len (encode (text page))) eqn:Hlt;
    try discriminate;
    try (intros [= <-]; exists []; split; [now rewrite List.app_nil_r | constructor]).
  apply Z.ltb_lt in Hlt.
  unfold Chunking.window_step.
  set (w := slice (encode (text page)) start (window_end (encode (text page)) start)).
  assert (Hstep : exists em,
             chunks (if truthy (strip (decode w))
                     then emit page section (strip (decode w)) st else st)
             = chunks st ++ em /\ List.Forall (window_of page) em).
  { destruct (truthy (strip (decode w))).
    - eexists. unfold Chunking.emit. cbn [chunks]. split; [reflexivity|].
      constructor; [|constructor]. unfold ChunkingWords.window_of. cbn.
      repeat split. exists start. split; [lia | reflexivity].
    - exists []. split; [now rewrite List.app_nil_r | constructor]. }
  destruct Hstep as [em [Hem Hf]].
  destruct (window_end (encode (text page)) start =? len (encode (text page))).
  - intros [= <-]. eauto.
  - intros H.
    destruct (IH _ _ (Z.le_max_l 0 _) H) as [em2 [Hem2 Hf2]].
    exists (em ++ em2). split; [now rewrite Hem2, Hem, List.app_assoc|].
    apply List.Forall_app. auto.
Qed.

Lemma chunk_pages_from_windows fuel pages acc acc' :
  chunk_pages_from fuel acc pages = Some acc' ->
  exists emitted,
    chunks (snd acc') = chunks (snd acc) ++ emitted
    /\ List.Forall (fun c => exists page, In page pages /\ window_of page c) emitted.
Proof.
  revert acc. induction pages as [|page pages IH]; intros acc;
    cbn [Chunking.chunk_pages_from].
  - intros [= <-]. exists []. split; [now rewrite List.app_nil_r | constructor].
  - destruct (chunk_page fuel acc page) as [acc1|] eqn:E; [|discriminate].
    intros H. destruct (IH _ H) as [em2 [E2 H2]].
    assert (H1 : exists em1, chunks (snd acc1) = chunks (snd acc) ++ em1
                             /\ List.Forall (window_of page) em1).
    { unfold Chunking.chunk_page in E.
      destruct (encode (text page)) as [|t ts] eqn:Et.
      - injection E as <-. exists []. split; [now rewrite List.app_nil_r | constructor].
      - rewrite <- Et in E.
        destruct (while_loop fuel page _ (encode (text page)) 0 (snd acc))
          as [st1|] eqn:E1; [|discriminate].
        injection E as <-. cbn [snd].
        exact (while_loop_windows _ _ _ 0 _ _ (Z.le_refl 0) E1). }
    destruct H1 as [em1 [E1 H1]].
    exists (em1 ++ em2). split; [now rewrite E2, E1, List.app_assoc|].
    apply List.Forall_app. split.
    + eapply List.Forall_impl; [|exact H1]. intros c Hc. exists page. split; [now left | exact Hc].
    + eapply List.Forall_impl; [|exact H2]. intros c [pg [Hin Hc]].
      exists pg. split; [now right | exact Hc].
Qed.

(** The text of every chunk is the stripped decoding of one window of the
    tokens of one page, the page whose path and number the chunk carries:
    the window begins at a valid position [start] of that page's tokens and
    ends where the loop puts the end for that start.  No chunk holds text
    of two pages. *)
Theorem chunk_text_is_page_window (fuel : nat) (pages : list PageText)
    (result : list Chunk) :
  chunk_pages fuel pages = Some result ->
  List.Forall (fun c => exists page, In page pages /\ window_of page c) result.
Proof.
  unfold Chunking.chunk_pages.
  destruct (chunk_pages_from fuel ("Unknown", mkLoopState [] 0) pages)
    as [[sec st]|] eqn:E; [|discriminate].
  intros [= <-].
  destruct (chunk_pages_from_windows _ _ _ _ E) as [emitted [Hc Hf]].
  cbn [snd chunks List.app] in Hc. now rewrite Hc.
Qed.

End Content.

Lemma chunk_text_is_page_window_witness :
  exists result,
    char_chunk_pages 5 2 3 20 sample_pages = Some result
    /\ result <> []
    /\ List.Forall (fun c => exists page,
                        In page sample_pages
                        /\ ChunkingWords.window_of char_encode char_decode 5 3 page c) result.
Proof.
  unfold char_chunk_pages.
  destruct (Chunking.chunk_pages char_encode char_decode length_digest 5 2 3 20
              sample_pages) as [result|] eqn:E; [|vm_compute in E; discriminate E].
  exists result. split; [reflexivity|]. split.
  - intros ->. vm_compute in E. discriminate E.
  - exact (chunk_text_is_page_window char_encode char_decode length_digest 5 2 3 20
             sample_pages result E).
Defined.

End ChunkContent.
